(** * BullionKeep: the FIFO lot-accounting engine

    A shallow embedding of the ledger code of the application
    ([handleAddInvoice] and the customer statistics of the application
    controller, the pre-check of the invoice form, and the reporting
    functions of [utils.ts]) together with the properties of the
    specification that were checked against it.  The last part covers
    more of the code: the values the dashboard derives, the stock aging
    and the alerts, the inventory table, the analytics and business
    ledger views, the total field of the form and the date range picker.

    Conventions of the embedding.
    - A JavaScript [number] is an exact rational ([Q]); a computation
      whose JavaScript result would be [NaN] or an infinity (an invalid
      [Date], a division by zero) is a failure ([None]), and so is a call
      that throws.
    - The code computes with doubles, which round.  An identity of a
      theorem between a result of the code and a sum, a product or a
      quotient holds of the doubles up to their rounding.  A theorem that
      depends on a test of the code against a threshold, or that bounds a
      result, keeps the margin [slack] from the threshold or the bound,
      and [Double] has the code once more on binary64 numbers, for the
      inputs at a threshold, where the rounding decides.
    - A date is the string the code stores.  [a <= b] on two dates is the
      JavaScript comparison of strings ([String.leb]); the timestamp
      [new Date(s).getTime()] is a parameter [getTime] of the development
      ([None] for an invalid date), so that the theorems hold whatever the
      date parser accepts.
    - React state is passed explicitly: a handler takes the state and
      returns the next one.
    - [Array.prototype.sort] is a stable sort; it is an insertion sort
      here.  For a comparator that is a total preorder every stable sort
      returns the same array; for one that is not (a [NaN] from an invalid
      date) JavaScript leaves the order to the engine, and the properties
      that depend on the order assume valid dates.
    - A loop without a bound runs on fuel, and a result is a proof that
      the fuel suffices.
    - Where a property is about what a call may change, the code is
      modelled a second time on a store of objects and arrays ([Store]),
      and related to the functions on values. *)

From Stdlib Require Import Floats.
From Stdlib Require Import QArith Qminmax Qabs Qround Lqa ZArith Lia.
From Stdlib Require Import Ascii String Sorting.Sorted Sorting.Permutation.
From stdpp Require Import base option list strings gmap.

Open Scope Q_scope.

(** ** Numbers *)

Module Num.

(** [x > y], [x < y] and [x <= y] as the code tests them. *)
Definition gtb (x y : Q) : bool := negb (Qle_bool x y).
Definition ltb (x y : Q) : bool := negb (Qle_bool y x).
Definition leb (x y : Q) : bool := Qle_bool x y.

(** [x / y]; a zero divisor gives an infinity or [NaN]. *)
Definition div (x y : Q) : option Q :=
  if Qeq_bool y 0 then None else Some (x / y).

(** [o || 0] on an optional number. *)
Definition orZero (o : option Q) : Q := default 0 o.

End Num.

(** ** The data model ([types.ts])

    [gstRate] of an invoice is [None] when it is [NaN]: the form stores
    [parseFloat] of a field that may be empty. *)

Inductive TransactionType := PURCHASE | SALE.

Record Invoice := {
  id : string;
  date : string;
  type : TransactionType;
  partyName : string;
  quantityGrams : Q;
  ratePerGram : Q;
  gstRate : option Q;
  gstAmount : Q;
  taxableAmount : Q;
  totalAmount : Q;
  cogs : option Q;
  profit : option Q
}.

(** [id] and [date] of a batch are [batchId] and [batchDate]: a record
    field has one owner. *)
Record InventoryBatch := {
  batchId : string;
  batchDate : string;
  originalQuantity : Q;
  remainingQuantity : Q;
  costPerGram : Q;
  closedDate : option string;
  totalRevenue : option Q
}.

(** The statistics of a customer; the controller adds [avgQtyPerTx],
    [avgSellingPrice] and [behaviorPattern]. *)
Record CustomerStat := {
  name : string;
  totalGrams : Q;
  totalSpend : Q;
  profitContribution : Q;
  txCount : Q;
  avgProfitPerGram : option Q;
  margin : option Q;
  avgQtyPerTx : option Q;
  avgSellingPrice : option Q;
  behaviorPattern : option string
}.

(** [name] and [txCount] of a supplier are [supplierName] and
    [supplierTxCount]. *)
Record SupplierStat := {
  supplierName : string;
  totalGramsPurchased : Q;
  avgRate : Q;
  minRate : Q;
  maxRate : Q;
  volatility : Q;
  supplierTxCount : Q
}.

Record TurnoverStats := {
  turnoverRatio : Q;
  avgDaysToSell : Q;
  avgInventoryValue : Q;
  totalCOGS : Q
}.

Inductive ToastType := SUCCESS | ERROR.

(** A toast without its random identifier. *)
Record ToastMessage := { toastType : ToastType; message : string }.

(** The two collections the application owns, and the toasts it shows. *)
Record AppState := {
  invoices : list Invoice;
  inventory : list InventoryBatch;
  toasts : list ToastMessage
}.

Definition initialState : AppState :=
  {| invoices := []; inventory := []; toasts := [] |}.

Definition isSaleType (t : TransactionType) : bool :=
  match t with SALE => true | PURCHASE => false end.

Definition isSale (inv : Invoice) : bool := isSaleType (type inv).

Definition isPurchase (inv : Invoice) : bool := negb (isSale inv).

(** ** [Array.prototype.sort] *)

Section Sort.
Context {A : Type}.

(** The comparator returns a number; [None] is [NaN], which [sort]
    reads as [+0]. *)
Variable cmp : A -> A -> option Q.

(** [cmp y x > 0]: [y] has to come after [x]. *)
Definition after (y x : A) : bool :=
  match cmp y x with
  | Some v => Num.gtb v 0
  | None => false
  end.

(** [x] goes behind every element that is not after it. *)
Fixpoint insertSorted (x : A) (l : list A) : list A :=
  match l with
  | [] => [x]
  | y :: l' => if after y x then x :: l else y :: insertSorted x l'
  end.

Definition jsSort (l : list A) : list A :=
  fold_left (fun acc x => insertSorted x acc) l [].

End Sort.

(** ** Objects used as maps

    A [Record<string, V>] that starts as [{}] and is built by assignments:
    its own entries, in the order the keys were created, and the
    properties it inherits from [Object.prototype]. *)

Module JsObject.
Section JsObject.
Context {V : Type}.

Definition t := list (string * V).

(** The entry of [o] for the key [k]. *)
Fixpoint get (k : string) (o : t) : option V :=
  match o with
  | [] => None
  | (k', v) :: o' => if String.eqb k k' then Some v else get k o'
  end.

(** The properties [{}] inherits.  Each of them is a function or an
    object: true in a test, and without the fields of an entry. *)
Definition prototypeKeys : list string :=
  [ "constructor"; "__defineGetter__"; "__defineSetter__"; "hasOwnProperty";
    "__lookupGetter__"; "__lookupSetter__"; "isPrototypeOf";
    "propertyIsEnumerable"; "toString"; "valueOf"; "__proto__";
    "toLocaleString" ]%string.

Definition inherited (k : string) : bool := existsb (String.eqb k) prototypeKeys.

(** What [o[k]] finds: an entry of [o], a property [o] inherits, or
    [undefined]. *)
Inductive Property := Own (v : V) | Inherited | Missing.

(** [o[k]] *)
Definition lookup (k : string) (o : t) : Property :=
  match get k o with
  | Some v => Own v
  | None => if inherited k then Inherited else Missing
  end.

(** [o[k] = v]: a present key keeps its place. *)
Fixpoint set (k : string) (v : V) (o : t) : t :=
  match o with
  | [] => [(k, v)]
  | (k', v') :: o' =>
      if String.eqb k k' then (k, v) :: o' else (k', v') :: set k v o'
  end.

Definition isDigit (c : ascii) : bool :=
  let n := nat_of_ascii c in (Nat.leb 48 n && Nat.leb n 57)%bool.

Fixpoint allDigits (s : string) : bool :=
  match s with
  | EmptyString => true
  | String c s' => isDigit c && allDigits s'
  end.

Fixpoint decimal (s : string) (acc : N) : N :=
  match s with
  | EmptyString => acc
  | String c s' => decimal s' (10 * acc + N.of_nat (nat_of_ascii c - 48))%N
  end.

(** A key that is an array index: a canonical numeric string below
    [2^32 - 1]. *)
Definition arrayIndex (k : string) : option N :=
  match k with
  | EmptyString => None
  | String c rest =>
      if allDigits k && (negb (Ascii.eqb c "0") || String.eqb rest "")
      then let n := decimal k 0 in
           if (n <=? 4294967294)%N then Some n else None
      else None
  end.

Fixpoint insertIndex (n : N) (e : string * V) (l : list (N * (string * V)))
    : list (N * (string * V)) :=
  match l with
  | [] => [(n, e)]
  | (m, e') :: l' =>
      if (n <? m)%N then (n, e) :: l else (m, e') :: insertIndex n e l'
  end.

Fixpoint indexEntries (o : t) : list (N * (string * V)) :=
  match o with
  | [] => []
  | e :: o' =>
      match arrayIndex (fst e) with
      | Some n => insertIndex n e (indexEntries o')
      | None => indexEntries o'
      end
  end.

Definition stringEntries (o : t) : t :=
  List.filter (fun e => match arrayIndex (fst e) with Some _ => false | None => true end) o.

(** [Object.entries(o)]: array indices in ascending order, then the
    other keys in creation order. *)
Definition entries (o : t) : t := map snd (indexEntries o) ++ stringEntries o.

(** [Object.values(o)] *)
Definition values (o : t) : list V := map snd (entries o).

End JsObject.
End JsObject.

(** ** The application controller *)

Section Engine.

(** [new Date(s).getTime()], in milliseconds. *)
Variable getTime : string -> option Z.

(** [new Date(a).getTime() - new Date(b).getTime()] *)
Definition dateDiff (a b : string) : option Q :=
  ta ← getTime a; tb ← getTime b; Some (inject_Z (ta - tb)).

Definition addToast (t : ToastType) (m : string) (st : AppState) : AppState :=
  {| invoices := invoices st;
     inventory := inventory st;
     toasts := toasts st ++ [{| toastType := t; message := m |}] |}.

(** The body of the loop of a sale for a batch with stock. *)
Definition drawFrom (invoice : Invoice) (batch : InventoryBatch)
    (remainingToSell : Q) : InventoryBatch * Q :=
  let take := Qmin (remainingQuantity batch) remainingToSell in
  let revenue := Num.orZero (totalRevenue batch) + take * ratePerGram invoice in
  let remaining := remainingQuantity batch - take in
  let closed := Num.ltb remaining (1 # 10000) in
  ({| batchId := batchId batch;
      batchDate := batchDate batch;
      originalQuantity := originalQuantity batch;
      remainingQuantity := if closed then 0 else remaining;
      costPerGram := costPerGram batch;
      closedDate := if closed then Some (date invoice) else closedDate batch;
      totalRevenue := Some revenue |},
   take).

(** [for (const batch of newInventory) { ... }]: the batches after the
    loop, [remainingToSell] and [totalCOGS]. *)
Fixpoint allocate (invoice : Invoice) (newInventory : list InventoryBatch)
    (remainingToSell totalCOGS : Q) : list InventoryBatch * Q * Q :=
  match newInventory with
  | [] => ([], remainingToSell, totalCOGS)
  | batch :: rest =>
      if Num.leb remainingToSell 0 then (newInventory, remainingToSell, totalCOGS)
      else if Num.gtb (remainingQuantity batch) 0 then
        let '(batch', take) := drawFrom invoice batch remainingToSell in
        let '(rest', r, c) :=
          allocate invoice rest (remainingToSell - take)
                   (totalCOGS + take * costPerGram batch) in
        (batch' :: rest', r, c)
      else
        let '(rest', r, c) := allocate invoice rest remainingToSell totalCOGS in
        (batch :: rest', r, c)
  end.

Definition newBatch (invoice : Invoice) : InventoryBatch :=
  {| batchId := id invoice;
     batchDate := date invoice;
     originalQuantity := quantityGrams invoice;
     remainingQuantity := quantityGrams invoice;
     costPerGram := ratePerGram invoice;
     closedDate := None;
     totalRevenue := None |}.

Definition withCogs (invoice : Invoice) (c p : Q) : Invoice :=
  {| id := id invoice; date := date invoice; type := type invoice;
     partyName := partyName invoice; quantityGrams := quantityGrams invoice;
     ratePerGram := ratePerGram invoice; gstRate := gstRate invoice;
     gstAmount := gstAmount invoice; taxableAmount := taxableAmount invoice;
     totalAmount := totalAmount invoice; cogs := Some c; profit := Some p |}.

Definition byBatchDate (a b : InventoryBatch) : option Q :=
  dateDiff (batchDate a) (batchDate b).

Definition handleAddInvoice (st : AppState) (invoice : Invoice) : AppState :=
  match type invoice with
  | PURCHASE =>
      addToast SUCCESS "Purchase recorded & Inventory Updated"
        {| invoices := invoice :: invoices st;
           inventory := jsSort byBatchDate (inventory st ++ [newBatch invoice]);
           toasts := toasts st |}
  | SALE =>
      let '(newInventory, remainingToSell, totalCOGS) :=
        allocate invoice (inventory st) (quantityGrams invoice) 0 in
      if Num.gtb remainingToSell (1 # 1000)
      then addToast ERROR "FIFO Mismatch - Check Stock" st
      else
        let profit := quantityGrams invoice * ratePerGram invoice - totalCOGS in
        addToast SUCCESS "Sale recorded. FIFO Logic Applied."
          {| invoices := withCogs invoice totalCOGS profit :: invoices st;
             inventory := newInventory;
             toasts := toasts st |}
  end.

(** The ledger after a sequence of submitted invoices. *)
Definition runLedger (st : AppState) (ops : list Invoice) : AppState :=
  fold_left handleAddInvoice ops st.

(** [customerData] of the controller. *)

Definition emptyCustomer (n : string) : CustomerStat :=
  {| name := n; totalGrams := 0; totalSpend := 0; profitContribution := 0;
     txCount := 0; avgProfitPerGram := Some 0; margin := None;
     avgQtyPerTx := None; avgSellingPrice := None; behaviorPattern := None |}.

(** The updates of [filteredInvoices.forEach] to the entry of the party. *)
Definition tally (stat : CustomerStat) (inv : Invoice) : CustomerStat :=
  let sale := isSale inv in
  {| name := name stat;
     totalGrams := if sale then totalGrams stat + quantityGrams inv else totalGrams stat;
     totalSpend := if sale then totalSpend stat + totalAmount inv else totalSpend stat;
     profitContribution :=
       if sale then profitContribution stat + Num.orZero (profit inv)
       else profitContribution stat;
     txCount := txCount stat + 1;
     avgProfitPerGram := avgProfitPerGram stat; margin := margin stat;
     avgQtyPerTx := avgQtyPerTx stat; avgSellingPrice := avgSellingPrice stat;
     behaviorPattern := behaviorPattern stat |}.

(** The body of [filteredInvoices.forEach]: the entry is created when
    [customerStats[inv.partyName]] is [undefined].  For a party whose name
    is an inherited property that test finds the property, no entry is
    created, and the updates go to fields of the function or object that
    was found: [customerStats] has no entry for that party. *)
Definition customerStep (customerStats : JsObject.t (V := CustomerStat))
    (inv : Invoice) : JsObject.t (V := CustomerStat) :=
  match JsObject.lookup (partyName inv) customerStats with
  | JsObject.Own stat =>
      JsObject.set (partyName inv) (tally stat inv) customerStats
  | JsObject.Missing =>
      JsObject.set (partyName inv) (tally (emptyCustomer (partyName inv)) inv)
                   customerStats
  | JsObject.Inherited => customerStats
  end.

Definition basePattern (avgQty count : Q) : string :=
  if Num.gtb avgQty 100 then "Bulk Buyer"
  else if Num.gtb count 5 then "Frequent"
  else "Regular".

Definition patternSuffix (m : Q) : string :=
  if Num.ltb m (1 # 2) then " (Price Sensitive)"
  else if Num.gtb m 2 then " (High Margin)"
  else "".

(** The function mapped over the customers with a positive spend. *)
Definition customerRow (stat : CustomerStat) : option CustomerStat :=
  m ← (if Num.gtb (totalSpend stat) 0
       then q ← Num.div (profitContribution stat) (totalSpend stat); Some (q * 100)
       else Some 0);
  avgQty ← Num.div (totalGrams stat) (txCount stat);
  avgSell ← (if Num.gtb (totalGrams stat) 0
             then Num.div (totalSpend stat) (totalGrams stat) else Some 0);
  avgProfit ← (if Num.gtb (totalGrams stat) 0
               then Num.div (profitContribution stat) (totalGrams stat) else Some 0);
  Some {| name := name stat; totalGrams := totalGrams stat;
          totalSpend := totalSpend stat;
          profitContribution := profitContribution stat;
          txCount := txCount stat;
          avgProfitPerGram := Some avgProfit; margin := Some m;
          avgQtyPerTx := Some avgQty; avgSellingPrice := Some avgSell;
          behaviorPattern :=
            Some (basePattern avgQty (txCount stat) +:+ patternSuffix m) |}.

Definition byProfit (a b : CustomerStat) : option Q :=
  Some (profitContribution b - profitContribution a).

Definition customerData (filteredInvoices : list Invoice) : option (list CustomerStat) :=
  let customerStats := fold_left customerStep filteredInvoices [] in
  rows ← mapM customerRow
         (List.filter (fun stat => Num.gtb (totalSpend stat) 0)
                      (JsObject.values customerStats));
  Some (jsSort byProfit rows).

(** [currentStock] and [fifoValue] of the controller, over the inventory
    they are given. *)
Definition currentStock (inv : list InventoryBatch) : Q :=
  fold_left (fun acc batch => acc + remainingQuantity batch) inv 0.

Definition fifoValue (inv : list InventoryBatch) : Q :=
  fold_left (fun acc batch => acc + remainingQuantity batch * costPerGram batch) inv 0.

End Engine.

(** ** The invoice form

    The fields of the form after [parseFloat].  The inputs of the three
    numbers are of type [number], whose value is a number or empty: [None]
    is the empty field, which [parseFloat] reads as [NaN].  The quantity
    and the rate are required, the GST rate is not. *)
Record FormData := {
  formDate : string;
  formType : TransactionType;
  formPartyName : string;
  formQuantityGrams : option Q;
  formRatePerGram : option Q;
  formGstRate : option Q
}.

(** What [setError] is called with. *)
Inductive FormError := DateLocked | MissingFields | InsufficientInventory.

Definition calculateTotals (formData : FormData) : Q * Q * Q :=
  let qty := Num.orZero (formQuantityGrams formData) in
  let rate := Num.orZero (formRatePerGram formData) in
  let gst := Num.orZero (formGstRate formData) in
  let taxable := qty * rate in
  let gstAmt := taxable * (gst / 100) in
  (taxable, gstAmt, taxable + gstAmt).

(** [lockDate && formData.date <= lockDate] *)
Definition locked (lockDate : option string) (d : string) : bool :=
  match lockDate with
  | Some l => negb (String.eqb l "") && String.leb d l
  | None => false
  end.

(** The invoice handed to [onAdd], or the error the form shows.  [newId]
    is the result of [generateId()]. *)
Definition handleSubmit (lockDate : option string) (currentStock : Q)
    (newId : string) (formData : FormData) : FormError + Invoice :=
  let '(taxable, gstAmt, total) := calculateTotals formData in
  if locked lockDate (formDate formData) then inl DateLocked else
  match formQuantityGrams formData, formRatePerGram formData with
  | Some qty, Some rate =>
      if String.eqb (formPartyName formData) "" then inl MissingFields else
      if isSaleType (formType formData) && Num.gtb qty currentStock
      then inl InsufficientInventory
      else inr {| id := newId; date := formDate formData; type := formType formData;
                  partyName := formPartyName formData;
                  quantityGrams := qty; ratePerGram := rate;
                  gstRate := formGstRate formData;
                  gstAmount := gstAmt; taxableAmount := taxable; totalAmount := total;
                  cogs := None; profit := None |}
  | _, _ => inl MissingFields
  end.

(** The form wired to the controller: [onAdd] is [handleAddInvoice] and
    [currentStock] is the stock of the whole inventory (no search
    filter).  An error of the form leaves the state as it is. *)
Definition submitInvoice (getTime : string -> option Z) (lockDate : option string)
    (st : AppState) (newId : string) (formData : FormData) : AppState :=
  match handleSubmit lockDate (currentStock (inventory st)) newId formData with
  | inl _ => st
  | inr invoice => handleAddInvoice getTime st invoice
  end.

(** ** The reporting functions ([utils.ts]) *)

(** A scratch pair of the replay. *)
Record Batch := { quantity : Q; cost : Q }.

Section Replay.

Variable getTime : string -> option Z.

Definition byDate (a b : Invoice) : option Q := dateDiff getTime (date a) (date b).

(** [remainingToSell > 0.000001 && batches.length > 0] *)
Definition whileCond (remainingToSell : Q) (batches : list Batch) : bool :=
  Num.gtb remainingToSell (1 # 1000000) && negb (Nat.eqb (length batches) 0).

(** One turn of the loop of a sale; reading [batches[0]] of an empty
    array is a fault. *)
Definition whileBody (remainingToSell : Q) (batches : list Batch)
    : option (Q * list Batch) :=
  match batches with
  | [] => None
  | currentBatch :: rest =>
      if Num.gtb (quantity currentBatch) remainingToSell
      then Some (0, {| quantity := quantity currentBatch - remainingToSell;
                       cost := cost currentBatch |} :: rest)
      else Some (remainingToSell - quantity currentBatch, rest)
  end.

(** The loop, for at most [fuel] turns; [None] when a turn faults or
    the turns do not suffice. *)
Fixpoint while (fuel : nat) (remainingToSell : Q) (batches : list Batch)
    : option (Q * list Batch) :=
  if whileCond remainingToSell batches then
    match fuel with
    | O => None
    | S fuel' =>
        '(r, bs) ← whileBody remainingToSell batches; while fuel' r bs
    end
  else Some (remainingToSell, batches).

(** The body of [for (const inv of relevantInvoices)].  A sale gets one
    turn more than there are scratch pairs. *)
Definition replayStep (batches : list Batch) (inv : Invoice) : option (list Batch) :=
  match type inv with
  | PURCHASE =>
      Some (batches ++ [{| quantity := quantityGrams inv; cost := ratePerGram inv |}])
  | SALE =>
      '(_, bs) ← while (S (length batches)) (quantityGrams inv) batches; Some bs
  end.

Fixpoint replay (relevantInvoices : list Invoice) (batches : list Batch)
    : option (list Batch) :=
  match relevantInvoices with
  | [] => Some batches
  | inv :: rest => bs ← replayStep batches inv; replay rest bs
  end.

Definition batchesValue (batches : list Batch) : Q :=
  fold_left (fun sum batch => sum + quantity batch * cost batch) batches 0.

Definition relevantInvoices (invoices : list Invoice) (targetDate : string)
    : list Invoice :=
  jsSort byDate (List.filter (fun inv => String.leb (date inv) targetDate) invoices).

Definition calculateInventoryValueOnDate (invoices : list Invoice)
    (targetDate : string) : option Q :=
  batches ← replay (relevantInvoices invoices targetDate) [];
  Some (batchesValue batches).

(** [calculateSupplierStats] *)

(** An entry of [stats]; [totalGrams] and [totalCost] are [accGrams] and
    [accCost]. *)
Record SupplierAcc := {
  accGrams : Q;
  accCost : Q;
  count : Q;
  rates : list Q
}.

(** The updates of the loop to the entry of the supplier. *)
Definition addPurchase (data : SupplierAcc) (inv : Invoice) : SupplierAcc :=
  {| accGrams := accGrams data + quantityGrams inv;
     accCost := accCost data + quantityGrams inv * ratePerGram inv;
     count := count data + 1;
     rates := rates data ++ [ratePerGram inv] |}.

Definition noPurchase : SupplierAcc :=
  {| accGrams := 0; accCost := 0; count := 0; rates := [] |}.

(** The body of [forEach]: the entry is created when
    [stats[inv.partyName]] is [undefined].  For a party whose name is an
    inherited property no entry is created, and [rates] of the function or
    object that was found is [undefined]: [push] throws a [TypeError]. *)
Definition supplierStep (stats : JsObject.t (V := SupplierAcc)) (inv : Invoice)
    : option (JsObject.t (V := SupplierAcc)) :=
  match JsObject.lookup (partyName inv) stats with
  | JsObject.Own data => Some (JsObject.set (partyName inv) (addPurchase data inv) stats)
  | JsObject.Missing =>
      Some (JsObject.set (partyName inv) (addPurchase noPurchase inv) stats)
  | JsObject.Inherited => None
  end.

(** [forEach] over the purchases; an exception ends it. *)
Fixpoint supplierLoop (purchases : list Invoice) (stats : JsObject.t (V := SupplierAcc))
    : option (JsObject.t (V := SupplierAcc)) :=
  match purchases with
  | [] => Some stats
  | inv :: rest => stats' ← supplierStep stats inv; supplierLoop rest stats'
  end.

(** [Math.min(...l)] and [Math.max(...l)]; no argument gives an
    infinity. *)
Definition mathMin (l : list Q) : option Q :=
  match l with [] => None | x :: l' => Some (fold_left Qmin l' x) end.

Definition mathMax (l : list Q) : option Q :=
  match l with [] => None | x :: l' => Some (fold_left Qmax l' x) end.

Definition supplierRow (e : string * SupplierAcc) : option SupplierStat :=
  let '(n, data) := e in
  lo ← mathMin (rates data);
  hi ← mathMax (rates data);
  avg ← (if Num.gtb (accGrams data) 0
         then Num.div (accCost data) (accGrams data) else Some 0);
  Some {| supplierName := n; totalGramsPurchased := accGrams data;
          avgRate := avg; minRate := lo; maxRate := hi;
          volatility := hi - lo; supplierTxCount := count data |}.

Definition byVolume (a b : SupplierStat) : option Q :=
  Some (totalGramsPurchased b - totalGramsPurchased a).

Definition calculateSupplierStats (invoices : list Invoice) : option (list SupplierStat) :=
  stats ← supplierLoop (List.filter isPurchase invoices) [];
  rows ← mapM supplierRow (JsObject.entries stats);
  Some (jsSort byVolume rows).

(** [calculateTurnoverStats] *)

Definition inPeriod (startDate endDate : string) (i : Invoice) : bool :=
  String.leb startDate (date i) && String.leb (date i) endDate.

(** [Math.max(1, (end.getTime() - start.getTime()) / (1000 * 3600 * 24))];
    [NaN] for an invalid date. *)
Definition daysInPeriod (startDate endDate : string) : option Q :=
  d ← dateDiff getTime endDate startDate;
  Some (Qmax 1 (d / (1000 * 3600 * 24))).

Definition calculateTurnoverStats (invoices : list Invoice)
    (startDate endDate : string) : option TurnoverStats :=
  let periodInvoices := List.filter (inPeriod startDate endDate) invoices in
  let sales := List.filter isSale periodInvoices in
  let total := fold_left (fun acc s => acc + Num.orZero (cogs s)) sales 0 in
  startInventoryVal ← calculateInventoryValueOnDate invoices startDate;
  endInventoryVal ← calculateInventoryValueOnDate invoices endDate;
  let avgInventory := (startInventoryVal + endInventoryVal) / 2 in
  ratio ← (if Num.gtb avgInventory 0 then Num.div total avgInventory else Some 0);
  avgDays ← (if Num.gtb ratio 0
             then days ← daysInPeriod startDate endDate; Num.div days ratio
             else Some 0);
  Some {| turnoverRatio := ratio; avgDaysToSell := avgDays;
          avgInventoryValue := avgInventory; totalCOGS := total |}.

End Replay.

(** ** A date parser for the examples

    [isoTime] reads a zero-padded [YYYY-MM-DD] string of a day that exists
    as [Date] does: midnight UTC of that day, in milliseconds since
    1970-01-01.  It stands for [getTime] in the scenarios only. *)

Definition digitOf (c : ascii) : option Z :=
  let n := Z.of_nat (nat_of_ascii c) in
  if ((48 <=? n) && (n <=? 57))%Z then Some (n - 48)%Z else None.

Fixpoint digitsOf (s : string) (acc : Z) : option Z :=
  match s with
  | EmptyString => Some acc
  | String c s' => d ← digitOf c; digitsOf s' (10 * acc + d)%Z
  end.

(** Days from 1970-01-01 to a day of the proleptic Gregorian calendar. *)
Definition daysFromCivil (y m d : Z) : Z :=
  let y' := (if m <=? 2 then y - 1 else y)%Z in
  let era := (y' / 400)%Z in
  let yoe := (y' - era * 400)%Z in
  let doy := ((153 * (if m >? 2 then m - 3 else m + 9) + 2) / 5 + d - 1)%Z in
  let doe := (yoe * 365 + yoe / 4 - yoe / 100 + doy)%Z in
  (era * 146097 + doe - 719468)%Z.

Definition isoTime (s : string) : option Z :=
  if negb (Nat.eqb (String.length s) 10) then None else
  if negb (String.eqb (substring 4 1 s) "-" && String.eqb (substring 7 1 s) "-") then None else
  y ← digitsOf (substring 0 4 s) 0;
  m ← digitsOf (substring 5 2 s) 0;
  d ← digitsOf (substring 8 2 s) 0;
  if ((1 <=? m) && (m <=? 12) && (1 <=? d) && (d <=? 31))%Z
  then Some (daysFromCivil y m d * 86400000)%Z else None.

(** ** The code on a store

    The replay and the sale once more, with the arrays and objects of the
    JavaScript heap.  In the replay [filter] makes a new array of the same
    invoice objects, [sort] reorders that array in place, and the loop
    pushes, shifts and updates scratch objects.  In the sale the loop
    updates the batches of a copy made through JSON. *)

Module Store.

Definition loc := positive.

Inductive object :=
| InvoiceObject (inv : Invoice)
| BatchObject (b : Batch)
| LotObject (b : InventoryBatch)
| ArrayObject (items : list loc).

(** A computation on the heap; [None] is a fault. *)
Definition M (A : Type) : Type := gmap loc object -> option (A * gmap loc object).

#[global] Instance M_ret : MRet M := fun A x h => Some (x, h).

#[global] Instance M_bind : MBind M := fun A B f m h =>
  match m h with
  | Some (x, h') => f x h'
  | None => None
  end.

Definition fault {A} : M A := fun _ => None.

(** A new object. *)
Definition alloc (o : object) : M loc := fun h =>
  let l := fresh (dom h) in Some (l, <[l:=o]> h).

(** An assignment to the fields of an object or to the items of an array. *)
Definition store (l : loc) (o : object) : M unit := fun h => Some (tt, <[l:=o]> h).

Definition readInvoice (l : loc) : M Invoice := fun h =>
  match h !! l with Some (InvoiceObject inv) => Some (inv, h) | _ => None end.

Definition readBatch (l : loc) : M Batch := fun h =>
  match h !! l with Some (BatchObject b) => Some (b, h) | _ => None end.

Definition readArray (l : loc) : M (list loc) := fun h =>
  match h !! l with Some (ArrayObject items) => Some (items, h) | _ => None end.

Fixpoint filterRefs (p : Invoice -> bool) (refs : list loc) : M (list loc) :=
  match refs with
  | [] => mret []
  | r :: rest =>
      inv ← readInvoice r;
      kept ← filterRefs p rest;
      mret (if p inv then r :: kept else kept)
  end.

(** [a.filter(p)]: a new array. *)
Definition arrayFilter (p : Invoice -> bool) (a : loc) : M loc :=
  refs ← readArray a;
  kept ← filterRefs p refs;
  alloc (ArrayObject kept).

(** [a.sort(cmp)]: the array itself, reordered. *)
Definition arraySort (cmp : Invoice -> Invoice -> option Q) (a : loc) : M loc :=
  refs ← readArray a;
  invs ← mapM readInvoice refs;
  let sorted := jsSort (fun x y => cmp (snd x) (snd y)) (zip refs invs) in
  _ ← store a (ArrayObject (map fst sorted));
  mret a.

(** [a.push(r)] and [a.shift()] *)
Definition arrayPush (a r : loc) : M unit :=
  refs ← readArray a; store a (ArrayObject (refs ++ [r])).

Definition arrayShift (a : loc) : M unit :=
  refs ← readArray a; store a (ArrayObject (tail refs)).

(** The loop of a sale, for at most [fuel] turns. *)
Fixpoint saleLoop (fuel : nat) (batches : loc) (remainingToSell : Q) : M unit :=
  refs ← readArray batches;
  if Num.gtb remainingToSell (1 # 1000000) && negb (Nat.eqb (length refs) 0) then
    match fuel with
    | O => fault
    | S fuel' =>
        match refs with
        | [] => fault
        | r :: _ =>
            currentBatch ← readBatch r;
            if Num.gtb (quantity currentBatch) remainingToSell then
              _ ← store r (BatchObject
                             {| quantity := quantity currentBatch - remainingToSell;
                                cost := cost currentBatch |});
              saleLoop fuel' batches 0
            else
              _ ← arrayShift batches;
              saleLoop fuel' batches (remainingToSell - quantity currentBatch)
        end
    end
  else mret tt.

(** The body of the loop over the relevant invoices. *)
Definition replayOne (batches r : loc) : M unit :=
  inv ← readInvoice r;
  match type inv with
  | PURCHASE =>
      b ← alloc (BatchObject {| quantity := quantityGrams inv; cost := ratePerGram inv |});
      arrayPush batches b
  | SALE =>
      refs ← readArray batches;
      saleLoop (S (length refs)) batches (quantityGrams inv)
  end.

Fixpoint forEach (f : loc -> M unit) (refs : list loc) : M unit :=
  match refs with
  | [] => mret tt
  | r :: rest => _ ← f r; forEach f rest
  end.

Definition calculateInventoryValueOnDate (getTime : string -> option Z)
    (invoices : loc) (targetDate : string) : M Q :=
  filtered ← arrayFilter (fun inv => String.leb (date inv) targetDate) invoices;
  relevantInvoices ← arraySort (byDate getTime) filtered;
  batches ← alloc (ArrayObject []);
  refs ← readArray relevantInvoices;
  _ ← forEach (replayOne batches) refs;
  scratch ← readArray batches;
  bs ← mapM readBatch scratch;
  mret (batchesValue bs).

(** The sale branch of [handleAddInvoice]. *)








(** The array at [a] holds the invoices [invs]. *)
Definition invoicesAt (h : gmap loc object) (refs : list loc) (invs : list Invoice) : Prop :=
  Forall2 (fun r inv => h !! r = Some (InvoiceObject inv)) refs invs.

Definition holds (h : gmap loc object) (a : loc) (invs : list Invoice) : Prop :=
  exists refs, h !! a = Some (ArrayObject refs) /\ invoicesAt h refs invs.

(** The scratch array at [batches] holds [bs] in objects of its own, all
    of them made after [h0]. *)
Record scratchAt (h0 h : gmap loc object) (batches : loc) (bs : list Batch) : Prop := {
  sc_frame : h0 ⊆ h;
  sc_new : h0 !! batches = None;
  sc_refs : exists refs,
      h !! batches = Some (ArrayObject refs)
      /\ List.NoDup refs
      /\ ~ In batches refs
      /\ Forall (fun r => h0 !! r = None) refs
      /\ Forall2 (fun r b => h !! r = Some (BatchObject b)) refs bs
}.

End Store.

(** ** More of the application controller

    The values the controller derives from the two collections beside the
    customer statistics. *)

(** [weightedAvgCost] *)
Definition weightedAvgCost (inv : list InventoryBatch) : option Q :=
  if Num.gtb (currentStock inv) 0
  then Num.div (fifoValue inv) (currentStock inv) else Some 0.

(** [totalRevenueExTax] and [totalProfitCalc] after
    [filteredInvoices.forEach]. *)
Definition totalRevenueExTax (filteredInvoices : list Invoice) : Q :=
  fold_left (fun acc inv =>
               if isSale inv then acc + quantityGrams inv * ratePerGram inv else acc)
            filteredInvoices 0.

Definition totalProfit (filteredInvoices : list Invoice) : Q :=
  fold_left (fun acc inv =>
               if isSale inv then acc + Num.orZero (profit inv) else acc)
            filteredInvoices 0.

Definition profitMargin (filteredInvoices : list Invoice) : option Q :=
  if Num.gtb (totalRevenueExTax filteredInvoices) 0
  then q ← Num.div (totalProfit filteredInvoices) (totalRevenueExTax filteredInvoices);
       Some (q * 100)
  else Some 0.

(** ** Stock aging ([utils.ts]) *)

(** The object [buckets]: its keys ['0-7'], ['8-15'], ['16-30'] and
    ['30+'] are the fields. *)
Record Buckets := { upTo7 : Q; upTo15 : Q; upTo30 : Q; over30 : Q }.

(** [weightedAvgDays] is [None] when it is [NaN]. *)
Record AgingStats := { buckets : Buckets; weightedAvgDays : option Q }.

(** The three variables the loop updates; [totalDaysWeighted] is [None]
    once it is [NaN]. *)
Record AgingAcc := {
  agingBuckets : Buckets;
  totalDaysWeighted : option Q;
  agedStock : Q
}.

Section Aging.

Variable getTime : string -> option Z.

(** [now.getTime()] *)
Variable now : Z.

(** [Math.ceil(Math.abs(now.getTime() - batchDate.getTime()) / (1000 * 60 * 60 * 24))];
    [NaN] for an invalid date. *)
Definition diffDays (d : string) : option Q :=
  t ← getTime d;
  Some (inject_Z (Qceiling (Qabs (inject_Z (now - t)) / (1000 * 60 * 60 * 24)))).

(** [diffDays <= n], which is false for [NaN]. *)
Definition within (diff : option Q) (n : Q) : bool :=
  match diff with
  | Some d => Num.leb d n
  | None => false
  end.

Definition addToBucket (diff : option Q) (q : Q) (b : Buckets) : Buckets :=
  if within diff 7 then
    {| upTo7 := upTo7 b + q; upTo15 := upTo15 b; upTo30 := upTo30 b; over30 := over30 b |}
  else if within diff 15 then
    {| upTo7 := upTo7 b; upTo15 := upTo15 b + q; upTo30 := upTo30 b; over30 := over30 b |}
  else if within diff 30 then
    {| upTo7 := upTo7 b; upTo15 := upTo15 b; upTo30 := upTo30 b + q; over30 := over30 b |}
  else
    {| upTo7 := upTo7 b; upTo15 := upTo15 b; upTo30 := upTo30 b; over30 := over30 b + q |}.

(** The body of [inventory.forEach]. *)
Definition agingStep (acc : AgingAcc) (batch : InventoryBatch) : AgingAcc :=
  if Num.leb (remainingQuantity batch) 0 then acc else
  let diff := diffDays (batchDate batch) in
  {| agingBuckets := addToBucket diff (remainingQuantity batch) (agingBuckets acc);
     totalDaysWeighted :=
       w ← totalDaysWeighted acc; d ← diff; Some (w + d * remainingQuantity batch);
     agedStock := agedStock acc + remainingQuantity batch |}.

Definition noStock : AgingAcc :=
  {| agingBuckets := {| upTo7 := 0; upTo15 := 0; upTo30 := 0; over30 := 0 |};
     totalDaysWeighted := Some 0;
     agedStock := 0 |}.

Definition calculateStockAging (inventory : list InventoryBatch) : AgingStats :=
  let acc := fold_left agingStep inventory noStock in
  {| buckets := agingBuckets acc;
     weightedAvgDays :=
       if Num.gtb (agedStock acc) 0
       then w ← totalDaysWeighted acc; Num.div w (agedStock acc)
       else Some 0 |}.

End Aging.

(** ** The risk alerts of the controller *)

Inductive Severity := HIGH | MEDIUM | LOW.

Record RiskAlert := {
  alertId : string;
  severity : Severity;
  context : string;
  alertMessage : string
}.

Section Alerts.

(** [formatGrams] of [utils.ts], which formats through [Intl]. *)
Variable formatGrams : Q -> string.

Definition oldStock (grams : Q) : RiskAlert :=
  {| alertId := "old-stock"; severity := HIGH; context := "Inventory";
     alertMessage := formatGrams grams +:+ " of gold is older than 30 days." |}.

Definition lowMargin : RiskAlert :=
  {| alertId := "low-margin"; severity := MEDIUM; context := "Profit";
     alertMessage := "Recent sales margins are critically low (< 0.5%)." |}.

(** [invoices.filter(i => i.type === 'SALE').slice(0, 5)] *)
Definition recentSales (invoices : list Invoice) : list Invoice :=
  take 5 (List.filter isSale invoices).

(** [p / t < 0.005].  The divisor is a sum that started from [0], so a
    zero divisor is [+0]: the quotient is then [-Infinity] for a negative
    [p], and [NaN] or [Infinity] otherwise. *)
Definition belowMargin (p t : Q) : bool :=
  match Num.div p t with
  | Some recentMargin => Num.ltb recentMargin (5 # 1000)
  | None => Num.ltb p 0
  end.

(** [i.taxableAmount || 0] is the taxable amount: it is a number. *)
Definition alerts (agingStats : AgingStats) (invoices : list Invoice) : list RiskAlert :=
  let list :=
    if Num.gtb (over30 (buckets agingStats)) 0
    then [oldStock (over30 (buckets agingStats))] else [] in
  let recent := recentSales invoices in
  if Nat.ltb 0 (length recent) then
    let p := fold_left (fun acc i => acc + Num.orZero (profit i)) recent 0 in
    let t := fold_left (fun acc i => acc + taxableAmount i) recent 0 in
    if belowMargin p t then list ++ [lowMargin] else list
  else list.

End Alerts.

(** ** The analytics view *)

Module AnalyticsView.

(** [hasRate ? (currentStock * rate) - fifoValue : 0], where [rate] is the
    market rate after [parseFloat] ([None] is [NaN]) and [hasRate] says
    that it is a number and positive. *)
Definition unrealizedProfit (rate : option Q) (currentStock fifoValue : Q) : Q :=
  match rate with
  | Some r => if Num.gtb r 0 then currentStock * r - fifoValue else 0
  | None => 0
  end.

Record Slice := { sliceName : string; sliceValue : Q }.

Definition pieData (customerData : list CustomerStat) : list Slice :=
  let top := map (fun c => {| sliceName := name c; sliceValue := totalGrams c |})
                 (take 5 customerData) in
  let others := fold_left (fun acc c => acc + totalGrams c) (drop 5 customerData) 0 in
  if Num.gtb others 0
  then top ++ [{| sliceName := "Others"; sliceValue := others |}]
  else top.

End AnalyticsView.

(** ** The business ledger view *)

Module BusinessLedgerView.

Record MonthStat := { turnover : Q; monthProfit : Q; tax : Q; qty : Q }.

(** A row of [monthlyData]: [date.getTime()], [None] for an invalid date,
    and the sums of the month. *)
Record MonthRow := { monthTime : option Z; monthStat : MonthStat }.

Record Totals := {
  totalTurnover : Q;
  totalsProfit : Q;
  totalQty : Q;
  totalsMargin : Q
}.

Section BusinessLedgerView.

(** The key [`${d.getFullYear()}-${d.getMonth()}`] of the date of an
    invoice, in the time zone of the browser. *)
Variable monthKey : string -> string.

(** [new Date(parseInt(y), parseInt(m), 1).getTime()] for the two parts
    of a key. *)
Variable keyTime : string -> option Z.

Definition noSales : MonthStat := {| turnover := 0; monthProfit := 0; tax := 0; qty := 0 |}.

Definition addSale (s : MonthStat) (inv : Invoice) : MonthStat :=
  {| turnover := turnover s + totalAmount inv;
     monthProfit := monthProfit s + Num.orZero (profit inv);
     tax := tax s + gstAmount inv;
     qty := qty s + quantityGrams inv |}.

(** The body of [forEach]: the entry of the month is created when the
    month is new.  A key is two numbers and a hyphen, never the name of
    an inherited property: [stats[key]] is the entry of the month or
    [undefined]. *)
Definition monthStep (stats : JsObject.t (V := MonthStat)) (inv : Invoice)
    : JsObject.t (V := MonthStat) :=
  let key := monthKey (date inv) in
  let s :=
    match JsObject.get key stats with
    | Some s => s
    | None => noSales
    end in
  JsObject.set key (addSale s inv) stats.

Definition monthRow (e : string * MonthStat) : MonthRow :=
  {| monthTime := keyTime (fst e); monthStat := snd e |}.

(** [b.date.getTime() - a.date.getTime()] *)
Definition byMonthDesc (a b : MonthRow) : option Q :=
  tb ← monthTime b; ta ← monthTime a; Some (inject_Z (tb - ta)).

Definition monthlyData (invoices : list Invoice) : list MonthRow :=
  let stats := fold_left monthStep (List.filter isSale invoices) [] in
  jsSort byMonthDesc (map monthRow (JsObject.entries stats)).

Definition totals (invoices : list Invoice) : option Totals :=
  let sales := List.filter isSale invoices in
  let t := fold_left (fun acc inv => acc + totalAmount inv) sales 0 in
  let p := fold_left (fun acc inv => acc + Num.orZero (profit inv)) sales 0 in
  let q := fold_left (fun acc inv => acc + quantityGrams inv) sales 0 in
  m ← (if Num.gtb t 0 then r ← Num.div p t; Some (r * 100) else Some 0);
  Some {| totalTurnover := t; totalsProfit := p; totalQty := q; totalsMargin := m |}.

End BusinessLedgerView.
End BusinessLedgerView.

(** ** The transactions export and the transactions table *)

Section InvoicesExport.

Variable getTime : string -> option Z.

(** [new Date(b.date).getTime() - new Date(a.date).getTime()] *)
Definition byDateDesc (a b : Invoice) : option Q := dateDiff getTime (date b) (date a).

(** [data] of [handleInvoicesExport], and the rows of the table: the
    filtered invoices, newest first. *)
Definition invoicesExportData (filteredInvoices : list Invoice) : list Invoice :=
  jsSort byDateDesc filteredInvoices.

End InvoicesExport.

(** ** The inventory table ([InventoryTable.tsx]) *)

Module InventoryTable.
Section InventoryTable.

Variable getTime : string -> option Z.

(** The property [batches] of the component. *)
Variable batches : list InventoryBatch.

(** [parseFloat(marketRate)]; [None] is [NaN]. *)
Variable rate : option Q.

Definition activeBatches : list InventoryBatch :=
  List.filter (fun b => Num.gtb (remainingQuantity b) 0) batches.

Definition historyBatches : list InventoryBatch :=
  List.filter (fun b => Qeq_bool (remainingQuantity b) 0) batches.

Definition byBatchDateDesc (a b : InventoryBatch) : option Q :=
  dateDiff getTime (batchDate b) (batchDate a).

Definition displayedHistoryBatches : list InventoryBatch :=
  jsSort byBatchDateDesc historyBatches.

Definition totalStock : Q :=
  fold_left (fun acc b => acc + remainingQuantity b) activeBatches 0.

Definition totalValue : Q :=
  fold_left (fun acc b => acc + remainingQuantity b * costPerGram b) activeBatches 0.

Definition avgCost : option Q :=
  if Num.gtb totalStock 0 then Num.div totalValue totalStock else Some 0.

Definition totalHistoryStock : Q :=
  fold_left (fun acc b => acc + originalQuantity b) historyBatches 0.

Definition totalHistoryValue : Q :=
  fold_left (fun acc b => acc + originalQuantity b * costPerGram b) historyBatches 0.

Definition avgHistoryCost : option Q :=
  if Num.gtb totalHistoryStock 0
  then Num.div totalHistoryValue totalHistoryStock else Some 0.

Definition hasRate : bool :=
  match rate with
  | Some r => Num.gtb r 0
  | None => false
  end.

Definition estimatedSalesValue : Q :=
  match rate with
  | Some r => if Num.gtb r 0 then totalStock * r else 0
  | None => 0
  end.

Definition potentialProfit : Q :=
  if hasRate then estimatedSalesValue - totalValue else 0.

Definition roiPercentage : option Q :=
  if hasRate && Num.gtb totalValue 0
  then q ← Num.div potentialProfit totalValue; Some (q * 100)
  else Some 0.

End InventoryTable.
End InventoryTable.

(** ** More of the invoice form *)

(** What is typed into the total field: nothing, a text that [parseFloat]
    does not read, or an amount. *)
Inductive TotalInput := EmptyInput | NotANumber | Amount (total : Q).

Definition withRate (formData : FormData) (r : option Q) : FormData :=
  {| formDate := formDate formData; formType := formType formData;
     formPartyName := formPartyName formData;
     formQuantityGrams := formQuantityGrams formData;
     formRatePerGram := r;
     formGstRate := formGstRate formData |}.

(** The rate field is a string: [(total / qty).toString()] is read back
    by [parseFloat] as the same number. *)
Definition handleTotalChange (value : TotalInput) (formData : FormData) : FormData :=
  match value with
  | Amount total =>
      match formQuantityGrams formData with
      | Some qty =>
          if Num.gtb qty 0 then withRate formData (Some (total / qty)) else formData
      | None => formData
      end
  | EmptyInput => withRate formData None
  | NotANumber => formData
  end.

(** ** The date range picker ([DateRangePicker.tsx])

    The part of the state that holds the selection. *)

Module DateRangePicker.

Inductive Input := StartInput | EndInput.

Record Selection := { tempStart : string; tempEnd : string; activeInput : Input }.

(** A non-empty string is true. *)
Definition truthy (s : string) : bool := negb (String.eqb s "").

(** [dateStr] is [toLocalISO] of the day that was clicked. *)
Definition handleDayClick (dateStr : string) (s : Selection) : Selection :=
  match activeInput s with
  | StartInput =>
      if truthy (tempEnd s) && String.ltb (tempEnd s) dateStr
      then {| tempStart := dateStr; tempEnd := dateStr; activeInput := EndInput |}
      else {| tempStart := dateStr; tempEnd := tempEnd s; activeInput := EndInput |}
  | EndInput =>
      if truthy (tempStart s) && String.ltb dateStr (tempStart s)
      then {| tempStart := dateStr; tempEnd := dateStr; activeInput := activeInput s |}
      else {| tempStart := tempStart s; tempEnd := dateStr; activeInput := activeInput s |}
  end.

Definition handleManualStartChange (val : string) (s : Selection) : Selection :=
  if truthy (tempEnd s) && String.ltb (tempEnd s) val
  then {| tempStart := val; tempEnd := val; activeInput := StartInput |}
  else {| tempStart := val; tempEnd := tempEnd s; activeInput := StartInput |}.

Definition handleManualEndChange (val : string) (s : Selection) : Selection :=
  if truthy (tempStart s) && String.ltb val (tempStart s)
  then {| tempStart := val; tempEnd := val; activeInput := EndInput |}
  else {| tempStart := tempStart s; tempEnd := val; activeInput := EndInput |}.

(** What [handleDone] hands to [onChange]. *)
Definition handleDone (s : Selection) : string * string := (tempStart s, tempEnd s).

End DateRangePicker.

(** ** The code on doubles

    The stock of the dashboard, the loop and the test of a sale, the total
    field of the form and the averages of the reports once more, on the
    binary64 numbers JavaScript computes with: every operation gives the
    double nearest to its exact result.  Of a batch the loop of a sale
    needs the remaining quantity and the cost, and says whether it closed
    the batch. *)

Module Double.

#[local] Set Warnings "-inexact-float".
#[local] Open Scope float_scope.

(** The number a finite double stands for. *)
Definition toQ (x : float) : Q :=
  match Prim2SF x with
  | S754_finite s m e =>
      ((if s then -1 else 1) * (inject_Z (Zpos m) * Qpower 2 e))%Q
  | _ => 0%Q
  end.

(** [Math.min] and [Math.max] of two numbers. *)
Definition min (x y : float) : float := if x <? y then x else y.
Definition max (x y : float) : float := if x <? y then y else x.

Record InventoryBatch := {
  remainingQuantity : float;
  costPerGram : float;
  closed : bool
}.

(** [currentStock] *)
Definition currentStock (inventory : list InventoryBatch) : float :=
  fold_left (fun acc batch => acc + remainingQuantity batch) inventory 0.

(** [for (const batch of newInventory) { ... }] *)
Fixpoint allocate (newInventory : list InventoryBatch) (remainingToSell totalCOGS : float)
    : list InventoryBatch * float * float :=
  match newInventory with
  | [] => ([], remainingToSell, totalCOGS)
  | batch :: rest =>
      if remainingToSell <=? 0 then (newInventory, remainingToSell, totalCOGS)
      else if 0 <? remainingQuantity batch then
        let take := min (remainingQuantity batch) remainingToSell in
        let remaining := remainingQuantity batch - take in
        let batch' :=
          if remaining <? 0.0001
          then {| remainingQuantity := 0; costPerGram := costPerGram batch;
                  closed := true |}
          else {| remainingQuantity := remaining; costPerGram := costPerGram batch;
                  closed := closed batch |} in
        let '(rest', r, c) :=
          allocate rest (remainingToSell - take) (totalCOGS + take * costPerGram batch) in
        (batch' :: rest', r, c)
      else
        let '(rest', r, c) := allocate rest remainingToSell totalCOGS in
        (batch :: rest', r, c)
  end.

(** The sale branch of [handleAddInvoice]: [None] when the sale is
    rejected, else the new inventory and the cost of the sale. *)
Definition handleAddInvoice (inventory : list InventoryBatch) (quantityGrams : float)
    : option (list InventoryBatch * float) :=
  let '(newInventory, remainingToSell, totalCOGS) := allocate inventory quantityGrams 0 in
  if 0.001 <? remainingToSell then None else Some (newInventory, totalCOGS).

(** [taxable] of [calculateTotals] after [handleTotalChange] has set the
    rate for a total, with a positive quantity in the form. *)
Definition handleTotalChange (total qty : float) : float :=
  let rate := total / qty in qty * rate.

(** [minRate], [avgRate] and [maxRate] of a supplier with the purchases
    [(quantityGrams, ratePerGram)]. *)
Definition supplierRow (purchases : list (float * float)) : float * float * float :=
  let totalGrams := fold_left (fun acc p => acc + fst p) purchases 0 in
  let totalCost := fold_left (fun acc p => acc + fst p * snd p) purchases 0 in
  let minRate := fold_left (fun acc p => min acc (snd p)) purchases infinity in
  let maxRate := fold_left (fun acc p => max acc (snd p)) purchases neg_infinity in
  let avgRate := if 0 <? totalGrams then totalCost / totalGrams else 0 in
  (minRate, avgRate, maxRate).

(** [weightedAvgDays] of lots with stock, given as [(remainingQuantity,
    diffDays)]. *)
Definition weightedAvgDays (lots : list (float * float)) : float :=
  let totalDaysWeighted := fold_left (fun acc l => acc + snd l * fst l) lots 0 in
  let totalStock := fold_left (fun acc l => acc + fst l) lots 0 in
  if 0 <? totalStock then totalDaysWeighted / totalStock else 0.

(** [recentMargin < 0.005] of the alerts, for the sums of the profits and
    of the taxable amounts. *)
Definition belowMargin (p t : float) : bool := p / t <? 0.005.

(** [avgCost] and [roiPercentage] of the inventory table for lots with
    stock and a market rate that is a positive number. *)
Definition totalStock (batches : list InventoryBatch) : float :=
  fold_left (fun acc b => acc + remainingQuantity b) batches 0.

Definition totalValue (batches : list InventoryBatch) : float :=
  fold_left (fun acc b => acc + remainingQuantity b * costPerGram b) batches 0.

Definition avgCost (batches : list InventoryBatch) : float :=
  if 0 <? totalStock batches then totalValue batches / totalStock batches else 0.

Definition roiPercentage (batches : list InventoryBatch) (rate : float) : float :=
  let estimatedSalesValue := totalStock batches * rate in
  let potentialProfit := estimatedSalesValue - totalValue batches in
  if 0 <? totalValue batches then potentialProfit / totalValue batches * 100 else 0.

End Double.

(** ** Vocabulary of the properties *)

(** The margin of the rounding.  The code computes with doubles, and an
    operation on doubles gives its exact result rounded, by less than one
    part in [2^52].  A theorem that compares a result of the code with a
    threshold or a bound keeps a margin of one part in [10^9] of the
    numbers it compares, which the rounding of the operations behind a
    result, fewer than a million, does not reach. *)
Definition slack : Q := 1 # 1000000000.

Definition Qsum (l : list Q) : Q := fold_right Qplus 0 l.

(** The length of a list as a number. *)
Definition Qlength {A} (l : list A) : Q := inject_Z (Z.of_nat (length l)).

(** No batch has a negative remaining quantity. *)
Definition stocked (inv : list InventoryBatch) : Prop :=
  Forall (fun b => 0 <= remainingQuantity b) inv.

(** A batch without stock, as the inventory export labels it. *)
Definition isClosed (b : InventoryBatch) : bool := negb (Num.gtb (remainingQuantity b) 0).

Definition closedCount (inv : list InventoryBatch) : Q :=
  Qsum (map (fun b => if isClosed b then 1 else 0) inv).

Definition remainingOf (inv : list InventoryBatch) : list Q := map remainingQuantity inv.

(** What a sale may do to a batch. *)
Record drawn (b b' : InventoryBatch) : Prop := {
  drawn_id : batchId b' = batchId b;
  drawn_date : batchDate b' = batchDate b;
  drawn_original : originalQuantity b' = originalQuantity b;
  drawn_cost : costPerGram b' = costPerGram b;
  drawn_lower : 0 <= remainingQuantity b';
  drawn_upper : remainingQuantity b' <= remainingQuantity b
}.

(** A batch after a sale that takes all of its stock. *)
Definition drain (i : Invoice) (b : InventoryBatch) : InventoryBatch :=
  if Num.gtb (remainingQuantity b) 0 then
    {| batchId := batchId b;
       batchDate := batchDate b;
       originalQuantity := originalQuantity b;
       remainingQuantity := 0;
       costPerGram := costPerGram b;
       closedDate := Some (date i);
       totalRevenue :=
         Some (Num.orZero (totalRevenue b) + remainingQuantity b * ratePerGram i) |}
  else b.

(** Each batch holds between nothing and what was bought. *)
Definition bounded (inv : list InventoryBatch) : Prop :=
  Forall (fun b => 0 <= remainingQuantity b <= originalQuantity b) inv.

(** The quantities of the conservation law. *)
Definition purchased (st : AppState) : Q := Qsum (map originalQuantity (inventory st)).
Definition sold (st : AppState) : Q :=
  Qsum (map quantityGrams (List.filter isSale (invoices st))).
Definition onHand (st : AppState) : Q := Qsum (remainingOf (inventory st)).
Definition drift (st : AppState) : Q := purchased st - sold st - onHand st.

(** The invariant of the ledger. *)
Record ledgerInv (st : AppState) : Prop := {
  inv_bounded : bounded (inventory st);
  inv_lower : - (1 # 1000) * Qlength (List.filter isSale (invoices st)) <= drift st;
  inv_upper : drift st <= (1 # 10000) * closedCount (inventory st)
}.

(** The loop of a sale by recursion on the scratch list. *)
Fixpoint consume (remainingToSell : Q) (batches : list Batch) : Q * list Batch :=
  match batches with
  | [] => (remainingToSell, [])
  | b :: rest =>
      if Num.gtb remainingToSell (1 # 1000000) then
        if Num.gtb (quantity b) remainingToSell
        then (0, {| quantity := quantity b - remainingToSell; cost := cost b |} :: rest)
        else consume (remainingToSell - quantity b) rest
      else (remainingToSell, batches)
  end.

(** The body of the loop over the relevant invoices. *)
Definition sellFrom (batches : list Batch) (inv : Invoice) : list Batch :=
  match type inv with
  | PURCHASE => batches ++ [{| quantity := quantityGrams inv; cost := ratePerGram inv |}]
  | SALE => snd (consume (quantityGrams inv) batches)
  end.

(** The scratch pairs and the entries of the replay are non-negative. *)
Definition scratchOK (batches : list Batch) : Prop :=
  Forall (fun b => 0 <= quantity b /\ 0 <= cost b) batches.

Definition entryOK (inv : Invoice) : Prop :=
  0 <= quantityGrams inv /\ 0 <= ratePerGram inv.

(** An invoice of the data model: no negative quantity, rate or cost. *)
Definition validInvoice (i : Invoice) : Prop :=
  0 <= quantityGrams i /\ 0 <= ratePerGram i /\ 0 <= Num.orZero (cogs i).

(** The sales of a period.  The dates of the invoices and of the range
    are strings, and [d1] is before [d2] when it precedes it in the order
    of strings, which for dates written [YYYY-MM-DD] is the order of the
    days.  A sale lies in the range when its date is not before the start
    and the end is not before its date. *)
Definition before (d1 d2 : string) : Prop := String.compare d1 d2 = Lt.

Definition saleInRange (startDate endDate : string) (i : Invoice) : Prop :=
  type i = SALE /\ ~ before (date i) startDate /\ ~ before endDate (date i).

#[global] Instance TransactionType_eq_dec : EqDecision TransactionType.
Proof. solve_decision. Defined.

#[global] Instance saleInRange_dec startDate endDate i :
  Decision (saleInRange startDate endDate i).
Proof. unfold saleInRange, before. solve_decision. Defined.

(** The cost of the goods sold in a period: the costs of the sales in the
    range, added up. *)
Definition cogsInPeriod (invoices : list Invoice) (startDate endDate : string) : Q :=
  Qsum (map (fun s => Num.orZero (cogs s))
            (List.filter (fun i => bool_decide (saleInRange startDate endDate i))
                         invoices)).

(** The days of a range given by two timestamps, at least one. *)
Definition daysInRange (tStart tEnd : Z) : Q :=
  Qmax 1 (inject_Z (tEnd - tStart) / (1000 * 3600 * 24)).

(** [d1] is a valid date before the valid date [d2]. *)
Definition earlier (getTime : string -> option Z) (d1 d2 : string) : bool :=
  match getTime d1, getTime d2 with
  | Some t1, Some t2 => (t1 <? t2)%Z
  | _, _ => false
  end.

(** Every invoice is dated after the ones submitted before it. *)
Definition chronological (getTime : string -> option Z) (ops : list Invoice) : Prop :=
  StronglySorted (fun a b => earlier getTime (date a) (date b) = true) ops.

(** A whole number of milligrams. *)
Definition milligrams (q : Q) : Prop := exists k : Z, q == k # 1000.

(** An entry of a positive whole number of milligrams. *)
Definition gridEntry (i : Invoice) : Prop :=
  0 < quantityGrams i /\ milligrams (quantityGrams i).

(** Every batch holds a whole number of milligrams. *)
Definition gridInventory (inv : list InventoryBatch) : Prop :=
  Forall (fun b => 0 <= remainingQuantity b /\ milligrams (remainingQuantity b)) inv.

(** The batches with stock. *)
Definition openLots (inv : list InventoryBatch) : list InventoryBatch :=
  List.filter (fun b => Num.gtb (remainingQuantity b) 0) inv.

(** The scratch pairs are the batches with stock. *)
Definition mirrors (inv : list InventoryBatch) (bs : list Batch) : Prop :=
  Forall2 (fun b s => quantity s == remainingQuantity b /\ cost s == costPerGram b)
          (openLots inv) bs.

(** The invariant that ties the replay to the live ledger, for invoices
    submitted in the order of their dates. *)
Record replayInv (getTime : string -> option Z) (today : string)
    (ops : list Invoice) (st : AppState) : Prop := {
  ri_grid : gridInventory (inventory st);
  ri_mirror : mirrors (inventory st) (fold_left sellFrom (rev (invoices st)) []);
  ri_desc : StronglySorted (fun a b => earlier getTime (date b) (date a) = true)
                           (invoices st);
  ri_asc : StronglySorted (fun a b => earlier getTime (batchDate a) (batchDate b) = true)
                          (inventory st);
  ri_dates : Forall (fun a => exists o, In o ops /\ date a = date o) (invoices st);
  ri_batches : Forall (fun b => exists o, In o ops /\ batchDate b = date o) (inventory st);
  ri_today : Forall (fun a => String.leb (date a) today = true) (invoices st)
}.

(** The purchases behind an entry of the supplier statistics: pairs of a
    quantity and a rate. *)
Definition tallies (pairs : list (Q * Q)) (data : SupplierAcc) : Prop :=
  Forall (fun p => 0 < fst p) pairs
  /\ rates data = map snd pairs
  /\ accGrams data == Qsum (map fst pairs)
  /\ accCost data == Qsum (map (fun p => fst p * snd p) pairs).

(** An entry with at least one purchase behind it. *)
Definition tallied (data : SupplierAcc) : Prop :=
  exists pairs, pairs <> [] /\ tallies pairs data.

(** The invoices of a party, and what the sales among them add up to. *)
Definition ofParty (n : string) (invs : list Invoice) : list Invoice :=
  List.filter (fun i => String.eqb n (partyName i)) invs.

Definition partyCount (n : string) (invs : list Invoice) : Q := Qlength (ofParty n invs).

Definition partySales (n : string) (invs : list Invoice) : list Invoice :=
  List.filter isSale (ofParty n invs).

Definition partyGrams (n : string) (invs : list Invoice) : Q :=
  Qsum (map quantityGrams (partySales n invs)).

Definition partySpend (n : string) (invs : list Invoice) : Q :=
  Qsum (map totalAmount (partySales n invs)).

Definition partyProfit (n : string) (invs : list Invoice) : Q :=
  Qsum (map (fun i => Num.orZero (profit i)) (partySales n invs)).

(** [stat] is [base] with the invoices of party [n] in [l] added. *)
Record gathers (n : string) (base : CustomerStat) (l : list Invoice)
    (stat : CustomerStat) : Prop := {
  g_name : name stat = name base;
  g_count : txCount stat == txCount base + partyCount n l;
  g_grams : totalGrams stat == totalGrams base + partyGrams n l;
  g_spend : totalSpend stat == totalSpend base + partySpend n l;
  g_profit : profitContribution stat == profitContribution base + partyProfit n l
}.

(** The steps of the two loops over the parties for a party whose name is
    not an inherited property: the entry is the one there is, or a new
    one, with the invoice added. *)
Definition customerEntry (customerStats : JsObject.t (V := CustomerStat))
    (inv : Invoice) : JsObject.t (V := CustomerStat) :=
  let stat :=
    match JsObject.get (partyName inv) customerStats with
    | Some stat => stat
    | None => emptyCustomer (partyName inv)
    end in
  JsObject.set (partyName inv) (tally stat inv) customerStats.

Definition supplierEntry (stats : JsObject.t (V := SupplierAcc)) (inv : Invoice)
    : JsObject.t (V := SupplierAcc) :=
  let data :=
    match JsObject.get (partyName inv) stats with
    | Some data => data
    | None => noPurchase
    end in
  JsObject.set (partyName inv) (addPurchase data inv) stats.

(** The name of the party is not an inherited property. *)
Definition ownName (inv : Invoice) : bool := negb (JsObject.inherited (partyName inv)).

(** No key of the object is an inherited property. *)
Definition ownKeys {V} (o : JsObject.t (V := V)) : Prop :=
  Forall (fun e => JsObject.inherited (fst e) = false) o.

(** The entry of party [k] after one more invoice. *)
Definition entryStep (k : string) (entry : option CustomerStat) (inv : Invoice)
    : option CustomerStat :=
  if String.eqb k (partyName inv)
  then Some (tally (default (emptyCustomer k) entry) inv)
  else entry.

(** ** The claims as the specification states them *)

(** Replay consistency: the replay at [today] gives the value of the live
    lots, within the tolerance. *)
Definition replayConsistent (getTime : string -> option Z) (today : string)
    (ops : list Invoice) : Prop :=
  let st := runLedger getTime initialState ops in
  exists v, calculateInventoryValueOnDate getTime (invoices st) today = Some v
            /\ Qabs (v - fifoValue (inventory st)) <= 1 # 1000.

(** Conservation within the tolerance. *)
Definition conserved (st : AppState) : Prop := Qabs (drift st) <= 1 # 1000.

(** Every lot is empty and closed on [d]. *)
Definition allClosedOn (d : string) (inv : list InventoryBatch) : Prop :=
  Forall (fun b => remainingQuantity b == 0 /\ closedDate b = Some d) inv.

(** A sale of more than the scratch pairs hold empties the list. *)
Definition emptiesOnExcess (batches : list Batch) (sale : Invoice) : Prop :=
  Qsum (map quantity batches) < quantityGrams sale -> replayStep batches sale = Some [].

(** The tag of a customer from the sales alone. *)
Definition claimedPattern (n : string) (invs : list Invoice) : string :=
  let sales := partySales n invs in
  let avgGrams := partyGrams n invs / Qlength sales in
  let base :=
    if Num.gtb avgGrams 100 then "Bulk Buyer"
    else if Num.gtb (Qlength sales) 5 then "Frequent"
    else "Regular" in
  base +:+ patternSuffix (partyProfit n invs / partySpend n invs * 100).

(** The same of the code on doubles, for the numbers the doubles stand
    for: a sale of more than the stock and the tolerance is rejected, a
    sale of more than the stock by at most the tolerance is committed, and
    the average rate of a supplier lies between the least and the greatest
    rate. *)
Definition stockOf (inventory : list Double.InventoryBatch) : Q :=
  Qsum (map (fun b => Double.toQ (Double.remainingQuantity b)) inventory).


Definition commitsWithinTolerance (inventory : list Double.InventoryBatch)
    (quantityGrams : float) : Prop :=
  stockOf inventory < Double.toQ quantityGrams ->
  Double.toQ quantityGrams <= stockOf inventory + (1 # 1000) ->
  is_Some (Double.handleAddInvoice inventory quantityGrams).

Definition bracketsAverage (purchases : list (float * float)) : Prop :=
  let '(minRate, avgRate, maxRate) := Double.supplierRow purchases in
  Double.toQ minRate <= Double.toQ avgRate <= Double.toQ maxRate.

(** ** Scenarios *)

Module Scenario.

(** An invoice as the form submits it, with 3% GST. *)
Definition mk (i d : string) (t : TransactionType) (p : string) (q r : Q) : Invoice :=
  {| id := i; date := d; type := t; partyName := p;
     quantityGrams := q; ratePerGram := r; gstRate := Some 3;
     gstAmount := q * r * (3 / 100); taxableAmount := q * r;
     totalAmount := q * r + q * r * (3 / 100);
     cogs := None; profit := None |}.

Definition day (n : string) : string := ("2024-01-" ++ n)%string.

Definition ledger (ops : list Invoice) : AppState := runLedger isoTime initialState ops.

(** Two purchases, then a sale that needs both lots. *)
Definition twoLots : AppState :=
  ledger [ mk "p1" (day "01") PURCHASE "Mint" 50 6000;
           mk "p2" (day "03") PURCHASE "Mint" 50 6200 ].

Definition sale60 : Invoice := mk "s1" (day "05") SALE "Asha" 60 6500.

Definition inOrder : list Invoice :=
  [ mk "p1" (day "01") PURCHASE "Mint" 50 6000;
    mk "p2" (day "03") PURCHASE "Mint" 50 6200;
    sale60 ].

(** One purchase, then a sale of a part of it. *)
Definition oneLot : AppState := ledger [ mk "p1" (day "01") PURCHASE "Mint" 100 6000 ].

Definition sale40 : Invoice := mk "s1" (day "02") SALE "Asha" 40 6500.

Definition sale30 : Invoice := mk "s1" (day "10") SALE "Asha" 30 6500.

Definition sale10 : Invoice := mk "s1" (day "02") SALE "Asha" 10 6500.


(** A purchase entered after a sale and dated before it. *)
Definition backdated : list Invoice :=
  [ mk "p1" (day "03") PURCHASE "Mint" 100 6000;
    mk "s1" (day "05") SALE "Asha" 60 6500;
    mk "p2" (day "01") PURCHASE "Mint" 50 5000 ].

(** A purchase and a sale of the same day. *)
Definition sameDay : list Invoice :=
  [ mk "p1" (day "01") PURCHASE "Mint" 100 6000;
    mk "s1" (day "01") SALE "Asha" 50 6500 ].

(** Two sales within the tolerance of an empty stock. *)
Definition oversold : list Invoice :=
  [ mk "p1" (day "01") PURCHASE "Mint" 10 6000;
    mk "s1" (day "02") SALE "Asha" (10001 # 1000) 6500;
    mk "s2" (day "03") SALE "Asha" (1 # 1000) 6500 ].

(** A ledger with a lot that an earlier sale has closed, and a sale of
    half a milligram more than the stock. *)
Definition oneClosed : AppState :=
  ledger [ mk "p1" (day "01") PURCHASE "Mint" 5 6000;
           mk "p2" (day "03") PURCHASE "Mint" 10 6200;
           mk "s1" (day "04") SALE "Asha" 5 6500 ].

Definition lastSale : Invoice := mk "s2" (day "05") SALE "Asha" (100005 # 10000) 6500.

(** A purchase and a sale of less than the margin of the replay. *)
Definition dustPurchase : Invoice :=
  mk "p1" (day "01") PURCHASE "Mint" (1 # 10000000) 6000.

Definition dustSale : Invoice := mk "s1" (day "02") SALE "Asha" (5 # 10000000) 6500.

(** A party with five purchases and one sale, as the ledger keeps them. *)
Definition trader : list Invoice :=
  invoices (ledger [ mk "p1" (day "01") PURCHASE "Kiran" 10 6000;
                     mk "p2" (day "02") PURCHASE "Kiran" 10 6000;
                     mk "p3" (day "03") PURCHASE "Kiran" 10 6000;
                     mk "p4" (day "04") PURCHASE "Kiran" 10 6000;
                     mk "p5" (day "05") PURCHASE "Kiran" 10 6000;
                     mk "s1" (day "06") SALE "Kiran" 10 6500 ]).

(** A heap with the invoices of [inOrder] after the sale, newest first. *)
Definition heapInvoices : list Invoice := invoices (ledger inOrder).

Definition heap : gmap Store.loc Store.object :=
  list_to_map
    [ (1%positive, Store.ArrayObject [2; 3; 4]%positive);
      (2%positive, Store.InvoiceObject (nth 0 heapInvoices sale60));
      (3%positive, Store.InvoiceObject (nth 1 heapInvoices sale60));
      (4%positive, Store.InvoiceObject (nth 2 heapInvoices sale60)) ].

End Scenario.

(** ** Scenarios on doubles *)

Module Rounding.

#[local] Set Warnings "-inexact-float".
#[local] Open Scope float_scope.

Definition lot (q c : float) : Double.InventoryBatch :=
  {| Double.remainingQuantity := q; Double.costPerGram := c; Double.closed := false |}.

(** [0.001] and [0.005] as the code writes them. *)
Definition tolerance : float := 0.001.
Definition halfPercent : float := 0.005.



(** Three lots of 342.072g in all, and a sale of 342.073g. *)
Definition threeLots : list Double.InventoryBatch :=
  [lot 88.785 6000; lot 101.002 6000; lot 152.285 6000].

Definition sale342 : float := 342.073.

(** A supplier with one purchase of 3g, at 6000.1 and at 6000.01. *)
Definition dearPurchase : list (float * float) := [(3, 6000.1)].
Definition cheapPurchase : list (float * float) := [(3, 6000.01)].

(** A total of 250000 for 7g. *)
Definition total : float := 250000.
Definition sevenGrams : float := 7.

(** A lot of 0.1g that is 3 days old. *)
Definition youngLot : list (float * float) := [(0.1, 3)].

(** Profits of 6.85 on taxable amounts of 1370, and of 16.47 on 3294:
    0.5% on paper. *)
Definition profit685 : float := 6.85.
Definition taxable1370 : float := 1370.
Definition profit1647 : float := 16.47.
Definition taxable3294 : float := 3294.

(** A lot of 3g at 6000.01, and that cost as the market rate. *)
Definition cheapLot : list Double.InventoryBatch := [lot 3 6000.01].
Definition cheapRate : float := 6000.01.

End Rounding.

(** ** More vocabulary *)

(** What a lot keeps of the purchase it came from, and the same of a
    purchase. *)
Definition lotKey (b : InventoryBatch) : string * string * Q * Q :=
  (batchId b, batchDate b, originalQuantity b, costPerGram b).

Definition purchaseKey (i : Invoice) : string * string * Q * Q :=
  (id i, date i, quantityGrams i, ratePerGram i).

(** [d1] and [d2] are valid dates, and [d1] is not after [d2]. *)
Definition notAfter (getTime : string -> option Z) (d1 d2 : string) : bool :=
  match getTime d1, getTime d2 with
  | Some t1, Some t2 => (t1 <=? t2)%Z
  | _, _ => false
  end.

(** The revenue credited to the lots. *)
Definition lotRevenue (inv : list InventoryBatch) : Q :=
  Qsum (map (fun b => Num.orZero (totalRevenue b)) inv).

(** A lot is open with stock, or empty and closed on the date of a sale
    among [sales]. *)
Definition openOrClosed (sales : list Invoice) (b : InventoryBatch) : Prop :=
  (closedDate b = None /\ 0 < remainingQuantity b)
  \/ (remainingQuantity b = 0
      /\ exists s, In s sales /\ isSale s = true /\ closedDate b = Some (date s)).

(** A sale as the ledger keeps it: with its cost and its profit. *)
Definition costed (i : Invoice) : Prop :=
  isSale i = true ->
  exists c, cogs i = Some c
            /\ profit i = Some (quantityGrams i * ratePerGram i - c).

(** The time of a valid date as a number. *)
Definition timeOf (getTime : string -> option Z) (d : string) : Q :=
  inject_Z (default 0%Z (getTime d)).

(** The stock of the lots with stock that [p] selects. *)
Definition stockWhere (p : InventoryBatch -> bool) (inv : list InventoryBatch) : Q :=
  Qsum (remainingOf (List.filter p (openLots inv))).

(** The age of a lot in days, as the aging report computes it. *)
Definition lotAge (getTime : string -> option Z) (now : Z) (b : InventoryBatch)
    : option Q :=
  diffDays getTime now (batchDate b).

(** The selection of the date range picker is not inverted: an end is
    missing, or the start is not after the end. *)
Definition orderedRange (s : DateRangePicker.Selection) : Prop :=
  DateRangePicker.tempStart s = ""%string
  \/ DateRangePicker.tempEnd s = ""%string
  \/ String.leb (DateRangePicker.tempStart s) (DateRangePicker.tempEnd s) = true.


(** ** More scenarios *)

Module Sample.

(** Midnight of 2024-01-10, for [now]. *)
Definition today : Z := (daysFromCivil 2024 1 10 * 86400000)%Z.

(** The form filled in for the sale of 60g of the first scenario. *)
Definition saleForm : FormData :=
  {| formDate := Scenario.day "05"; formType := SALE; formPartyName := "Asha";
     formQuantityGrams := Some 60; formRatePerGram := Some 6500; formGstRate := Some 3 |}.

(** The form of a purchase with the GST field left empty, and the
    invoice the form makes of it. *)
Definition untaxedForm : FormData :=
  {| formDate := Scenario.day "06"; formType := PURCHASE; formPartyName := "Mint";
     formQuantityGrams := Some 10; formRatePerGram := Some 6100; formGstRate := None |}.

Definition untaxed : Invoice :=
  {| id := "p3"; date := Scenario.day "06"; type := PURCHASE; partyName := "Mint";
     quantityGrams := 10; ratePerGram := 6100; gstRate := None;
     gstAmount := 10 * 6100 * (0 / 100); taxableAmount := 10 * 6100;
     totalAmount := 10 * 6100 + 10 * 6100 * (0 / 100);
     cogs := None; profit := None |}.

(** The ledger after the three invoices of the first scenario. *)
Definition afterSale : AppState := Scenario.ledger Scenario.inOrder.

(** A lot whose date is not a date. *)
Definition undated : InventoryBatch :=
  newBatch (Scenario.mk "p9" "soon" PURCHASE "Mint" 5 6000).

(** A stand-in for [formatGrams]. *)
Definition grams (q : Q) : string := "some".

(** A purchase from a party, and a ledger with a sale to a party, whose
    name is a property every object inherits. *)
Definition inheritedPurchase : Invoice :=
  Scenario.mk "p4" (Scenario.day "07") PURCHASE "toString" 10 6000.

Definition inheritedSale : list Invoice :=
  invoices (Scenario.ledger
              [ Scenario.mk "p1" (Scenario.day "01") PURCHASE "Mint" 100 6000;
                Scenario.mk "s1" (Scenario.day "02") SALE "toString" 10 6500;
                Scenario.mk "s2" (Scenario.day "03") SALE "Asha" 20 6500 ]).

(** The customer table of the first scenario. *)
Definition customers : list CustomerStat :=
  default [] (customerData (invoices afterSale)).

End Sample.

(** * Properties *)

(** ** Numbers *)

Module NumFacts.

Lemma gtb_true x y : Num.gtb x y = true <-> y < x.
Proof.
  unfold Num.gtb. rewrite negb_true_iff, <- not_true_iff_false, Qle_bool_iff.
  split; intros H; [apply Qnot_le_lt | apply Qlt_not_le]; exact H.
Qed.

Lemma gtb_false x y : Num.gtb x y = false <-> x <= y.
Proof. unfold Num.gtb. rewrite negb_false_iff. apply Qle_bool_iff. Qed.

Lemma ltb_true x y : Num.ltb x y = true <-> x < y.
Proof. apply gtb_true. Qed.

Lemma ltb_false x y : Num.ltb x y = false <-> y <= x.
Proof. apply gtb_false. Qed.

Lemma leb_true x y : Num.leb x y = true <-> x <= y.
Proof. apply Qle_bool_iff. Qed.

Lemma leb_false x y : Num.leb x y = false <-> y < x.
Proof.
  unfold Num.leb. rewrite <- not_true_iff_false, Qle_bool_iff.
  split; intros H; [apply Qnot_le_lt | apply Qlt_not_le]; exact H.
Qed.

Lemma div_Some x y : ~ y == 0 -> Num.div x y = Some (x / y).
Proof.
  intros H. unfold Num.div. destruct (Qeq_bool y 0) eqn:E; [|reflexivity].
  apply Qeq_bool_iff in E. contradiction.
Qed.

End NumFacts.

(** Case analysis on the tests of the code, with the order facts in the
    context. *)
Ltac num_case c :=
  let E := fresh "E" in
  destruct c eqn:E;
  [ first [ apply NumFacts.gtb_true in E | apply NumFacts.ltb_true in E
          | apply NumFacts.leb_true in E ]
  | first [ apply NumFacts.gtb_false in E | apply NumFacts.ltb_false in E
          | apply NumFacts.leb_false in E ] ].

(** ** Sums *)

Lemma fold_left_Qsum {A} (f : A -> Q) (l : list A) (a : Q) :
  fold_left (fun acc x => acc + f x) l a == a + Qsum (map f l).
Proof.
  revert a. induction l as [|x l IH]; intros a; simpl.
  - lra.
  - rewrite IH. lra.
Qed.

Lemma Qsum_app l1 l2 : Qsum (l1 ++ l2) == Qsum l1 + Qsum l2.
Proof. induction l1 as [|x l1 IH]; simpl; [lra | rewrite IH; lra]. Qed.

Lemma Qsum_perm l1 l2 : Permutation l1 l2 -> Qsum l1 == Qsum l2.
Proof.
  induction 1 as [|x l1 l2 _ IH|x y l|l1 l2 l3 _ IH1 _ IH2]; simpl.
  - reflexivity.
  - rewrite IH. reflexivity.
  - lra.
  - rewrite IH1. exact IH2.
Qed.

Lemma Qsum_nonneg l : Forall (fun x => 0 <= x) l -> 0 <= Qsum l.
Proof. induction 1 as [|x l Hx _ IH]; simpl; lra. Qed.

Section SortFacts.
Context {A : Type} (cmp : A -> A -> option Q).

Lemma insertSorted_perm x l : Permutation (insertSorted cmp x l) (x :: l).
Proof.
  induction l as [|y l IH]; simpl; [reflexivity|].
  destruct (after cmp y x); [reflexivity|].
  rewrite IH. apply perm_swap.
Qed.

Lemma fold_insert_perm l acc :
  Permutation (fold_left (fun acc x => insertSorted cmp x acc) l acc) (acc ++ l).
Proof.
  revert acc. induction l as [|x l IH]; intros acc; simpl.
  - rewrite app_nil_r. reflexivity.
  - rewrite IH, insertSorted_perm. apply Permutation_middle.
Qed.

Lemma jsSort_perm l : Permutation (jsSort cmp l) l.
Proof. unfold jsSort. rewrite fold_insert_perm. reflexivity. Qed.

Lemma jsSort_snoc l x : jsSort cmp (l ++ [x]) = insertSorted cmp x (jsSort cmp l).
Proof. unfold jsSort. rewrite fold_left_app. reflexivity. Qed.

(** An element that nothing has to come after goes to the end. *)
Lemma insertSorted_last x l :
  Forall (fun y => after cmp y x = false) l -> insertSorted cmp x l = l ++ [x].
Proof.
  induction 1 as [|y l Hy _ IH]; simpl; [reflexivity|].
  rewrite Hy, IH. reflexivity.
Qed.

(** An element that the head has to come after goes to the front. *)
Lemma insertSorted_first x y l :
  after cmp y x = true -> insertSorted cmp x (y :: l) = x :: y :: l.
Proof. intros H. simpl. rewrite H. reflexivity. Qed.

(** A list in which no element has to come after a later one is left as
    it is. *)
Lemma jsSort_id l :
  StronglySorted (fun a b => after cmp a b = false) l -> jsSort cmp l = l.
Proof.
  induction l as [|x l IH] using rev_ind; intros Hs; [reflexivity|].
  rewrite jsSort_snoc.
  assert (StronglySorted (fun a b => after cmp a b = false) l
          /\ Forall (fun y => after cmp y x = false) l) as [Hl Hx].
  { clear IH. induction l as [|y l IH]; simpl in *.
    - split; constructor.
    - inversion Hs as [|? ? Hs' Hall]; subst.
      destruct (IH Hs') as [H1 H2].
      apply Forall_app in Hall as [Hall1 Hall2].
      split; constructor; auto.
      inversion Hall2; auto. }
  rewrite (IH Hl). apply insertSorted_last, Hx.
Qed.

(** A list in which every element has to come after all later ones is
    reversed. *)
Lemma fold_insert_rev l acc :
  StronglySorted (fun a b => after cmp a b = true) (rev acc ++ l) ->
  fold_left (fun acc x => insertSorted cmp x acc) l acc = rev l ++ acc.
Proof.
  revert acc. induction l as [|x l IH]; intros acc Hs; simpl; [reflexivity|].
  assert (insertSorted cmp x acc = x :: acc) as ->.
  { destruct acc as [|y acc]; [reflexivity|].
    apply insertSorted_first.
    simpl in Hs. rewrite <- app_assoc in Hs. simpl in Hs.
    clear IH. induction (rev acc) as [|z r IHr]; simpl in Hs.
    - inversion Hs as [|? ? _ Hall]; subst. inversion Hall; auto.
    - inversion Hs; auto. }
  rewrite IH.
  - rewrite <- app_assoc. reflexivity.
  - simpl. rewrite <- app_assoc. exact Hs.
Qed.

Lemma jsSort_rev l :
  StronglySorted (fun a b => after cmp a b = true) l -> jsSort cmp l = rev l.
Proof.
  intros H. unfold jsSort. rewrite fold_insert_rev; [apply app_nil_r | exact H].
Qed.

End SortFacts.

(** ** The allocation loop *)

Lemma Qmin_l_eq x y : x <= y -> Qmin x y = x.
Proof.
  intros H. unfold Qmin, GenericMinMax.gmin.
  destruct (x ?= y) eqn:E; try reflexivity.
  apply Qgt_alt in E. lra.
Qed.

Lemma Qmin_r_eq x y : y < x -> Qmin x y = y.
Proof.
  intros H. unfold Qmin, GenericMinMax.gmin.
  destruct (x ?= y) eqn:E; try reflexivity.
  - apply Qeq_alt in E. lra.
  - apply Qlt_alt in E. lra.
Qed.

Lemma allocate_cons i b rest rts c :
  allocate i (b :: rest) rts c =
  if Num.leb rts 0 then (b :: rest, rts, c)
  else if Num.gtb (remainingQuantity b) 0 then
    let '(rest', r, c') :=
      allocate i rest (rts - Qmin (remainingQuantity b) rts)
               (c + Qmin (remainingQuantity b) rts * costPerGram b) in
    (fst (drawFrom i b rts) :: rest', r, c')
  else
    let '(rest', r, c') := allocate i rest rts c in (b :: rest', r, c').
Proof. reflexivity. Qed.

Lemma drawn_refl b : 0 <= remainingQuantity b -> drawn b b.
Proof. intros H. split; auto; lra. Qed.

Lemma drawFrom_facts i b rts :
  0 < remainingQuantity b -> 0 < rts ->
  let b' := fst (drawFrom i b rts) in
  let take := Qmin (remainingQuantity b) rts in
  drawn b b' /\ 0 < take /\ take <= rts /\
  take <= remainingQuantity b - remainingQuantity b' /\
  remainingQuantity b - remainingQuantity b'
    <= take + (1 # 10000) * ((if isClosed b' then 1 else 0) - (if isClosed b then 1 else 0)) /\
  (if isClosed b then 1 else 0) <= (if isClosed b' then 1 else 0).
Proof.
  intros Hb Hr. cbv zeta.
  assert (isClosed b = false) as Hcb.
  { unfold isClosed. apply negb_false_iff, NumFacts.gtb_true. exact Hb. }
  rewrite Hcb.
  unfold drawFrom, isClosed; simpl.
  destruct (Qlt_le_dec rts (remainingQuantity b)) as [Hlt|Hle];
    [rewrite (Qmin_r_eq _ _ Hlt) | rewrite (Qmin_l_eq _ _ Hle)];
    match goal with
    | |- context [Num.ltb ?x ?y] => num_case (Num.ltb x y)
    end; simpl;
    repeat match goal with
      | |- context [Num.gtb ?x ?y] => num_case (Num.gtb x y)
      end; simpl; repeat split; simpl; try lra.
Qed.

Lemma stocked_drawn inv : stocked inv -> Forall2 drawn inv inv.
Proof. induction 1; constructor; auto using drawn_refl. Qed.

Lemma stocked_sum inv : stocked inv -> 0 <= Qsum (remainingOf inv).
Proof. induction 1; simpl; lra. Qed.

Lemma allocate_spec i inv : stocked inv ->
  forall rts c inv' r c', 0 <= rts ->
  allocate i inv rts c = (inv', r, c') ->
  0 <= r <= rts /\
  Forall2 drawn inv inv' /\
  rts - Qsum (remainingOf inv) <= r /\
  rts - r <= Qsum (remainingOf inv) - Qsum (remainingOf inv') /\
  Qsum (remainingOf inv) - Qsum (remainingOf inv')
    <= rts - r + (1 # 10000) * (closedCount inv' - closedCount inv) /\
  closedCount inv <= closedCount inv'.
Proof.
  induction 1 as [|b rest Hb Hrest IH]; intros rts c inv' r c' Hrts Heq.
  - simpl in Heq. inversion Heq; subst. unfold closedCount; simpl.
    repeat split; try constructor; lra.
  - rewrite allocate_cons in Heq.
    num_case (Num.leb rts 0).
    { inversion Heq; subst.
      assert (stocked (b :: rest)) as Hall by (constructor; assumption).
      pose proof (stocked_drawn _ Hall).
      pose proof (stocked_sum _ Hall).
      repeat split; auto; lra. }
    num_case (Num.gtb (remainingQuantity b) 0).
    + destruct (allocate i rest _ _) as [[rest' r0] c0] eqn:Hal.
      destruct (drawFrom_facts i b rts E0 E) as (Hd & Ht0 & Ht1 & Hlo & Hhi & Hcl).
      set (b' := fst (drawFrom i b rts)) in *. clearbody b'.
      set (take := Qmin (remainingQuantity b) rts) in *. clearbody take.
      inversion Heq; subst. clear Heq.
      apply IH in Hal; [|lra].
      destruct Hal as ([Hr0 Hr1] & HF & Hmin & Hl & Hu & Hc).
      pose proof (drawn_upper _ _ Hd). pose proof (drawn_lower _ _ Hd).
      unfold closedCount, remainingOf in *; simpl.
      repeat split; try lra.
      constructor; auto.
    + destruct (allocate i rest _ _) as [[rest' r0] c0] eqn:Hal.
      inversion Heq; subst. clear Heq.
      apply IH in Hal; [|lra].
      destruct Hal as ([Hr0 Hr1] & HF & Hmin & Hl & Hu & Hc).
      unfold closedCount, remainingOf in *; simpl.
      repeat split; try lra.
      constructor; auto. apply drawn_refl; auto.
Qed.

(** ** The ledger *)

Lemma Qlength_cons {A} (x : A) l : Qlength (x :: l) == Qlength l + 1.
Proof.
  unfold Qlength. simpl length. rewrite Nat2Z.inj_succ, <- Z.add_1_r, inject_Z_plus.
  reflexivity.
Qed.

Lemma Qlength_nonneg {A} (l : list A) : 0 <= Qlength l.
Proof.
  unfold Qlength. change 0 with (inject_Z 0). rewrite <- Zle_Qle. lia.
Qed.

Lemma Qsum_cons x l : Qsum (x :: l) = x + Qsum l.
Proof. reflexivity. Qed.

Lemma currentStock_sum inv : currentStock inv == Qsum (remainingOf inv).
Proof. unfold currentStock. rewrite (fold_left_Qsum remainingQuantity). unfold remainingOf. lra. Qed.

Lemma fifoValue_sum inv :
  fifoValue inv == Qsum (map (fun b => remainingQuantity b * costPerGram b) inv).
Proof.
  unfold fifoValue.
  rewrite (fold_left_Qsum (fun b => remainingQuantity b * costPerGram b)). lra.
Qed.

Lemma closedCount_le_length inv : closedCount inv <= Qlength inv.
Proof.
  induction inv as [|b inv IH]; [apply Qle_refl|].
  rewrite Qlength_cons. unfold closedCount in *. simpl.
  destruct (isClosed b); lra.
Qed.

Lemma drawn_originals inv inv' :
  Forall2 drawn inv inv' -> map originalQuantity inv' = map originalQuantity inv.
Proof.
  induction 1 as [|b b' inv inv' Hd _ IH]; simpl; [reflexivity|].
  rewrite IH, (drawn_original _ _ Hd). reflexivity.
Qed.

Lemma bounded_stocked inv : bounded inv -> stocked inv.
Proof. induction 1 as [|b inv [H _] _ IH]; constructor; assumption. Qed.

Lemma drawn_bounded inv inv' : bounded inv -> Forall2 drawn inv inv' -> bounded inv'.
Proof.
  intros Hb HF. induction HF as [|b b' inv inv' Hd _ IH]; [constructor|].
  inversion Hb as [|? ? [H0 H1] Hrest]; subst.
  constructor; [|apply IH, Hrest].
  rewrite (drawn_original _ _ Hd).
  pose proof (drawn_lower _ _ Hd). pose proof (drawn_upper _ _ Hd). lra.
Qed.

Section Ledger.
Variable getTime : string -> option Z.

Lemma handleAddInvoice_sale st invoice :
  type invoice = SALE ->
  handleAddInvoice getTime st invoice =
  let '(newInventory, remainingToSell, totalCOGS) :=
    allocate invoice (inventory st) (quantityGrams invoice) 0 in
  if Num.gtb remainingToSell (1 # 1000)
  then addToast ERROR "FIFO Mismatch - Check Stock" st
  else addToast SUCCESS "Sale recorded. FIFO Logic Applied."
         {| invoices :=
              withCogs invoice totalCOGS
                (quantityGrams invoice * ratePerGram invoice - totalCOGS) :: invoices st;
            inventory := newInventory;
            toasts := toasts st |}.
Proof. intros H. unfold handleAddInvoice. rewrite H. reflexivity. Qed.

Lemma ledgerInv_initial : ledgerInv initialState.
Proof.
  split.
  - constructor.
  - vm_compute. discriminate.
  - vm_compute. discriminate.
Qed.

Lemma ledgerInv_toast t m st : ledgerInv st -> ledgerInv (addToast t m st).
Proof. intros [H1 H2 H3]. split; assumption. Qed.

Lemma ledgerInv_step st invoice :
  0 <= quantityGrams invoice -> ledgerInv st ->
  ledgerInv (handleAddInvoice getTime st invoice).
Proof.
  intros Hq [Hb Hlo Hhi].
  destruct (type invoice) eqn:Ht.
  - (* a purchase *)
    unfold handleAddInvoice. rewrite Ht. apply ledgerInv_toast.
    pose proof (jsSort_perm (byBatchDate getTime) (inventory st ++ [newBatch invoice])) as Hp.
    assert (sold {| invoices := invoice :: invoices st;
                    inventory := jsSort (byBatchDate getTime) (inventory st ++ [newBatch invoice]);
                    toasts := toasts st |} = sold st) as Hsold.
    { unfold sold. cbn [invoices List.filter]. unfold isSale at 1. rewrite Ht. reflexivity. }
    split; unfold drift in *; rewrite ?Hsold;
      unfold purchased, onHand, remainingOf, closedCount in *; cbn [invoices inventory].
    + unfold bounded. rewrite Hp. apply Forall_app. split; [exact Hb|].
      constructor; [simpl; lra | constructor].
    + cbn [List.filter]. unfold isSale at 1. rewrite Ht. cbn [isSaleType].
      rewrite (Qsum_perm _ _ (Permutation_map originalQuantity Hp)).
      rewrite (Qsum_perm _ _ (Permutation_map remainingQuantity Hp)).
      rewrite !map_app, !Qsum_app. simpl. lra.
    + rewrite (Qsum_perm _ _ (Permutation_map originalQuantity Hp)).
      rewrite (Qsum_perm _ _ (Permutation_map remainingQuantity Hp)).
      rewrite (Qsum_perm _ _ (Permutation_map (fun b => if isClosed b then 1 else 0) Hp)).
      rewrite !map_app, !Qsum_app. simpl.
      destruct (isClosed (newBatch invoice)); lra.
  - (* a sale *)
    rewrite (handleAddInvoice_sale _ _ Ht).
    destruct (allocate invoice (inventory st) (quantityGrams invoice) 0)
      as [[newInventory r] c] eqn:Hal.
    num_case (Num.gtb r (1 # 1000)).
    { apply ledgerInv_toast. split; assumption. }
    apply ledgerInv_toast.
    destruct (allocate_spec invoice _ (bounded_stocked _ Hb) _ _ _ _ _ Hq Hal)
      as ([Hr0 Hr1] & HF & _ & Hl & Hu & Hc).
    set (sale := withCogs invoice c (quantityGrams invoice * ratePerGram invoice - c)).
    assert (List.filter isSale (sale :: invoices st)
            = sale :: List.filter isSale (invoices st)) as Hf.
    { cbn [List.filter]. unfold isSale at 1. subst sale. cbn [type withCogs].
      rewrite Ht. reflexivity. }
    split; unfold drift, purchased, sold, onHand in *; cbn [invoices inventory];
      rewrite ?Hf, ?Qlength_cons, ?(drawn_originals _ _ HF).
    + eapply drawn_bounded; eauto.
    + cbn [map]. rewrite Qsum_cons. subst sale. cbn [quantityGrams withCogs]. lra.
    + cbn [map]. rewrite Qsum_cons. subst sale. cbn [quantityGrams withCogs]. lra.
Qed.

Lemma ledgerInv_run ops : forall st,
  Forall (fun i => 0 <= quantityGrams i) ops -> ledgerInv st ->
  ledgerInv (runLedger getTime st ops).
Proof.
  induction ops as [|i ops IH]; intros st Hv Hst; simpl; [exact Hst|].
  inversion Hv; subst. apply IH; [assumption|].
  apply ledgerInv_step; assumption.
Qed.

(** The lots of a ledger that was fed non-negative quantities have no
    negative remainder. *)
Lemma reachable_stocked ops :
  Forall (fun i => 0 <= quantityGrams i) ops ->
  stocked (inventory (runLedger getTime initialState ops)).
Proof.
  intros Hv. apply bounded_stocked.
  exact (inv_bounded _ (ledgerInv_run ops initialState Hv ledgerInv_initial)).
Qed.

(** C4, as amended.  After any sequence of purchases and sales with
    quantities that are not negative, every lot holds between nothing and
    what was bought.  The quantity sold exceeds the quantity that left the
    lots by at most the tolerance 1e-3 for each committed sale, and falls
    short of it by at most the 1e-4 that closing a lot may drop, for each
    lot; both within the margin [slack] of the rounding for each invoice.
    The tolerance is per sale: it adds up. *)
Theorem conservation_up_to_drift ops :
  Forall (fun i => 0 <= quantityGrams i) ops ->
  let st := runLedger getTime initialState ops in
  let rounding := slack * (1 + purchased st) * Qlength (invoices st) in
  Forall (fun b => 0 <= remainingQuantity b <= originalQuantity b) (inventory st)
  /\ - (1 # 1000) * Qlength (List.filter isSale (invoices st)) - rounding <= drift st
  /\ drift st <= (1 # 10000) * Qlength (inventory st) + rounding.
Proof.
  intros Hv st rounding.
  destruct (ledgerInv_run ops initialState Hv ledgerInv_initial) as [Hb Hlo Hhi].
  fold st in Hb, Hlo, Hhi.
  assert (0 <= rounding) as Hr.
  { unfold rounding. apply Qmult_le_0_compat; [|apply Qlength_nonneg].
    apply Qmult_le_0_compat; [unfold slack; lra|].
    assert (0 <= purchased st); [|lra].
    unfold purchased. apply Qsum_nonneg. apply List.Forall_forall. intros x Hx.
    apply in_map_iff in Hx as (b & <- & Hin).
    pose proof (proj1 (List.Forall_forall _ _) Hb b Hin) as [H1 H2]. lra. }
  split; [exact Hb|]. split; [lra|].
  pose proof (closedCount_le_length (inventory st)). lra.
Qed.

Lemma allocate_drain i inv : stocked inv ->
  forall rts c, Qsum (remainingOf inv) < rts ->
  exists r c',
    allocate i inv rts c = (map (drain i) inv, r, c')
    /\ r == rts - Qsum (remainingOf inv)
    /\ c' == c + Qsum (map (fun b => remainingQuantity b * costPerGram b) inv).
Proof.
  induction 1 as [|b rest Hb Hrest IH]; intros rts c Hlt.
  - exists rts, c. simpl in *. repeat split; lra.
  - rewrite allocate_cons.
    pose proof (stocked_sum _ Hrest) as Hsum.
    unfold remainingOf in *. cbn [map] in *. rewrite Qsum_cons in Hlt.
    num_case (Num.leb rts 0); [lra|].
    unfold drain at 1.
    num_case (Num.gtb (remainingQuantity b) 0).
    + assert (remainingQuantity b <= rts) as Hle by lra.
      rewrite (Qmin_l_eq _ _ Hle).
      destruct (IH (rts - remainingQuantity b)
                   (c + remainingQuantity b * costPerGram b)) as (r & c' & Heq & Hr & Hc);
        [lra|].
      rewrite Heq. exists r, c'. split; [|rewrite !Qsum_cons; split; lra].
      unfold drawFrom. rewrite (Qmin_l_eq _ _ Hle). cbn [fst].
      num_case (Num.ltb (remainingQuantity b - remainingQuantity b) (1 # 10000));
        [reflexivity | lra].
    + destruct (IH rts c) as (r & c' & Heq & Hr & Hc); [lra|].
      rewrite Heq. exists r, c'. split; [reflexivity|].
      rewrite !Qsum_cons. split; [lra|].
      assert (remainingQuantity b == 0) as Hz by lra. rewrite Hz. lra.
Qed.

(** C8, as amended.  In a ledger whose lots have no negative remainder, a
    sale of more than the total remaining quantity, by at most 1e-3 less
    the margin [slack] of the rounding, is committed: every lot that had
    stock is emptied and closed on the date of the sale, a lot that had
    none is left as it was (it keeps its own closing date), and the cost
    of the sale is the value of all the stock there was. *)
Theorem oversell_within_tolerance st invoice :
  type invoice = SALE ->
  stocked (inventory st) ->
  currentStock (inventory st) < quantityGrams invoice ->
  quantityGrams invoice + slack * quantityGrams invoice
  <= currentStock (inventory st) + (1 # 1000) ->
  exists c,
    handleAddInvoice getTime st invoice
      = addToast SUCCESS "Sale recorded. FIFO Logic Applied."
          {| invoices :=
               withCogs invoice c
                 (quantityGrams invoice * ratePerGram invoice - c) :: invoices st;
             inventory := map (drain invoice) (inventory st);
             toasts := toasts st |}
    /\ c == fifoValue (inventory st)
    /\ Forall (fun b => remainingQuantity b == 0) (map (drain invoice) (inventory st))
    /\ (forall b, 0 < remainingQuantity b ->
          closedDate (drain invoice b) = Some (date invoice))
    /\ (forall b, remainingQuantity b <= 0 -> drain invoice b = b).
Proof.
  intros Ht Hs Hlt Hle.
  rewrite currentStock_sum in Hlt, Hle. unfold slack in Hle.
  pose proof (stocked_sum _ Hs) as H0.
  destruct (allocate_drain invoice _ Hs (quantityGrams invoice) 0 Hlt)
    as (r & c & Heq & Hr & Hc).
  exists c. rewrite (handleAddInvoice_sale _ _ Ht), Heq.
  num_case (Num.gtb r (1 # 1000)); [lra|].
  split; [reflexivity|].
  split; [rewrite fifoValue_sum; lra|].
  split; [|split].
  - clear -Hs. induction Hs as [|b rest Hb _ IH]; simpl; constructor; auto.
    unfold drain. num_case (Num.gtb (remainingQuantity b) 0); simpl; lra.
  - intros b Hb. unfold drain.
    num_case (Num.gtb (remainingQuantity b) 0); [reflexivity | lra].
  - intros b Hb. unfold drain.
    num_case (Num.gtb (remainingQuantity b) 0); [lra | reflexivity].
Qed.

End Ledger.

(** ** The replay *)

Lemma while_done fuel r bs : whileCond r bs = false -> while fuel r bs = Some (r, bs).
Proof. intros H. destruct fuel; simpl; rewrite H; reflexivity. Qed.

(** The loop ends within one turn more than there are scratch pairs. *)
Lemma while_consume bs : forall fuel r,
  (length bs < fuel)%nat -> while fuel r bs = Some (consume r bs).
Proof.
  induction bs as [|b rest IH]; intros fuel r Hf.
  - apply while_done. unfold whileCond. simpl. apply andb_false_r.
  - destruct fuel as [|fuel]; [simpl in Hf; lia|].
    cbn [while consume]. unfold whileCond. cbn [length Nat.eqb negb].
    rewrite andb_true_r.
    destruct (Num.gtb r (1 # 1000000)) eqn:Hr; [|reflexivity].
    cbn [whileBody]. 
    destruct (Num.gtb (quantity b) r) eqn:Hq; cbn [mbind option_bind].
    + apply while_done. unfold whileCond. reflexivity.
    + apply IH. simpl in Hf. lia.
Qed.

Lemma replayStep_sellFrom bs inv : replayStep bs inv = Some (sellFrom bs inv).
Proof.
  unfold replayStep, sellFrom. destruct (type inv); [reflexivity|].
  rewrite while_consume by lia. destruct (consume _ _); reflexivity.
Qed.

Lemma replay_fold invs : forall bs, replay invs bs = Some (fold_left sellFrom invs bs).
Proof.
  induction invs as [|inv invs IH]; intros bs; simpl; [reflexivity|].
  rewrite replayStep_sellFrom. simpl. apply IH.
Qed.

Lemma batchesValue_sum bs :
  batchesValue bs == Qsum (map (fun b => quantity b * cost b) bs).
Proof.
  unfold batchesValue.
  rewrite (fold_left_Qsum (fun b => quantity b * cost b)). lra.
Qed.

Lemma consume_OK bs : scratchOK bs -> forall r, 0 <= r ->
  0 <= fst (consume r bs) /\ scratchOK (snd (consume r bs)).
Proof.
  induction 1 as [|b rest [Hq Hc] Hrest IH]; intros r Hr; simpl.
  - split; [exact Hr | constructor].
  - num_case (Num.gtb r (1 # 1000000)).
    + num_case (Num.gtb (quantity b) r); simpl.
      * split; [lra|]. constructor; [simpl; split; lra | exact Hrest].
      * apply IH. lra.
    + simpl. split; [exact Hr|]. constructor; [split|]; assumption.
Qed.

Lemma sellFrom_OK bs inv : scratchOK bs -> entryOK inv -> scratchOK (sellFrom bs inv).
Proof.
  intros Hbs [Hq Hr]. unfold sellFrom. destruct (type inv).
  - apply Forall_app. split; [exact Hbs|]. constructor; [split; assumption | constructor].
  - apply consume_OK; assumption.
Qed.

Lemma fold_sellFrom_OK invs : forall bs,
  scratchOK bs -> Forall entryOK invs -> scratchOK (fold_left sellFrom invs bs).
Proof.
  induction invs as [|inv invs IH]; intros bs Hbs Hv; simpl; [exact Hbs|].
  inversion Hv; subst. apply IH; [apply sellFrom_OK|]; assumption.
Qed.

Lemma scratchOK_value bs : scratchOK bs -> 0 <= batchesValue bs.
Proof.
  intros H. rewrite batchesValue_sum.
  induction H as [|b rest [Hq Hc] _ IH]; simpl; [lra|].
  assert (0 <= quantity b * cost b) by (apply Qmult_le_0_compat; assumption). lra.
Qed.

(** A sale of more than the stock and the margin empties the list. *)
Lemma consume_all bs : scratchOK bs -> forall r,
  Qsum (map quantity bs) + (1 # 1000000) < r -> snd (consume r bs) = [].
Proof.
  induction 1 as [|b rest [Hq Hc] Hrest IH]; intros r Hr; simpl; [reflexivity|].
  assert (0 <= Qsum (map quantity rest)) as Hsum.
  { clear -Hrest. induction Hrest as [|x l [H _] _ IH]; simpl; lra. }
  simpl in Hr.
  num_case (Num.gtb r (1 # 1000000)); [|lra].
  num_case (Num.gtb (quantity b) r); [lra|].
  apply IH. lra.
Qed.

Section ReplayFacts.
Variable getTime : string -> option Z.

Lemma relevantInvoices_OK invoices targetDate :
  Forall entryOK invoices -> Forall entryOK (relevantInvoices getTime invoices targetDate).
Proof.
  intros H. unfold relevantInvoices.
  rewrite jsSort_perm.
  apply List.Forall_forall. intros x Hx. apply List.filter_In in Hx as [Hx _].
  revert x Hx. apply List.Forall_forall. exact H.
Qed.

Lemma replayer_total invoices targetDate :
  calculateInventoryValueOnDate getTime invoices targetDate
  = Some (batchesValue (fold_left sellFrom (relevantInvoices getTime invoices targetDate) [])).
Proof.
  unfold calculateInventoryValueOnDate. rewrite replay_fold. reflexivity.
Qed.

Lemma whileBody_OK r bs r' bs' :
  0 <= r -> scratchOK bs -> whileBody r bs = Some (r', bs') ->
  0 <= r' /\ scratchOK bs'.
Proof.
  intros Hr Hbs. destruct Hbs as [|b rest [Hq Hc] Hrest]; simpl; [discriminate|].
  num_case (Num.gtb (quantity b) r); intros Heq; inversion Heq; subst.
  - split; [lra|]. constructor; [simpl; split; lra | exact Hrest].
  - split; [lra | exact Hrest].
Qed.

Lemma replayer_nonneg invoices targetDate :
  Forall entryOK invoices ->
  exists v, calculateInventoryValueOnDate getTime invoices targetDate = Some v /\ 0 <= v.
Proof.
  intros Hv. rewrite replayer_total. eexists. split; [reflexivity|].
  apply scratchOK_value, fold_sellFrom_OK; [constructor|].
  apply relevantInvoices_OK, Hv.
Qed.

(** C9, as amended.  For invoices with non-negative quantities and rates
    the replay returns a non-negative number; after every invoice, and
    after every turn of the loop of a sale, the scratch pairs are
    non-negative; a sale of more than the scratch pairs hold plus the
    margin 1e-6 of the loop empties the list; and the empty invoice list
    gives 0. *)
Theorem replayer_safe invoices targetDate :
  Forall entryOK invoices ->
  (exists v, calculateInventoryValueOnDate getTime invoices targetDate = Some v /\ 0 <= v)
  /\ (forall k, exists bs,
        replay (take k (relevantInvoices getTime invoices targetDate)) [] = Some bs
        /\ scratchOK bs)
  /\ (forall r bs r' bs',
        0 <= r -> scratchOK bs -> whileBody r bs = Some (r', bs') ->
        0 <= r' /\ scratchOK bs')
  /\ (forall bs sale,
        scratchOK bs -> type sale = SALE ->
        Qsum (map quantity bs) + (1 # 1000000) < quantityGrams sale ->
        replayStep bs sale = Some [])
  /\ calculateInventoryValueOnDate getTime [] targetDate = Some 0.
Proof.
  intros Hv.
  pose proof (relevantInvoices_OK invoices targetDate Hv) as Hrel.
  split; [|split; [|split; [|split]]].
  - apply replayer_nonneg, Hv.
  - intros k. rewrite replay_fold. eexists. split; [reflexivity|].
    apply fold_sellFrom_OK; [constructor|]. apply Forall_take, Hrel.
  - apply whileBody_OK.
  - intros bs sale Hbs Ht Hq. rewrite replayStep_sellFrom. unfold sellFrom.
    rewrite Ht, (consume_all bs Hbs _ Hq). reflexivity.
  - reflexivity.
Qed.

Lemma cogs_nonneg l : Forall validInvoice l ->
  0 <= Qsum (map (fun s => Num.orZero (cogs s)) l).
Proof. induction 1 as [|i l (_ & _ & H) _ IH]; simpl; lra. Qed.

Lemma Forall_filter_keep {A} (P : A -> Prop) f l : Forall P l -> Forall P (List.filter f l).
Proof.
  induction 1 as [|x l Hx _ IH]; simpl; [constructor|].
  destruct (f x); [constructor|]; assumption.
Qed.

Lemma validInvoice_entryOK l : Forall validInvoice l -> Forall entryOK l.
Proof. induction 1 as [|i l (H1 & H2 & _) _ IH]; constructor; [split|]; assumption. Qed.

(** The turnover computation returns statistics for every invoice list:
    each division is behind a test of its divisor. *)
(** The invoices the code keeps for the cost are the sales in the
    range. *)
Lemma inPeriod_saleInRange startDate endDate i :
  isSale i && inPeriod startDate endDate i
  = bool_decide (saleInRange startDate endDate i).
Proof.
  unfold inPeriod, String.leb, isSale, isSaleType.
  destruct (bool_decide (saleInRange startDate endDate i)) eqn:Hd.
  - apply bool_decide_eq_true in Hd as (Ht & H1 & H2). unfold before in H1, H2.
    rewrite Ht. rewrite String.compare_antisym in H1.
    destruct (String.compare startDate (date i)); [| |contradiction H1; reflexivity];
      (destruct (String.compare (date i) endDate) eqn:He; [reflexivity..|]);
      rewrite String.compare_antisym, He in H2; contradiction H2; reflexivity.
  - apply bool_decide_eq_false in Hd.
    destruct (type i) eqn:Ht; [reflexivity|]. cbn [andb].
    destruct (String.compare startDate (date i)) eqn:H1; [| |reflexivity];
      (destruct (String.compare (date i) endDate) eqn:H2; [| |reflexivity]);
      exfalso; apply Hd; (split; [exact Ht|]); unfold before;
      rewrite (String.compare_antisym (date i) startDate), H1,
        (String.compare_antisym endDate (date i)), H2;
      split; discriminate.
Qed.

Lemma salesInPeriod_filter startDate endDate invoices :
  List.filter isSale (List.filter (inPeriod startDate endDate) invoices)
  = List.filter (fun i => bool_decide (saleInRange startDate endDate i)) invoices.
Proof.
  induction invoices as [|i l IH]; [reflexivity|].
  cbn [List.filter]. rewrite <- inPeriod_saleInRange.
  destruct (inPeriod startDate endDate i); cbn [List.filter];
    rewrite ?andb_true_r, ?andb_false_r; [|exact IH].
  destruct (isSale i); rewrite IH; reflexivity.
Qed.

Lemma turnover_total invoices startDate endDate tStart tEnd :
  getTime startDate = Some tStart ->
  getTime endDate = Some tEnd ->
  exists stats, calculateTurnoverStats getTime invoices startDate endDate = Some stats.
Proof.
  intros HtS HtE. unfold calculateTurnoverStats.
  rewrite !replayer_total. cbn [mbind option_bind].
  match goal with
  | |- context [Num.gtb ?avg 0] => num_case (Num.gtb avg 0)
  end; cbn [mbind option_bind].
  - rewrite NumFacts.div_Some by lra. cbn [mbind option_bind].
    match goal with
    | |- context [Num.gtb ?ratio 0] => num_case (Num.gtb ratio 0)
    end; cbn [mbind option_bind]; [|eauto].
    unfold daysInPeriod, dateDiff. rewrite HtE, HtS. cbn [mbind option_bind].
    rewrite NumFacts.div_Some by lra. eauto.
  - num_case (Num.gtb 0 0); [lra|]. cbn [mbind option_bind]. eauto.
Qed.

(** C6.  For invoices of the data model (no negative quantity, rate or
    cost) and a range of two valid dates, the turnover computation returns
    statistics: the total cost is the sum of the costs of the sale
    transactions whose date is not before the start of the range and not
    after its end, the average inventory value is the mean of the replay
    at the two ends, the ratio is their quotient or 0 for a zero
    denominator, and the days to sell are the days of the range over the
    ratio or 0 for a zero ratio.  No division has a zero divisor, and the
    empty list gives zeros. *)
Theorem turnover_stats invoices startDate endDate tStart tEnd :
  Forall validInvoice invoices ->
  getTime startDate = Some tStart ->
  getTime endDate = Some tEnd ->
  exists startValue endValue stats,
    calculateInventoryValueOnDate getTime invoices startDate = Some startValue
    /\ calculateInventoryValueOnDate getTime invoices endDate = Some endValue
    /\ calculateTurnoverStats getTime invoices startDate endDate = Some stats
    /\ totalCOGS stats == cogsInPeriod invoices startDate endDate
    /\ avgInventoryValue stats == (startValue + endValue) / 2
    /\ turnoverRatio stats
       == (if Qeq_bool (avgInventoryValue stats) 0 then 0
           else totalCOGS stats / avgInventoryValue stats)
    /\ avgDaysToSell stats
       == (if Qeq_bool (turnoverRatio stats) 0 then 0
           else daysInRange tStart tEnd / turnoverRatio stats)
    /\ (exists empty,
          calculateTurnoverStats getTime [] startDate endDate = Some empty
          /\ turnoverRatio empty == 0 /\ avgDaysToSell empty == 0
          /\ avgInventoryValue empty == 0 /\ totalCOGS empty == 0).
Proof.
  intros Hv HtS HtE.
  pose proof (validInvoice_entryOK _ Hv) as Hok.
  destruct (replayer_nonneg invoices startDate Hok) as (vS & HS & HvS).
  destruct (replayer_nonneg invoices endDate Hok) as (vE & HE & HvE).
  exists vS, vE.
  assert (exists empty,
          calculateTurnoverStats getTime [] startDate endDate = Some empty
          /\ turnoverRatio empty == 0 /\ avgDaysToSell empty == 0
          /\ avgInventoryValue empty == 0 /\ totalCOGS empty == 0) as Hempty.
  { eexists. split; [reflexivity|]. repeat split; reflexivity. }
  unfold calculateTurnoverStats. rewrite HS, HE. cbn [mbind option_bind].
  set (sales := List.filter isSale (List.filter (inPeriod startDate endDate) invoices)).
  set (total := fold_left (fun acc s => acc + Num.orZero (cogs s)) sales 0).
  assert (total == cogsInPeriod invoices startDate endDate) as Htotal.
  { unfold total, cogsInPeriod. rewrite <- salesInPeriod_filter. fold sales.
    rewrite (fold_left_Qsum (fun s => Num.orZero (cogs s))). lra. }
  assert (0 <= total) as Hpos.
  { rewrite Htotal. unfold cogsInPeriod.
    apply cogs_nonneg. apply Forall_filter_keep. exact Hv. }
  set (avg := (vS + vE) / 2).
  assert (0 <= avg) as Havg.
  { unfold avg. apply Qle_shift_div_l; lra. }
  assert (daysInPeriod getTime startDate endDate = Some (daysInRange tStart tEnd)) as Hdays.
  { unfold daysInPeriod, dateDiff. rewrite HtE, HtS. reflexivity. }
  num_case (Num.gtb avg 0).
  - rewrite NumFacts.div_Some by lra. cbn [mbind option_bind].
    assert (0 <= total / avg) as Hratio.
    { apply Qle_shift_div_l; lra. }
    num_case (Num.gtb (total / avg) 0).
    + rewrite Hdays. cbn [mbind option_bind].
      rewrite NumFacts.div_Some by lra. cbn [mbind option_bind].
      eexists. repeat split; cbn [totalCOGS avgInventoryValue turnoverRatio avgDaysToSell];
        try reflexivity; try exact Htotal; try exact Hempty.
      * destruct (Qeq_bool avg 0) eqn:Hz; [apply Qeq_bool_iff in Hz; lra | reflexivity].
      * destruct (Qeq_bool (total / avg) 0) eqn:Hz;
          [apply Qeq_bool_iff in Hz; lra | reflexivity].
    + cbn [mbind option_bind].
      eexists. repeat split; cbn [totalCOGS avgInventoryValue turnoverRatio avgDaysToSell];
        try reflexivity; try exact Htotal; try exact Hempty.
      * destruct (Qeq_bool avg 0) eqn:Hz; [apply Qeq_bool_iff in Hz; lra | reflexivity].
      * destruct (Qeq_bool (total / avg) 0) eqn:Hz; [reflexivity|].
        apply Qeq_bool_neq in Hz. lra.
  - cbn [mbind option_bind].
    num_case (Num.gtb 0 0); [lra|]. cbn [mbind option_bind].
    eexists. repeat split; cbn [totalCOGS avgInventoryValue turnoverRatio avgDaysToSell];
      try reflexivity; try exact Htotal; try exact Hempty.
    destruct (Qeq_bool avg 0) eqn:Hz; [reflexivity|].
    apply Qeq_bool_neq in Hz. lra.
Qed.

End ReplayFacts.

(** ** Replay against the live ledger *)

Lemma milligrams_sub x y : milligrams x -> milligrams y -> milligrams (x - y).
Proof.
  intros [k Hk] [m Hm]. exists (k - m)%Z. rewrite Hk, Hm.
  unfold Qeq, Qminus, Qplus, Qopp. simpl. lia.
Qed.

Lemma milligrams_zero : milligrams 0.
Proof. exists 0%Z. reflexivity. Qed.

Lemma milligrams_eq x y : x == y -> milligrams x -> milligrams y.
Proof. intros H [k Hk]. exists k. rewrite <- H. exact Hk. Qed.

Lemma milligrams_pos x : milligrams x -> 0 < x -> (1 # 1000) <= x.
Proof.
  intros [k Hk] H. rewrite Hk in *. unfold Qlt, Qle in *. simpl in *. lia.
Qed.

Lemma allocate_break i inv rts c : rts <= 0 -> allocate i inv rts c = (inv, rts, c).
Proof.
  intros H. destruct inv as [|b rest]; [reflexivity|].
  rewrite allocate_cons. num_case (Num.leb rts 0); [reflexivity | lra].
Qed.

Lemma consume_stop r bs : r <= (1 # 1000000) -> consume r bs = (r, bs).
Proof.
  intros H. destruct bs as [|b rest]; [reflexivity|]. simpl.
  num_case (Num.gtb r (1 # 1000000)); [lra | reflexivity].
Qed.

Lemma gridInventory_stocked inv : gridInventory inv -> stocked inv.
Proof. induction 1 as [|b inv [H _] _ IH]; constructor; assumption. Qed.

Lemma allocate_mirrors i inv : gridInventory inv ->
  forall bs rtsL rtsR c,
    mirrors inv bs -> rtsL == rtsR -> 0 <= rtsL -> milligrams rtsL ->
    gridInventory (fst (fst (allocate i inv rtsL c)))
    /\ mirrors (fst (fst (allocate i inv rtsL c))) (snd (consume rtsR bs)).
Proof.
  induction 1 as [|b rest [Hb Hg] Hrest IH]; intros bs rtsL rtsR c Hm Heq H0 Hgr.
  - simpl. inversion Hm; subst. simpl. split; constructor.
  - destruct (Qlt_le_dec 0 rtsL) as [Hpos|Hneg].
    2:{ rewrite allocate_break by exact Hneg.
        rewrite consume_stop by lra. simpl.
        split; [constructor; [split|]; assumption | exact Hm]. }
    pose proof (milligrams_pos _ Hgr Hpos) as Hmin.
    rewrite allocate_cons.
    num_case (Num.leb rtsL 0); [lra|].
    unfold mirrors, openLots in Hm. cbn [List.filter] in Hm.
    num_case (Num.gtb (remainingQuantity b) 0).
    + inversion Hm as [|? s ? bs' [Hq Hc] Hm']; subst. clear Hm.
      cbn [consume].
      num_case (Num.gtb rtsR (1 # 1000000)); [|lra].
      destruct (Qlt_le_dec rtsL (remainingQuantity b)) as [Hlt|Hle].
      * rewrite (Qmin_r_eq _ _ Hlt).
        rewrite allocate_break by lra.
        num_case (Num.gtb (quantity s) rtsR); [|lra].
        unfold drawFrom. rewrite (Qmin_r_eq _ _ Hlt). cbn [fst snd].
        assert (milligrams (remainingQuantity b - rtsL)) as Hgrid
          by (apply milligrams_sub; assumption).
        assert ((1 # 1000) <= remainingQuantity b - rtsL) as Hbig
          by (apply milligrams_pos; [assumption | lra]).
        num_case (Num.ltb (remainingQuantity b - rtsL) (1 # 10000)); [lra|].
        split.
        -- constructor; [simpl; split; [lra | assumption] | exact Hrest].
        -- unfold mirrors, openLots. cbn [List.filter remainingQuantity].
           num_case (Num.gtb (remainingQuantity b - rtsL) 0); [|lra].
           constructor; [|exact Hm'].
           simpl. split; [lra | exact Hc].
      * rewrite (Qmin_l_eq _ _ Hle).
        num_case (Num.gtb (quantity s) rtsR); [lra|].
        destruct (allocate i rest (rtsL - remainingQuantity b)
                    (c + remainingQuantity b * costPerGram b))
          as [[rest' r] c'] eqn:Hal.
        destruct (IH bs' (rtsL - remainingQuantity b) (rtsR - quantity s)
                     (c + remainingQuantity b * costPerGram b) Hm')
          as [Hg' Hm'']; [lra | lra | apply milligrams_sub; assumption |].
        rewrite Hal in Hg', Hm''. cbn [fst snd] in *.
        unfold drawFrom. rewrite (Qmin_l_eq _ _ Hle). cbn [fst snd].
        num_case (Num.ltb (remainingQuantity b - remainingQuantity b) (1 # 10000));
          [|lra].
        split.
        -- constructor; [simpl; split; [lra | apply milligrams_zero] | exact Hg'].
        -- unfold mirrors, openLots. cbn [List.filter remainingQuantity].
           num_case (Num.gtb 0 0); [lra|]. exact Hm''.
    + destruct (allocate i rest rtsL c) as [[rest' r] c'] eqn:Hal.
      destruct (IH bs rtsL rtsR c Hm Heq H0 Hgr) as [Hg' Hm''].
      rewrite Hal in Hg', Hm''. cbn [fst snd] in *.
      split.
      * constructor; [split; assumption | exact Hg'].
      * unfold mirrors, openLots. cbn [List.filter].
        num_case (Num.gtb (remainingQuantity b) 0); [lra|]. exact Hm''.
Qed.

Lemma mirrors_value inv : stocked inv -> forall bs,
  mirrors inv bs -> fifoValue inv == batchesValue bs.
Proof.
  intros Hs bs Hm. rewrite fifoValue_sum, batchesValue_sum.
  revert bs Hm. induction Hs as [|b rest Hb _ IH]; intros bs Hm.
  - inversion Hm; subst. reflexivity.
  - unfold mirrors, openLots in Hm. cbn [List.filter] in Hm.
    num_case (Num.gtb (remainingQuantity b) 0).
    + inversion Hm as [|? s ? bs' [Hq Hc] Hm']; subst.
      cbn [map]. rewrite !Qsum_cons, (IH bs' Hm'), Hq, Hc. reflexivity.
    + cbn [map]. rewrite Qsum_cons, (IH bs Hm).
      assert (remainingQuantity b == 0) as Hz by lra. rewrite Hz. lra.
Qed.

Lemma StronglySorted_snoc_inv {A} (R : A -> A -> Prop) l x :
  StronglySorted R (l ++ [x]) -> StronglySorted R l /\ Forall (fun y => R y x) l.
Proof.
  induction l as [|y l IH]; simpl; intros Hs.
  - split; constructor.
  - inversion Hs as [|? ? Hs' Hall]; subst.
    destruct (IH Hs') as [H1 H2].
    apply Forall_app in Hall as [Hall1 Hall2].
    split; constructor; auto. inversion Hall2; auto.
Qed.

Lemma StronglySorted_snoc {A} (R : A -> A -> Prop) l x :
  StronglySorted R l -> Forall (fun y => R y x) l -> StronglySorted R (l ++ [x]).
Proof.
  induction 1 as [|y l Hs IH Hall]; intros Hx; simpl.
  - constructor; constructor.
  - inversion Hx; subst. constructor; [apply IH; assumption|].
    apply Forall_app. split; [exact Hall | constructor; [assumption | constructor]].
Qed.

Lemma StronglySorted_weaken {A} (R R' : A -> A -> Prop) l :
  (forall a b, R a b -> R' a b) -> StronglySorted R l -> StronglySorted R' l.
Proof.
  intros HR. induction 1 as [|y l Hs IH Hall]; constructor; [exact IH|].
  clear -HR Hall. induction Hall; constructor; auto.
Qed.

Lemma Forall_transfer {A B} (f : A -> B) (P : B -> Prop) l l' :
  map f l' = map f l -> Forall (fun a => P (f a)) l -> Forall (fun a => P (f a)) l'.
Proof.
  intros Hmap Hall. revert l' Hmap.
  induction Hall as [|z l Hz _ IH]; intros [|z' l'] Hmap; try discriminate;
    constructor; simpl in Hmap; injection Hmap as Hz' Hl.
  - rewrite Hz'. exact Hz.
  - apply IH. exact Hl.
Qed.

Lemma StronglySorted_transfer {A B} (f : A -> B) (R : B -> B -> Prop) l l' :
  map f l' = map f l ->
  StronglySorted (fun a b => R (f a) (f b)) l ->
  StronglySorted (fun a b => R (f a) (f b)) l'.
Proof.
  intros Hmap Hs. revert l' Hmap.
  induction Hs as [|y l Hs IH Hall]; intros [|y' l'] Hmap; try discriminate;
    [constructor|].
  simpl in Hmap. injection Hmap as Hy Hl.
  constructor; [apply IH; exact Hl|].
  rewrite Hy. apply (Forall_transfer f (R (f y)) l l' Hl Hall).
Qed.

Lemma drawn_dates inv inv' : Forall2 drawn inv inv' -> map batchDate inv' = map batchDate inv.
Proof.
  induction 1 as [|b b' inv inv' Hd _ IH]; simpl; [reflexivity|].
  rewrite IH, (drawn_date _ _ Hd). reflexivity.
Qed.

Lemma filter_all {A} (f : A -> bool) l :
  Forall (fun x => f x = true) l -> List.filter f l = l.
Proof. induction 1 as [|x l Hx _ IH]; simpl; [|rewrite Hx, IH]; reflexivity. Qed.

Section ReplayLedger.
Variable getTime : string -> option Z.
Variable today : string.

Lemma earlier_after_date a b :
  earlier getTime (date b) (date a) = true -> after (byDate getTime) a b = true.
Proof.
  unfold earlier, after, byDate, dateDiff.
  destruct (getTime (date b)) as [tb|]; [|discriminate].
  destruct (getTime (date a)) as [ta|]; [|discriminate].
  intros H. apply Z.ltb_lt in H. cbn [mbind option_bind].
  apply NumFacts.gtb_true. change 0 with (inject_Z 0). rewrite <- Zlt_Qlt. lia.
Qed.

Lemma earlier_not_after_batch a b :
  earlier getTime (batchDate a) (batchDate b) = true ->
  after (byBatchDate getTime) a b = false.
Proof.
  unfold earlier, after, byBatchDate, dateDiff.
  destruct (getTime (batchDate a)) as [ta|]; [|discriminate].
  destruct (getTime (batchDate b)) as [tb|]; [|discriminate].
  intros H. apply Z.ltb_lt in H. cbn [mbind option_bind].
  apply NumFacts.gtb_false. change 0 with (inject_Z 0). rewrite <- Zle_Qle. lia.
Qed.

Lemma replayInv_initial : replayInv getTime today [] initialState.
Proof. split; simpl; constructor. Qed.

Lemma replayInv_more ops o st :
  replayInv getTime today ops st -> replayInv getTime today (ops ++ [o]) st.
Proof.
  intros [H1 H2 H3 H4 H5 H6 H7]. split; try assumption.
  - eapply List.Forall_impl; [|exact H5]. intros a (x & Hx & Hd).
    exists x. split; [apply in_or_app; left; exact Hx | exact Hd].
  - eapply List.Forall_impl; [|exact H6]. intros a (x & Hx & Hd).
    exists x. split; [apply in_or_app; left; exact Hx | exact Hd].
Qed.

Lemma replayInv_toast t m ops st :
  replayInv getTime today ops st -> replayInv getTime today ops (addToast t m st).
Proof. intros [H1 H2 H3 H4 H5 H6 H7]. split; assumption. Qed.

Lemma replayInv_step ops o st :
  replayInv getTime today ops st ->
  Forall (fun a => earlier getTime (date a) (date o) = true) ops ->
  gridEntry o ->
  String.leb (date o) today = true ->
  replayInv getTime today (ops ++ [o]) (handleAddInvoice getTime st o).
Proof.
  intros Hinv Hlate [Hpos Hgrid] Htoday.
  assert (Forall (fun a => earlier getTime (date a) (date o) = true) (invoices st)) as Hl1.
  { eapply List.Forall_impl; [|exact (ri_dates _ _ _ _ Hinv)].
    intros a (x & Hx & Hd). rewrite Hd.
    exact (proj1 (List.Forall_forall _ _) Hlate x Hx). }
  assert (Forall (fun b => earlier getTime (batchDate b) (date o) = true) (inventory st)) as Hl2.
  { eapply List.Forall_impl; [|exact (ri_batches _ _ _ _ Hinv)].
    intros a (x & Hx & Hd). rewrite Hd.
    exact (proj1 (List.Forall_forall _ _) Hlate x Hx). }
  assert (In o (ops ++ [o])) as Hin by (apply in_or_app; right; left; reflexivity).
  apply (replayInv_more ops o) in Hinv.
  destruct Hinv as [H1 H2 H3 H4 H5 H6 H7].
  destruct (type o) eqn:Ht.
  - (* a purchase *)
    unfold handleAddInvoice. rewrite Ht. apply replayInv_toast.
    assert (StronglySorted
              (fun a b => earlier getTime (batchDate a) (batchDate b) = true)
              (inventory st ++ [newBatch o])) as Hasc.
    { apply StronglySorted_snoc; [exact H4 | exact Hl2]. }
    assert (jsSort (byBatchDate getTime) (inventory st ++ [newBatch o])
            = inventory st ++ [newBatch o]) as Hsort.
    { apply jsSort_id. eapply StronglySorted_weaken; [|exact Hasc].
      apply earlier_not_after_batch. }
    split; cbn [invoices inventory]; rewrite ?Hsort.
    + apply Forall_app. split; [exact H1|].
      constructor; [simpl; split; [lra | exact Hgrid] | constructor].
    + cbn [rev]. rewrite fold_left_app. cbn [fold_left].
      unfold mirrors, openLots in *. unfold sellFrom at 1. rewrite Ht.
      rewrite List.filter_app. apply Forall2_app; [exact H2|].
      cbn [List.filter newBatch remainingQuantity].
      num_case (Num.gtb (quantityGrams o) 0); [|lra].
      constructor; [simpl; split; reflexivity | constructor].
    + constructor; [exact H3 | exact Hl1].
    + exact Hasc.
    + constructor; [exists o; split; [exact Hin | reflexivity] | exact H5].
    + apply Forall_app. split; [exact H6|].
      constructor; [exists o; split; [exact Hin | reflexivity] | constructor].
    + constructor; assumption.
  - (* a sale *)
    rewrite (handleAddInvoice_sale _ _ _ Ht).
    destruct (allocate o (inventory st) (quantityGrams o) 0)
      as [[newInventory r] c] eqn:Hal.
    destruct (Num.gtb r (1 # 1000)).
    { apply replayInv_toast. split; assumption. }
    apply replayInv_toast.
    assert (0 <= quantityGrams o) as Hq0 by lra.
    destruct (allocate_spec o _ (gridInventory_stocked _ H1) _ _ _ _ _ Hq0 Hal)
      as (_ & HF & _).
    destruct (allocate_mirrors o _ H1 _ (quantityGrams o) (quantityGrams o) 0 H2
                (Qeq_refl _) Hq0 Hgrid) as [Hg Hm].
    rewrite Hal in Hg, Hm. cbn [fst] in Hg, Hm.
    split; cbn [invoices inventory].
    + exact Hg.
    + cbn [rev]. rewrite fold_left_app. cbn [fold_left].
      unfold sellFrom at 1. cbn [type withCogs quantityGrams]. rewrite Ht. exact Hm.
    + constructor; [exact H3 | exact Hl1].
    + apply (StronglySorted_transfer batchDate
               (fun d1 d2 => earlier getTime d1 d2 = true) (inventory st));
        [apply drawn_dates; exact HF | exact H4].
    + constructor; [exists o; split; [exact Hin | reflexivity] | exact H5].
    + apply (Forall_transfer batchDate
               (fun d => exists x, In x (ops ++ [o]) /\ d = date x) (inventory st));
        [apply drawn_dates; exact HF | exact H6].
    + constructor; assumption.
Qed.

Lemma replayInv_run ops :
  chronological getTime ops ->
  Forall gridEntry ops ->
  Forall (fun o => String.leb (date o) today = true) ops ->
  replayInv getTime today ops (runLedger getTime initialState ops).
Proof.
  induction ops as [|o ops IH] using rev_ind; intros Hc Hg Ht.
  - apply replayInv_initial.
  - apply StronglySorted_snoc_inv in Hc as [Hc Hlate].
    apply Forall_app in Hg as [Hg Hgo]. apply Forall_app in Ht as [Ht Hto].
    inversion Hgo; subst. inversion Hto; subst.
    unfold runLedger. rewrite fold_left_app. cbn [fold_left].
    apply replayInv_step; auto.
Qed.

(** Where the replay and the ledger agree, on the rationals: for invoices
    submitted in the order of their dates, each dated after the one before
    and none after today, with positive quantities of whole milligrams,
    the replay at today returns the sum of the remaining quantity times
    the cost over the live lots. *)
Lemma replay_matches_ledger ops :
  chronological getTime ops ->
  Forall gridEntry ops ->
  Forall (fun o => String.leb (date o) today = true) ops ->
  let st := runLedger getTime initialState ops in
  exists v,
    calculateInventoryValueOnDate getTime (invoices st) today = Some v
    /\ v == fifoValue (inventory st).
Proof.
  intros Hc Hg Ht st.
  destruct (replayInv_run ops Hc Hg Ht) as [H1 H2 H3 _ _ _ H7]. fold st in H1, H2, H3, H7.
  rewrite replayer_total. eexists. split; [reflexivity|].
  unfold relevantInvoices.
  rewrite (filter_all (fun inv => String.leb (date inv) today)) by exact H7.
  rewrite jsSort_rev.
  - symmetry. apply mirrors_value; [apply gridInventory_stocked; exact H1 | exact H2].
  - eapply StronglySorted_weaken; [|exact H3]. apply earlier_after_date.
Qed.

End ReplayLedger.

(** ** Objects used as maps *)

Module JsObjectFacts.
Section JsObjectFacts.
Context {V : Type}.
Implicit Types (o : JsObject.t (V := V)) (k : string) (v : V).

Lemma get_set k k' v o :
  JsObject.get k (JsObject.set k' v o)
  = if String.eqb k k' then Some v else JsObject.get k o.
Proof.
  induction o as [|[k0 v0] o IH]; simpl.
  - destruct (String.eqb k k'); reflexivity.
  - destruct (String.eqb_spec k' k0) as [->|Hne]; simpl.
    + destruct (String.eqb k k0); reflexivity.
    + rewrite IH. destruct (String.eqb_spec k k0) as [->|Hne'].
      * destruct (String.eqb_spec k0 k') as [->|_]; [contradiction | reflexivity].
      * reflexivity.
Qed.

Lemma get_In k v o : JsObject.get k o = Some v -> In (k, v) o.
Proof.
  induction o as [|[k0 v0] o IH]; simpl; [discriminate|].
  destruct (String.eqb_spec k k0) as [->|Hne].
  - intros H. inversion H. left. reflexivity.
  - intros H. right. apply IH, H.
Qed.

Lemma set_keys_old k v o :
  In k (map fst o) -> map fst (JsObject.set k v o) = map fst o.
Proof.
  induction o as [|[k0 v0] o IH]; simpl; [contradiction|].
  intros Hin. destruct (String.eqb_spec k k0) as [Heq|Hne]; simpl.
  - rewrite Heq. reflexivity.
  - rewrite IH; [reflexivity|]. destruct Hin as [Heq|Hin]; [congruence | exact Hin].
Qed.

Lemma set_keys_new k v o :
  ~ In k (map fst o) -> map fst (JsObject.set k v o) = map fst o ++ [k].
Proof.
  induction o as [|[k0 v0] o IH]; simpl; [reflexivity|].
  intros Hn. destruct (String.eqb_spec k k0) as [Heq|Hne]; simpl.
  - exfalso. apply Hn. left. congruence.
  - rewrite IH; [reflexivity|]. intros Hin. apply Hn. right. exact Hin.
Qed.

Lemma set_NoDup k v o :
  List.NoDup (map fst o) -> List.NoDup (map fst (JsObject.set k v o)).
Proof.
  intros H. destruct (in_dec string_dec k (map fst o)) as [Hin|Hn].
  - rewrite set_keys_old by exact Hin. exact H.
  - rewrite set_keys_new by exact Hn.
    apply NoDup_ListNoDup. apply NoDup_ListNoDup in H.
    apply NoDup_app. split; [exact H|]. split.
    + intros x Hx Hx'. apply list_elem_of_In in Hx. apply list_elem_of_In in Hx'.
      destruct Hx' as [<-|[]]. contradiction.
    + apply NoDup_singleton.
Qed.

Lemma In_get k v o : List.NoDup (map fst o) -> In (k, v) o -> JsObject.get k o = Some v.
Proof.
  induction o as [|[k0 v0] o IH]; simpl; intros Hnd Hin; [contradiction|].
  inversion Hnd as [|? ? Hk0 Hnd']; subst.
  destruct Hin as [Heq|Hin].
  - inversion Heq; subst. rewrite String.eqb_refl. reflexivity.
  - destruct (String.eqb_spec k k0) as [->|Hne]; [|apply IH; assumption].
    exfalso. apply Hk0. apply (in_map fst) in Hin. exact Hin.
Qed.

Lemma Forall_set (P : string * V -> Prop) k v o :
  Forall P o -> P (k, v) -> Forall P (JsObject.set k v o).
Proof.
  intros Ho Hv. induction Ho as [|[k0 v0] o H0 Ho IH]; simpl.
  - constructor; [exact Hv | constructor].
  - destruct (String.eqb k k0); constructor; assumption.
Qed.

Lemma insertIndex_perm n (e : string * V) l :
  Permutation (JsObject.insertIndex n e l) ((n, e) :: l).
Proof.
  induction l as [|[m e'] l IH]; simpl; [reflexivity|].
  destruct (n <? m)%N; [reflexivity|]. rewrite IH. apply perm_swap.
Qed.

Lemma entries_perm o : Permutation (JsObject.entries o) o.
Proof.
  unfold JsObject.entries, JsObject.stringEntries.
  induction o as [|e o IH]; simpl; [reflexivity|].
  destruct (JsObject.arrayIndex (fst e)) as [n|].
  - rewrite insertIndex_perm. simpl. apply perm_skip, IH.
  - rewrite <- Permutation_middle. apply perm_skip, IH.
Qed.

Lemma In_values v o : In v (JsObject.values o) -> exists k, In (k, v) o.
Proof.
  unfold JsObject.values. intros H. apply in_map_iff in H as ([k v'] & Heq & Hin).
  simpl in Heq. subst v'. exists k.
  eapply Permutation_in; [apply entries_perm | exact Hin].
Qed.

End JsObjectFacts.
End JsObjectFacts.

(** ** Sorting by a key *)

Section SortKey.
Context {A : Type} (cmp : A -> A -> option Q) (key : A -> Q).
Hypothesis cmp_key : forall a b, exists v, cmp a b = Some v /\ v == key a - key b.

Lemma after_key a b : after cmp a b = true <-> key b < key a.
Proof.
  unfold after. destruct (cmp_key a b) as (v & -> & Hv).
  rewrite NumFacts.gtb_true, Hv. split; intros; lra.
Qed.

Lemma insertSorted_sorted x l :
  StronglySorted (fun a b => key a <= key b) l ->
  StronglySorted (fun a b => key a <= key b) (insertSorted cmp x l).
Proof.
  induction 1 as [|y l Hs IH Hall]; simpl.
  - constructor; constructor.
  - destruct (after cmp y x) eqn:Ha.
    + apply after_key in Ha.
      constructor; [constructor; assumption|].
      constructor; [lra|].
      eapply List.Forall_impl; [|exact Hall]. simpl. intros z Hz. lra.
    + assert (key y <= key x) as Hle.
      { destruct (Qlt_le_dec (key x) (key y)) as [Hlt|Hle]; [|exact Hle].
        apply after_key in Hlt. congruence. }
      constructor; [exact IH|].
      rewrite insertSorted_perm. constructor; assumption.
Qed.

Lemma jsSort_sorted l : StronglySorted (fun a b => key a <= key b) (jsSort cmp l).
Proof.
  unfold jsSort.
  assert (StronglySorted (fun a b => key a <= key b) []) as Hacc by constructor.
  revert Hacc. generalize (@nil A) as acc.
  induction l as [|x l IH]; intros acc Hacc; simpl; [exact Hacc|].
  apply IH, insertSorted_sorted, Hacc.
Qed.

End SortKey.

Lemma mapM_Forall {A B} (f : A -> option B) (P : B -> Prop) l :
  Forall (fun x => exists y, f x = Some y /\ P y) l ->
  exists k, mapM f l = Some k /\ Forall P k.
Proof.
  induction 1 as [|x l (y & Hy & Py) _ (k & Hk & Pk)]; simpl.
  - exists []. split; [reflexivity | constructor].
  - exists (y :: k). rewrite Hy. simpl. rewrite Hk. simpl.
    split; [reflexivity | constructor; assumption].
Qed.

(** The rows of a list that [mapM] has mapped. *)
Lemma mapM_rows {A B} (f : A -> option B) (R : A -> B -> Prop) l :
  Forall (fun x => exists y, f x = Some y /\ R x y) l ->
  exists k, mapM f l = Some k /\ Forall2 R l k.
Proof.
  induction 1 as [|x l (y & Hy & Ry) _ (k & Hk & Rk)]; simpl.
  - exists []. split; [reflexivity | constructor].
  - exists (y :: k). rewrite Hy. simpl. rewrite Hk. simpl.
    split; [reflexivity | constructor; assumption].
Qed.

Lemma Forall2_Qsum {A B} (f : A -> Q) (g : B -> Q) l k :
  Forall2 (fun x y => g y == f x) l k -> Qsum (map g k) == Qsum (map f l).
Proof. induction 1 as [|x y l k H _ IH]; simpl; [reflexivity|]. rewrite H, IH. reflexivity. Qed.

Lemma Forall2_map_eq {A B C} (f : A -> C) (g : B -> C) l k :
  Forall2 (fun x y => g y = f x) l k -> map g k = map f l.
Proof. induction 1 as [|x y l k H _ IH]; simpl; [reflexivity|]. rewrite H, IH. reflexivity. Qed.

Lemma Forall2_weaken {A B} (R R' : A -> B -> Prop) l k :
  (forall x y, R x y -> R' x y) -> Forall2 R l k -> Forall2 R' l k.
Proof. intros H. induction 1; constructor; auto. Qed.

Lemma NoDup_map_filter {A B} (f : A -> B) (p : A -> bool) l :
  List.NoDup (map f l) -> List.NoDup (map f (List.filter p l)).
Proof.
  induction l as [|x l IH]; simpl; intros H; [constructor|].
  inversion H as [|? ? Hx Hl]; subst.
  destruct (p x); [|apply IH, Hl].
  simpl. constructor; [|apply IH, Hl].
  intros Hin. apply Hx. apply in_map_iff in Hin as (y & Hy & Hin).
  apply List.filter_In in Hin as [Hin _]. apply in_map_iff. exists y. auto.
Qed.

(** ** Supplier statistics *)

Lemma fold_Qmin_le l : forall x, fold_left Qmin l x <= x
  /\ Forall (fun y => fold_left Qmin l x <= y) l.
Proof.
  induction l as [|y l IH]; intros x; simpl.
  - split; [apply Qle_refl | constructor].
  - destruct (IH (Qmin x y)) as [H1 H2].
    pose proof (Q.le_min_l x y). pose proof (Q.le_min_r x y).
    split; [lra|]. constructor; [lra | exact H2].
Qed.

Lemma fold_Qmax_ge l : forall x, x <= fold_left Qmax l x
  /\ Forall (fun y => y <= fold_left Qmax l x) l.
Proof.
  induction l as [|y l IH]; intros x; simpl.
  - split; [apply Qle_refl | constructor].
  - destruct (IH (Qmax x y)) as [H1 H2].
    pose proof (Q.le_max_l x y). pose proof (Q.le_max_r x y).
    split; [lra|]. constructor; [lra | exact H2].
Qed.

Lemma mathMin_le l lo : mathMin l = Some lo -> Forall (fun y => lo <= y) l.
Proof.
  destruct l as [|x l]; simpl; [discriminate|]. intros H. inversion H; subst.
  destruct (fold_Qmin_le l x) as [H1 H2]. constructor; assumption.
Qed.

Lemma mathMax_ge l hi : mathMax l = Some hi -> Forall (fun y => y <= hi) l.
Proof.
  destruct l as [|x l]; simpl; [discriminate|]. intros H. inversion H; subst.
  destruct (fold_Qmax_ge l x) as [H1 H2]. constructor; assumption.
Qed.

(** A weighted sum lies between the least and the greatest rate times the
    weight. *)
Lemma weighted_between lo hi pairs :
  Forall (fun p => 0 < fst p) pairs ->
  Forall (fun y => lo <= y) (map snd pairs) ->
  Forall (fun y => y <= hi) (map snd pairs) ->
  lo * Qsum (map fst pairs) <= Qsum (map (fun p => fst p * snd p) pairs)
  /\ Qsum (map (fun p => fst p * snd p) pairs) <= hi * Qsum (map fst pairs).
Proof.
  induction 1 as [|[q r] pairs Hq _ IH]; simpl; intros Hlo Hhi.
  - lra.
  - inversion Hlo; subst. inversion Hhi; subst. simpl in *.
    destruct IH as [IH1 IH2]; [assumption | assumption |].
    assert (lo * q <= q * r) by (rewrite (Qmult_comm lo q); apply Qmult_le_l; assumption).
    assert (q * r <= hi * q) by (rewrite (Qmult_comm hi q); apply Qmult_le_l; assumption).
    split; lra.
Qed.

Lemma tallies_add pairs data inv :
  tallies pairs data -> 0 < quantityGrams inv ->
  tallies (pairs ++ [(quantityGrams inv, ratePerGram inv)]) (addPurchase data inv).
Proof.
  intros (H1 & H2 & H3 & H4) Hq. unfold tallies, addPurchase. simpl.
  rewrite !map_app, !Qsum_app, H2, H3, H4. simpl.
  repeat split; try lra.
  apply Forall_app. split; [exact H1 | constructor; [exact Hq | constructor]].
Qed.

Lemma tallies_none : tallies [] noPurchase.
Proof. unfold tallies. simpl. repeat split; try constructor; lra. Qed.

(** The loop over the purchases against its steps on the entries. *)
Lemma supplierStep_own stats inv :
  JsObject.inherited (partyName inv) = false ->
  supplierStep stats inv = Some (supplierEntry stats inv).
Proof.
  intros Hn. unfold supplierStep, supplierEntry, JsObject.lookup. rewrite Hn.
  destruct (JsObject.get (partyName inv) stats); reflexivity.
Qed.

Lemma ownKeys_get {V} (o : JsObject.t (V := V)) k :
  ownKeys o -> JsObject.inherited k = true -> JsObject.get k o = None.
Proof.
  intros Ho Hk. destruct (JsObject.get k o) as [v|] eqn:Hg; [|reflexivity].
  apply JsObjectFacts.get_In in Hg.
  pose proof (proj1 (List.Forall_forall _ _) Ho _ Hg) as Hf. simpl in Hf. congruence.
Qed.

Lemma ownKeys_set {V} (o : JsObject.t (V := V)) k v :
  ownKeys o -> JsObject.inherited k = false -> ownKeys (JsObject.set k v o).
Proof. intros Ho Hk. apply JsObjectFacts.Forall_set; assumption. Qed.

Lemma supplierStep_inherited stats inv :
  ownKeys stats -> JsObject.inherited (partyName inv) = true ->
  supplierStep stats inv = None.
Proof.
  intros Ho Hn. unfold supplierStep, JsObject.lookup.
  rewrite (ownKeys_get _ _ Ho Hn), Hn. reflexivity.
Qed.

Lemma supplierLoop_own purchases : forall stats,
  Forall (fun i => JsObject.inherited (partyName i) = false) purchases ->
  supplierLoop purchases stats = Some (fold_left supplierEntry purchases stats).
Proof.
  induction purchases as [|inv rest IH]; intros stats Hp; [reflexivity|].
  inversion Hp; subst. cbn [supplierLoop fold_left].
  rewrite supplierStep_own by assumption. cbn [mbind option_bind]. apply IH. assumption.
Qed.

Lemma supplierLoop_inherited purchases : forall stats,
  ownKeys stats ->
  Exists (fun i => JsObject.inherited (partyName i) = true) purchases ->
  supplierLoop purchases stats = None.
Proof.
  induction purchases as [|inv rest IH]; intros stats Ho He; [inversion He|].
  cbn [supplierLoop].
  destruct (JsObject.inherited (partyName inv)) eqn:Hn.
  - rewrite supplierStep_inherited by assumption. reflexivity.
  - rewrite supplierStep_own by assumption. cbn [mbind option_bind].
    apply IH.
    + apply ownKeys_set; assumption.
    + inversion He; subst; [congruence | assumption].
Qed.

Lemma supplierStep_tallied stats inv :
  Forall (fun e => tallied (snd e)) stats -> 0 < quantityGrams inv ->
  Forall (fun e => tallied (snd e)) (supplierEntry stats inv).
Proof.
  intros Hs Hq. unfold supplierEntry.
  apply JsObjectFacts.Forall_set; [exact Hs|]. simpl.
  destruct (JsObject.get (partyName inv) stats) as [data|] eqn:Hget.
  - apply JsObjectFacts.get_In in Hget.
    destruct (proj1 (List.Forall_forall _ _) Hs _ Hget) as (pairs & Hne & Ht).
    exists (pairs ++ [(quantityGrams inv, ratePerGram inv)]). split.
    + destruct pairs; discriminate.
    + apply tallies_add; assumption.
  - exists ([] ++ [(quantityGrams inv, ratePerGram inv)]). split; [discriminate|].
    apply tallies_add; [apply tallies_none | exact Hq].
Qed.

Lemma supplierRow_bounds e :
  tallied (snd e) ->
  exists s, supplierRow e = Some s
    /\ minRate s <= avgRate s <= maxRate s
    /\ volatility s == maxRate s - minRate s
    /\ 0 <= volatility s.
Proof.
  destruct e as [n data]. intros (pairs & Hne & Hpos & Hr & Hg & Hc). simpl in *.
  unfold supplierRow.
  destruct (mathMin (rates data)) as [lo|] eqn:Hlo.
  2:{ destruct pairs; [contradiction|]. rewrite Hr in Hlo. discriminate. }
  destruct (mathMax (rates data)) as [hi|] eqn:Hhi.
  2:{ destruct pairs; [contradiction|]. rewrite Hr in Hhi. discriminate. }
  cbn [mbind option_bind].
  apply mathMin_le in Hlo. apply mathMax_ge in Hhi. rewrite Hr in Hlo, Hhi.
  destruct (weighted_between lo hi pairs Hpos Hlo Hhi) as [Hl Hh].
  assert (0 < Qsum (map fst pairs)) as Hsum.
  { destruct pairs as [|[q r] pairs]; [contradiction|]. simpl.
    inversion Hpos; subst. simpl in *.
    assert (0 <= Qsum (map fst pairs)).
    { apply Qsum_nonneg. apply List.Forall_forall. intros x Hx.
      apply in_map_iff in Hx as (p & <- & Hp).
      apply Qlt_le_weak. exact (proj1 (List.Forall_forall _ _) H2 p Hp). }
    lra. }
  num_case (Num.gtb (accGrams data) 0); [|lra].
  rewrite NumFacts.div_Some by lra. cbn [mbind option_bind].
  eexists. split; [reflexivity|]. cbn [minRate avgRate maxRate volatility].
  assert (lo <= accCost data / accGrams data).
  { apply Qle_shift_div_l; [lra|]. rewrite Hg, Hc. exact Hl. }
  assert (accCost data / accGrams data <= hi).
  { apply Qle_shift_div_r; [lra|]. rewrite Hg, Hc. exact Hh. }
  repeat split; try lra.
Qed.

(** The supplier statistics of purchases whose parties have names of
    their own, and of a list with a purchase whose party has not. *)
Lemma calculateSupplierStats_own invoices :
  Forall (fun i => type i = PURCHASE -> JsObject.inherited (partyName i) = false) invoices ->
  calculateSupplierStats invoices
  = (rows ← mapM supplierRow
             (JsObject.entries
                (fold_left supplierEntry (List.filter isPurchase invoices) []));
     Some (jsSort byVolume rows)).
Proof.
  intros Hown. unfold calculateSupplierStats.
  rewrite supplierLoop_own; [reflexivity|].
  apply List.Forall_forall. intros i Hi. apply List.filter_In in Hi as [Hi Ht].
  apply (proj1 (List.Forall_forall _ _) Hown i Hi).
  unfold isPurchase, isSale in Ht. destruct (type i); [reflexivity | discriminate].
Qed.

Lemma calculateSupplierStats_inherited invoices :
  Exists (fun i => type i = PURCHASE /\ JsObject.inherited (partyName i) = true) invoices ->
  calculateSupplierStats invoices = None.
Proof.
  intros Hex. unfold calculateSupplierStats.
  rewrite supplierLoop_inherited; [reflexivity | constructor |].
  apply List.Exists_exists in Hex as (i & Hi & Ht & Hn).
  apply List.Exists_exists. exists i. split; [|exact Hn].
  apply List.filter_In. split; [exact Hi|].
  unfold isPurchase, isSale. rewrite Ht. reflexivity.
Qed.

Lemma own_or_inherited invoices :
  Forall (fun i => type i = PURCHASE -> JsObject.inherited (partyName i) = false) invoices
  \/ Exists (fun i => type i = PURCHASE /\ JsObject.inherited (partyName i) = true)
            invoices.
Proof.
  induction invoices as [|i l [IH|IH]]; [left; constructor | | right; right; exact IH].
  destruct (type i) eqn:Ht; [|left; constructor; [intros H; congruence | exact IH]].
  destruct (JsObject.inherited (partyName i)) eqn:Hn.
  - right. left. split; assumption.
  - left. constructor; [intros _; exact Hn | exact IH].
Qed.

Lemma own_not_inherited invoices :
  Forall (fun i => type i = PURCHASE -> JsObject.inherited (partyName i) = false) invoices ->
  Exists (fun i => type i = PURCHASE /\ JsObject.inherited (partyName i) = true) invoices ->
  False.
Proof.
  intros Hall Hex. apply List.Exists_exists in Hex as (i & Hi & Ht & Hn).
  pose proof (proj1 (List.Forall_forall _ _) Hall i Hi Ht). congruence.
Qed.

(** C10, as amended.  When every purchase has a positive quantity, the
    supplier statistics are computed exactly when no purchase names a party
    that is an inherited property of the object of the entries; for such a
    name the call throws.  Every entry of a result has its least rate not
    above its greatest, a volatility, their difference, that is not
    negative, and its average rate between the two within the margin
    [slack] of the rounding. *)
Theorem supplier_rates_bracket_average invoices :
  Forall (fun i => type i = PURCHASE -> 0 < quantityGrams i) invoices ->
  (is_Some (calculateSupplierStats invoices)
   <-> Forall (fun i => type i = PURCHASE -> JsObject.inherited (partyName i) = false)
              invoices)
  /\ (forall rows,
        calculateSupplierStats invoices = Some rows ->
        Forall (fun s =>
                  minRate s - slack * (Qabs (minRate s) + Qabs (maxRate s)) <= avgRate s
                  /\ avgRate s <= maxRate s + slack * (Qabs (minRate s) + Qabs (maxRate s))
                  /\ minRate s <= maxRate s
                  /\ volatility s == maxRate s - minRate s
                  /\ 0 <= volatility s) rows).
Proof.
  intros Hv.
  set (purchases := List.filter isPurchase invoices).
  assert (Forall (fun i => 0 < quantityGrams i) purchases) as Hp.
  { apply List.Forall_forall. intros i Hi. apply List.filter_In in Hi as [Hi Ht].
    apply (proj1 (List.Forall_forall _ _) Hv i Hi).
    unfold isPurchase, isSale in Ht. destruct (type i); [reflexivity | discriminate]. }
  assert (Forall (fun e => tallied (snd e)) (fold_left supplierEntry purchases [])) as Hstats.
  { assert (Forall (fun e : string * SupplierAcc => tallied (snd e)) []) as Hnil
      by constructor.
    revert Hnil. generalize (@nil (string * SupplierAcc)) as stats.
    induction Hp as [|i l Hi _ IH]; intros stats Hs; simpl; [exact Hs|].
    apply IH, supplierStep_tallied; assumption. }
  destruct (mapM_Forall supplierRow
              (fun s => minRate s <= avgRate s <= maxRate s
                        /\ volatility s == maxRate s - minRate s
                        /\ 0 <= volatility s)
              (JsObject.entries (fold_left supplierEntry purchases [])))
    as (rows0 & Hrows & Hall).
  { rewrite JsObjectFacts.entries_perm.
    eapply List.Forall_impl; [|exact Hstats]. intros e He.
    apply supplierRow_bounds, He. }
  assert (Forall (fun i => type i = PURCHASE -> JsObject.inherited (partyName i) = false)
                 invoices
          -> calculateSupplierStats invoices = Some (jsSort byVolume rows0)) as Hsome.
  { intros Hown. rewrite (calculateSupplierStats_own _ Hown). fold purchases.
    rewrite Hrows. reflexivity. }
  split.
  - split.
    + intros [rows Hr].
      destruct (own_or_inherited invoices) as [Hown|Hnot]; [exact Hown|].
      rewrite (calculateSupplierStats_inherited _ Hnot) in Hr. discriminate.
    + intros Hown. rewrite (Hsome Hown). eexists. reflexivity.
  - intros rows Hr.
    destruct (own_or_inherited invoices) as [Hown|Hnot].
    2:{ rewrite (calculateSupplierStats_inherited _ Hnot) in Hr. discriminate. }
    rewrite (Hsome Hown) in Hr. inversion Hr; subst rows.
    rewrite jsSort_perm.
    eapply List.Forall_impl; [|exact Hall]. intros s ([H1 H2] & H3 & H4).
    pose proof (Qabs_nonneg (minRate s)). pose proof (Qabs_nonneg (maxRate s)).
    unfold slack. repeat split; try assumption; lra.
Qed.

(** ** Customer statistics *)

Lemma gtb_proper x x' y y' : x == x' -> y == y' -> Num.gtb x y = Num.gtb x' y'.
Proof.
  intros Hx Hy. num_case (Num.gtb x y); num_case (Num.gtb x' y'); try reflexivity; lra.
Qed.

Lemma basePattern_proper a a' c c' :
  a == a' -> c == c' -> basePattern a c = basePattern a' c'.
Proof.
  intros Ha Hc. unfold basePattern.
  rewrite (gtb_proper a a' 100 100 Ha (Qeq_refl _)).
  rewrite (gtb_proper c c' 5 5 Hc (Qeq_refl _)). reflexivity.
Qed.

Lemma patternSuffix_proper m m' : m == m' -> patternSuffix m = patternSuffix m'.
Proof.
  intros Hm. unfold patternSuffix, Num.ltb.
  assert (Qle_bool (1 # 2) m = Qle_bool (1 # 2) m') as ->.
  { pose proof (gtb_proper (1 # 2) (1 # 2) m m' (Qeq_refl _) Hm) as H.
    unfold Num.gtb in H. apply (f_equal negb) in H. rewrite !negb_involutive in H.
    exact H. }
  rewrite (gtb_proper m m' 2 2 Hm (Qeq_refl _)). reflexivity.
Qed.

(** The loop over the invoices against its steps on the entries: the
    invoices of a party whose name is an inherited property leave no
    trace. *)
Lemma customerStep_own o inv :
  JsObject.inherited (partyName inv) = false -> customerStep o inv = customerEntry o inv.
Proof.
  intros Hn. unfold customerStep, customerEntry, JsObject.lookup. rewrite Hn.
  destruct (JsObject.get (partyName inv) o); reflexivity.
Qed.

Lemma customerStep_inherited o inv :
  ownKeys o -> JsObject.inherited (partyName inv) = true -> customerStep o inv = o.
Proof.
  intros Ho Hn. unfold customerStep, JsObject.lookup.
  rewrite (ownKeys_get _ _ Ho Hn), Hn. reflexivity.
Qed.

Lemma fold_customerStep invs : forall o,
  ownKeys o ->
  fold_left customerStep invs o = fold_left customerEntry (List.filter ownName invs) o
  /\ ownKeys (fold_left customerStep invs o).
Proof.
  induction invs as [|inv invs IH]; intros o Ho; [split; [reflexivity | exact Ho]|].
  cbn [fold_left List.filter]. unfold ownName at 1.
  destruct (JsObject.inherited (partyName inv)) eqn:Hn; cbn [negb].
  - rewrite customerStep_inherited by assumption. apply IH, Ho.
  - rewrite customerStep_own by assumption. cbn [fold_left].
    apply IH. unfold customerEntry. apply ownKeys_set; assumption.
Qed.

(** The invoices of a party with a name of its own are all among the
    invoices of such parties. *)
Lemma ofParty_own n invs :
  JsObject.inherited n = false -> ofParty n (List.filter ownName invs) = ofParty n invs.
Proof.
  intros Hn. unfold ofParty. induction invs as [|i l IH]; [reflexivity|].
  cbn [List.filter]. unfold ownName at 1.
  destruct (String.eqb_spec n (partyName i)) as [He|Hne].
  - rewrite <- He, Hn. cbn [negb List.filter].
    rewrite He at 1. rewrite String.eqb_refl, IH. reflexivity.
  - destruct (negb (JsObject.inherited (partyName i))); cbn [List.filter]; [|exact IH].
    destruct (String.eqb_spec n (partyName i)); [contradiction | exact IH].
Qed.

Lemma get_fold_customer invs : forall o k,
  JsObject.get k (fold_left customerEntry invs o)
  = fold_left (entryStep k) invs (JsObject.get k o).
Proof.
  induction invs as [|inv invs IH]; intros o k; simpl; [reflexivity|].
  rewrite IH. f_equal. unfold customerEntry, entryStep.
  rewrite JsObjectFacts.get_set.
  destruct (String.eqb_spec k (partyName inv)) as [->|_]; [|reflexivity].
  destruct (JsObject.get (partyName inv) o); reflexivity.
Qed.

Lemma fold_customer_NoDup invs : forall o,
  List.NoDup (map fst o) -> List.NoDup (map fst (fold_left customerEntry invs o)).
Proof.
  induction invs as [|inv invs IH]; intros o Ho; simpl; [exact Ho|].
  apply IH. unfold customerEntry. apply JsObjectFacts.set_NoDup, Ho.
Qed.

Lemma gathers_nil n base : gathers n base [] base.
Proof.
  split; unfold partyCount, partyGrams, partySpend, partyProfit; simpl;
    try reflexivity; change (Qlength (@nil Invoice)) with 0; lra.
Qed.

Lemma gathers_skip n base inv l stat :
  String.eqb n (partyName inv) = false ->
  gathers n base l stat -> gathers n base (inv :: l) stat.
Proof.
  intros Hne [H1 H2 H3 H4 H5].
  split; unfold partyCount, partyGrams, partySpend, partyProfit, partySales, ofParty in *;
    cbn [List.filter]; rewrite ?Hne; assumption.
Qed.

Lemma gathers_tally n base inv l stat :
  String.eqb n (partyName inv) = true ->
  gathers n (tally base inv) l stat -> gathers n base (inv :: l) stat.
Proof.
  intros He [H1 H2 H3 H4 H5].
  split; unfold partyCount, partyGrams, partySpend, partyProfit, partySales, ofParty in *;
    cbn [List.filter]; rewrite ?He; cbn [tally name txCount totalGrams totalSpend
      profitContribution] in *.
  - exact H1.
  - rewrite Qlength_cons. lra.
  - cbn [List.filter]. destruct (isSale inv); cbn [map]; rewrite ?Qsum_cons; lra.
  - cbn [List.filter]. destruct (isSale inv); cbn [map]; rewrite ?Qsum_cons; lra.
  - cbn [List.filter]. destruct (isSale inv); cbn [map]; rewrite ?Qsum_cons; lra.
Qed.

Lemma entryStep_Some k invs : forall base,
  exists stat, fold_left (entryStep k) invs (Some base) = Some stat
               /\ gathers k base invs stat.
Proof.
  induction invs as [|inv invs IH]; intros base; simpl.
  - exists base. split; [reflexivity | apply gathers_nil].
  - unfold entryStep at 2.
    destruct (String.eqb k (partyName inv)) eqn:He.
    + destruct (IH (tally base inv)) as (stat & Hs & Hg).
      exists stat. split; [exact Hs | apply gathers_tally; assumption].
    + destruct (IH base) as (stat & Hs & Hg).
      exists stat. split; [exact Hs | apply gathers_skip; assumption].
Qed.

Lemma entryStep_None k invs stat :
  fold_left (entryStep k) invs None = Some stat ->
  gathers k (emptyCustomer k) invs stat /\ 1 <= partyCount k invs.
Proof.
  induction invs as [|inv invs IH]; simpl; [discriminate|].
  unfold entryStep at 2.
  destruct (String.eqb k (partyName inv)) eqn:He.
  - intros H. cbn [default] in H.
    destruct (entryStep_Some k invs (tally (emptyCustomer k) inv)) as (stat' & Hs & Hg).
    rewrite Hs in H. inversion H; subst.
    split; [apply gathers_tally; assumption|].
    unfold partyCount, ofParty. cbn [List.filter]. rewrite He, Qlength_cons.
    pose proof (Qlength_nonneg (List.filter (fun i => String.eqb k (partyName i)) invs)).
    lra.
  - intros H. destruct (IH H) as [Hg Hc]. split; [apply gathers_skip; assumption|].
    unfold partyCount, ofParty in *. cbn [List.filter]. rewrite He. exact Hc.
Qed.

(** What the row of a customer with a positive spend holds. *)
Lemma customerRow_pattern invs stat :
  gathers (name stat) (emptyCustomer (name stat)) invs stat ->
  1 <= partyCount (name stat) invs ->
  Num.gtb (totalSpend stat) 0 = true ->
  exists row,
    customerRow stat = Some row
    /\ name row = name stat
    /\ profitContribution row = profitContribution stat
    /\ txCount row == partyCount (name row) invs
    /\ 0 < partySpend (name row) invs
    /\ behaviorPattern row
       = Some (basePattern (partyGrams (name row) invs / partyCount (name row) invs)
                           (partyCount (name row) invs)
               +:+ patternSuffix (partyProfit (name row) invs
                                  / partySpend (name row) invs * 100)).
Proof.
  intros [_ Hc Hg Hs Hp] Hn Hpos. cbn [emptyCustomer txCount totalGrams totalSpend
    profitContribution] in *.
  unfold customerRow. rewrite Hpos. apply NumFacts.gtb_true in Hpos.
  rewrite (NumFacts.div_Some _ (totalSpend stat)) by lra. cbn [mbind option_bind].
  rewrite (NumFacts.div_Some _ (txCount stat)) by lra. cbn [mbind option_bind].
  assert (exists x, (if Num.gtb (totalGrams stat) 0
                     then Num.div (totalSpend stat) (totalGrams stat) else Some 0) = Some x)
    as (avgSell & ->).
  { num_case (Num.gtb (totalGrams stat) 0); [rewrite NumFacts.div_Some by lra|]; eauto. }
  assert (exists x, (if Num.gtb (totalGrams stat) 0
                     then Num.div (profitContribution stat) (totalGrams stat)
                     else Some 0) = Some x)
    as (avgProfit & ->).
  { num_case (Num.gtb (totalGrams stat) 0); [rewrite NumFacts.div_Some by lra|]; eauto. }
  cbn [mbind option_bind].
  eexists. split; [reflexivity|].
  cbn [name profitContribution txCount behaviorPattern].
  split; [reflexivity|]. split; [reflexivity|].
  split; [lra|]. split; [lra|].
  assert (totalGrams stat == partyGrams (name stat) invs) as Hg' by lra.
  assert (txCount stat == partyCount (name stat) invs) as Hc' by lra.
  assert (totalSpend stat == partySpend (name stat) invs) as Hs' by lra.
  assert (profitContribution stat == partyProfit (name stat) invs) as Hp' by lra.
  f_equal. f_equal.
  - apply basePattern_proper; [|exact Hc']. rewrite Hg', Hc'. reflexivity.
  - apply patternSuffix_proper. rewrite Hp', Hs'. reflexivity.
Qed.

Lemma patternSuffix_cases m :
  (patternSuffix m = " (Price Sensitive)" /\ m < 1 # 2)
  \/ (patternSuffix m = " (High Margin)" /\ 2 < m)
  \/ (patternSuffix m = "" /\ 1 # 2 <= m <= 2).
Proof.
  unfold patternSuffix.
  num_case (Num.ltb m (1 # 2)); [left; split; [reflexivity | assumption]|].
  num_case (Num.gtb m 2); [right; left; split; [reflexivity | assumption]|].
  right; right. repeat split; assumption.
Qed.

Lemma basePattern_cases a c :
  (basePattern a c = "Bulk Buyer" /\ 100 < a)
  \/ (basePattern a c = "Frequent" /\ a <= 100 /\ 5 < c)
  \/ (basePattern a c = "Regular" /\ a <= 100 /\ c <= 5).
Proof.
  unfold basePattern.
  num_case (Num.gtb a 100); [left; split; [reflexivity | assumption]|].
  num_case (Num.gtb c 5); [right; left | right; right]; repeat split; assumption.
Qed.

(** What the row of an entry with a positive spend holds. *)
Lemma customerRow_row stat :
  1 <= txCount stat -> Num.gtb (totalSpend stat) 0 = true ->
  exists row avgQty m,
    customerRow stat = Some row
    /\ name row = name stat /\ txCount row = txCount stat
    /\ totalGrams row = totalGrams stat /\ totalSpend row = totalSpend stat
    /\ profitContribution row = profitContribution stat
    /\ avgQtyPerTx row = Some avgQty /\ margin row = Some m
    /\ avgQty == totalGrams stat / txCount stat
    /\ m == profitContribution stat / totalSpend stat * 100
    /\ behaviorPattern row
       = Some (basePattern avgQty (txCount stat) +:+ patternSuffix m).
Proof.
  intros Hn Hpos. unfold customerRow. rewrite Hpos. apply NumFacts.gtb_true in Hpos.
  rewrite (NumFacts.div_Some _ (totalSpend stat)) by lra. cbn [mbind option_bind].
  rewrite (NumFacts.div_Some _ (txCount stat)) by lra. cbn [mbind option_bind].
  assert (exists x, (if Num.gtb (totalGrams stat) 0
                     then Num.div (totalSpend stat) (totalGrams stat) else Some 0) = Some x)
    as (avgSell & ->).
  { num_case (Num.gtb (totalGrams stat) 0); [rewrite NumFacts.div_Some by lra|]; eauto. }
  assert (exists x, (if Num.gtb (totalGrams stat) 0
                     then Num.div (profitContribution stat) (totalGrams stat)
                     else Some 0) = Some x)
    as (avgProfit & ->).
  { num_case (Num.gtb (totalGrams stat) 0); [rewrite NumFacts.div_Some by lra|]; eauto. }
  cbn [mbind option_bind].
  eexists _, _, _. split; [reflexivity|].
  cbn [name txCount totalGrams totalSpend profitContribution avgQtyPerTx margin
       behaviorPattern].
  repeat split; reflexivity.
Qed.

(** The entries of [customerStats] after the loop: one for each party
    with a name of its own, with what the invoices of the party add up
    to. *)
Lemma customer_entries invs :
  let stats := fold_left customerStep invs [] in
  List.NoDup (map fst stats)
  /\ Forall (fun e => JsObject.inherited (fst e) = false
                      /\ name (snd e) = fst e
                      /\ gathers (fst e) (emptyCustomer (fst e)) invs (snd e)
                      /\ 1 <= partyCount (fst e) invs) stats
  /\ (forall n, JsObject.inherited n = false -> ofParty n invs <> [] ->
                exists stat, In (n, stat) stats).
Proof.
  cbv zeta.
  destruct (fold_customerStep invs []) as [Hfold Hown]; [constructor|].
  rewrite Hfold in *. set (own := List.filter ownName invs) in *.
  assert (List.NoDup (map fst (fold_left customerEntry own []))) as Hnd
    by (apply fold_customer_NoDup; constructor).
  split; [exact Hnd|]. split.
  - apply List.Forall_forall. intros [k stat] Hin. cbn [fst snd].
    pose proof (proj1 (List.Forall_forall _ _) Hown _ Hin) as Hk. cbn [fst] in Hk.
    apply JsObjectFacts.In_get in Hin; [|exact Hnd].
    rewrite get_fold_customer in Hin. simpl in Hin.
    apply entryStep_None in Hin as [Hg Hc].
    split; [exact Hk|]. split; [exact (g_name _ _ _ _ Hg)|].
    destruct Hg as [G1 G2 G3 G4 G5].
    unfold partyCount, partyGrams, partySpend, partyProfit, partySales, own in *.
    rewrite (ofParty_own k invs Hk) in *.
    split; [split; assumption | exact Hc].
  - intros n Hn Hne.
    assert (exists stat, fold_left (entryStep n) own None = Some stat) as (stat & Hs).
    { rewrite <- (ofParty_own n invs Hn) in Hne. fold own in Hne.
      clear -Hne. unfold ofParty in Hne.
      induction own as [|i l IH]; [contradiction|].
      cbn [fold_left List.filter] in *. unfold entryStep at 2.
      destruct (String.eqb n (partyName i)).
      - cbn [default]. destruct (entryStep_Some n l (tally (emptyCustomer n) i))
          as (stat & Hs & _). eauto.
      - apply IH, Hne. }
    exists stat.
    assert (JsObject.get n (fold_left customerEntry own []) = Some stat) as Hget
      by (rewrite get_fold_customer; exact Hs).
    apply JsObjectFacts.get_In, Hget.
Qed.

(** C7, as amended.  The customer statistics are computed without a fault
    and sorted by profit, greatest first.  There is one entry for each
    party with a positive spend whose name is not an inherited property of
    the object of the entries, and no other entry.  The count of an entry
    is the number of invoices of that party, purchases as well as sales,
    and its grams, spend and profit are those of the sales of the party;
    the average quantity is the grams over that count and the margin the
    profit over the spend, in percent.  The tag is "Bulk Buyer" when the
    average quantity exceeds 100, else "Frequent" when the count exceeds
    5, else "Regular"; and the suffix is " (Price Sensitive)" for a margin
    below 0.5, " (High Margin)" for one above 2, and nothing otherwise,
    never both. *)
Theorem customer_patterns filteredInvoices :
  exists rows,
    customerData filteredInvoices = Some rows
    /\ StronglySorted (fun a b => profitContribution b <= profitContribution a) rows
    /\ List.NoDup (map name rows)
    /\ (forall n, In n (map name rows)
                  <-> JsObject.inherited n = false
                      /\ 0 < partySpend n filteredInvoices)
    /\ Forall (fun row =>
         let n := name row in
         txCount row == partyCount n filteredInvoices
         /\ totalGrams row == partyGrams n filteredInvoices
         /\ totalSpend row == partySpend n filteredInvoices
         /\ profitContribution row == partyProfit n filteredInvoices
         /\ exists avgQty m,
              avgQtyPerTx row = Some avgQty /\ margin row = Some m
              /\ avgQty == totalGrams row / txCount row
              /\ m == profitContribution row / totalSpend row * 100
              /\ behaviorPattern row
                 = Some (basePattern avgQty (txCount row) +:+ patternSuffix m)) rows
    /\ (forall a c,
          (basePattern a c = "Bulk Buyer" /\ 100 < a)
          \/ (basePattern a c = "Frequent" /\ a <= 100 /\ 5 < c)
          \/ (basePattern a c = "Regular" /\ a <= 100 /\ c <= 5))
    /\ (forall m,
          (patternSuffix m = " (Price Sensitive)" /\ m < 1 # 2)
          \/ (patternSuffix m = " (High Margin)" /\ 2 < m)
          \/ (patternSuffix m = "" /\ 1 # 2 <= m <= 2)).
Proof.
  unfold customerData.
  destruct (customer_entries filteredInvoices) as (Hnd & Hent & Hall).
  set (stats := fold_left customerStep filteredInvoices []) in *.
  set (keep := fun stat : CustomerStat => Num.gtb (totalSpend stat) 0).
  set (P := fun row : CustomerStat =>
         txCount row == partyCount (name row) filteredInvoices
         /\ totalGrams row == partyGrams (name row) filteredInvoices
         /\ totalSpend row == partySpend (name row) filteredInvoices
         /\ profitContribution row == partyProfit (name row) filteredInvoices
         /\ exists avgQty m,
              avgQtyPerTx row = Some avgQty /\ margin row = Some m
              /\ avgQty == totalGrams row / txCount row
              /\ m == profitContribution row / totalSpend row * 100
              /\ behaviorPattern row
                 = Some (basePattern avgQty (txCount row) +:+ patternSuffix m)).
  assert (Forall (fun e => JsObject.inherited (fst e) = false
                      /\ name (snd e) = fst e
                      /\ gathers (fst e) (emptyCustomer (fst e)) filteredInvoices (snd e)
                      /\ 1 <= partyCount (fst e) filteredInvoices)
                 (JsObject.entries stats)) as Hente
    by (rewrite JsObjectFacts.entries_perm; exact Hent).
  destruct (mapM_rows customerRow
              (fun stat row => name row = name stat /\ P row)
              (List.filter keep (JsObject.values stats)))
    as (rows & Hrows & HF).
  { apply List.Forall_forall. intros stat Hin.
    apply List.filter_In in Hin as [Hin Hpos].
    unfold JsObject.values in Hin. apply in_map_iff in Hin as (e & <- & He).
    destruct (proj1 (List.Forall_forall _ _) Hente e He) as (_ & Hname & Hg & Hc).
    destruct Hg as [_ G2 G3 G4 G5].
    cbn [emptyCustomer txCount totalGrams totalSpend profitContribution] in *.
    assert (1 <= txCount (snd e)) as Hc' by lra.
    destruct (customerRow_row (snd e) Hc' Hpos)
      as (row & a & m & Hrow & R1 & R2 & R3 & R4 & R5 & R6 & R7 & R8 & R9 & R10).
    exists row. split; [exact Hrow|]. split; [exact R1|]. unfold P.
    rewrite R1, R2, R3, R4, R5, Hname.
    repeat split; try lra.
    exists a, m. repeat split; assumption. }
  rewrite Hrows. cbn [mbind option_bind].
  eexists. split; [reflexivity|].
  pose proof (jsSort_perm byProfit rows) as Hperm.
  assert (map name rows = map name (List.filter keep (JsObject.values stats))) as Hnames.
  { apply Forall2_map_eq. eapply Forall2_weaken; [|exact HF]. intros x y (H & _). exact H. }
  assert (map (fun e => name (snd e)) (JsObject.entries stats)
          = map fst (JsObject.entries stats)) as Hkeys.
  { apply map_ext_in. intros e He.
    exact (proj1 (proj2 (proj1 (List.Forall_forall _ _) Hente e He))). }
  split; [|split; [|split; [|split;
    [|split; [apply basePattern_cases | apply patternSuffix_cases]]]]].
  - apply (StronglySorted_weaken
             (fun a b => - profitContribution a <= - profitContribution b)).
    + intros a b H. lra.
    + apply (jsSort_sorted byProfit (fun a => - profitContribution a)).
      intros a b. eexists. split; [reflexivity|]. lra.
  - apply NoDup_ListNoDup. rewrite Hperm. apply NoDup_ListNoDup.
    rewrite Hnames. apply NoDup_map_filter. unfold JsObject.values.
    rewrite map_map, Hkeys.
    apply NoDup_ListNoDup. rewrite JsObjectFacts.entries_perm.
    apply NoDup_ListNoDup, Hnd.
  - intros n.
    assert (In n (map name (jsSort byProfit rows)) <-> In n (map name rows)) as ->.
    { split; intros H; apply in_map_iff in H as (r & <- & Hr); apply in_map_iff;
        exists r; (split; [reflexivity|]).
      - apply (Permutation_in _ Hperm), Hr.
      - apply (Permutation_in _ (Permutation_sym Hperm)), Hr. }
    rewrite Hnames. split.
    + intros Hin. apply in_map_iff in Hin as (stat & <- & Hin).
      apply List.filter_In in Hin as [Hin Hpos].
      unfold JsObject.values in Hin. apply in_map_iff in Hin as (e & <- & He).
      destruct (proj1 (List.Forall_forall _ _) Hente e He) as (Hown & Hname & Hg & _).
      rewrite Hname. split; [exact Hown|].
      apply NumFacts.gtb_true in Hpos.
      pose proof (g_spend _ _ _ _ Hg) as Hs. cbn [emptyCustomer totalSpend] in Hs. lra.
    + intros [Hown Hpos].
      assert (ofParty n filteredInvoices <> []) as Hne.
      { intros Hnil. unfold partySpend, partySales in Hpos. rewrite Hnil in Hpos.
        simpl in Hpos. lra. }
      destruct (Hall n Hown Hne) as (stat & Hin).
      destruct (proj1 (List.Forall_forall _ _) Hent _ Hin) as (_ & Hname & Hg & _).
      cbn [fst snd] in Hname, Hg.
      apply in_map_iff. exists stat. split; [exact Hname|].
      apply List.filter_In. split.
      * unfold JsObject.values. apply in_map_iff. exists (n, stat). split; [reflexivity|].
        apply (Permutation_in _ (Permutation_sym (JsObjectFacts.entries_perm stats))), Hin.
      * unfold keep. apply NumFacts.gtb_true.
        pose proof (g_spend _ _ _ _ Hg) as Hs. cbn [emptyCustomer totalSpend] in Hs. lra.
  - rewrite Hperm. clear -HF. induction HF as [|x y l k [_ H] _ IH]; constructor; assumption.
Qed.

(** ** The code on a store *)

Module StoreFacts.
Import Store.

Implicit Types (h : gmap loc object).

Lemma bind_run {A B} (m : M A) (f : A -> M B) h :
  (m ≫= f) h = match m h with Some (x, h') => f x h' | None => None end.
Proof. reflexivity. Qed.

Lemma readInvoice_run h r inv :
  h !! r = Some (InvoiceObject inv) -> readInvoice r h = Some (inv, h).
Proof. intros H. unfold readInvoice. rewrite H. reflexivity. Qed.

Lemma readBatch_run h r b :
  h !! r = Some (BatchObject b) -> readBatch r h = Some (b, h).
Proof. intros H. unfold readBatch. rewrite H. reflexivity. Qed.

Lemma readArray_run h a refs :
  h !! a = Some (ArrayObject refs) -> readArray a h = Some (refs, h).
Proof. intros H. unfold readArray. rewrite H. reflexivity. Qed.

Lemma invoicesAt_mono h h' refs invs :
  h ⊆ h' -> invoicesAt h refs invs -> invoicesAt h' refs invs.
Proof.
  intros Hsub. induction 1 as [|r inv refs invs Hr _ IH]; constructor; [|exact IH].
  eapply lookup_weaken; eassumption.
Qed.

Lemma filterRefs_run p refs invs h :
  invoicesAt h refs invs ->
  exists kept, filterRefs p refs h = Some (kept, h)
               /\ invoicesAt h kept (List.filter p invs).
Proof.
  induction 1 as [|r inv refs invs Hr _ (kept & Hk & Hat)]; simpl.
  - exists []. split; [reflexivity | constructor].
  - rewrite bind_run, (readInvoice_run _ _ _ Hr), bind_run, Hk.
    destruct (p inv); eexists; (split; [reflexivity|]); [constructor|]; assumption.
Qed.

Lemma mapM_readInvoice h refs invs :
  invoicesAt h refs invs -> mapM readInvoice refs h = Some (invs, h).
Proof.
  induction 1 as [|r inv refs invs Hr _ IH]; simpl; [reflexivity|].
  rewrite bind_run, (readInvoice_run _ _ _ Hr), bind_run, IH. reflexivity.
Qed.

Lemma mapM_readBatch h refs bs :
  Forall2 (fun r b => h !! r = Some (BatchObject b)) refs bs ->
  mapM readBatch refs h = Some (bs, h).
Proof.
  induction 1 as [|r b refs bs Hr _ IH]; simpl; [reflexivity|].
  rewrite bind_run, (readBatch_run _ _ _ Hr), bind_run, IH. reflexivity.
Qed.

(** Sorting pairs by their second component sorts the second components. *)
Lemma insertSorted_map {A B} (f : A -> B) cmp x l :
  map f (insertSorted (fun a b => cmp (f a) (f b)) x l)
  = insertSorted cmp (f x) (map f l).
Proof.
  induction l as [|y l IH]; simpl; [reflexivity|].
  unfold after. destruct (cmp (f y) (f x)) as [v|]; simpl.
  - destruct (Num.gtb v 0); simpl; [reflexivity | rewrite IH; reflexivity].
  - rewrite IH. reflexivity.
Qed.

Lemma jsSort_map {A B} (f : A -> B) cmp l :
  map f (jsSort (fun a b => cmp (f a) (f b)) l) = jsSort cmp (map f l).
Proof.
  unfold jsSort.
  change (@nil B) with (map f []). generalize (@nil A) as acc.
  induction l as [|x l IH]; intros acc; simpl; [reflexivity|].
  rewrite IH, insertSorted_map. reflexivity.
Qed.

Lemma invoicesAt_zip h refs invs :
  invoicesAt h refs invs ->
  Forall (fun p => h !! fst p = Some (InvoiceObject (snd p))) (zip refs invs)
  /\ map snd (zip refs invs) = invs.
Proof.
  induction 1 as [|r inv refs invs Hr _ [IH1 IH2]]; simpl.
  - split; [constructor | reflexivity].
  - split; [constructor; assumption | rewrite IH2; reflexivity].
Qed.

Lemma invoicesAt_pairs h (l : list (loc * Invoice)) :
  Forall (fun p => h !! fst p = Some (InvoiceObject (snd p))) l ->
  invoicesAt h (map fst l) (map snd l).
Proof. induction 1; simpl; constructor; assumption. Qed.

Lemma invoicesAt_apart h a items refs invs :
  h !! a = Some (ArrayObject items) -> invoicesAt h refs invs -> ~ In a refs.
Proof.
  intros Ha Hat Hin. induction Hat as [|r inv refs invs Hr _ IH]; [contradiction|].
  destruct Hin as [->|Hin]; [congruence | auto].
Qed.

Lemma invoicesAt_insert h a o refs invs :
  ~ In a refs -> invoicesAt h refs invs -> invoicesAt (<[a:=o]> h) refs invs.
Proof.
  intros Hn. induction 1 as [|r inv refs invs Hr _ IH]; constructor.
  - rewrite lookup_insert_ne; [exact Hr|]. intros ->. apply Hn. left. reflexivity.
  - apply IH. intros Hin. apply Hn. right. exact Hin.
Qed.

Lemma arraySort_run cmp h a refs invs :
  h !! a = Some (ArrayObject refs) -> invoicesAt h refs invs ->
  exists refs',
    arraySort cmp a h = Some (a, <[a:=ArrayObject refs']> h)
    /\ invoicesAt (<[a:=ArrayObject refs']> h) refs' (jsSort cmp invs).
Proof.
  intros Ha Hat. unfold arraySort.
  rewrite bind_run, (readArray_run _ _ _ Ha), bind_run, (mapM_readInvoice _ _ _ Hat).
  cbn zeta. rewrite bind_run. unfold store at 1. cbn iota beta.
  eexists. split; [reflexivity|].
  destruct (invoicesAt_zip _ _ _ Hat) as [Hz Hs].
  set (sorted := jsSort (fun x y => cmp (snd x) (snd y)) (zip refs invs)).
  assert (Forall (fun p => h !! fst p = Some (InvoiceObject (snd p))) sorted) as Hsorted.
  { unfold sorted. rewrite jsSort_perm. exact Hz. }
  apply invoicesAt_pairs in Hsorted.
  unfold sorted in Hsorted at 2. rewrite jsSort_map, Hs in Hsorted.
  apply invoicesAt_insert; [|exact Hsorted].
  eapply invoicesAt_apart; eassumption.
Qed.

Lemma fresh_None h : h !! fresh (dom h) = None.
Proof. apply not_elem_of_dom, is_fresh. Qed.

Lemma batchesAt_insert h l o refs bs :
  ~ In l refs ->
  Forall2 (fun r b => h !! r = Some (BatchObject b)) refs bs ->
  Forall2 (fun r b => <[l:=o]> h !! r = Some (BatchObject b)) refs bs.
Proof.
  intros Hn. induction 1 as [|r b refs bs Hr _ IH]; constructor.
  - rewrite lookup_insert_ne; [exact Hr|]. intros ->. apply Hn. left. reflexivity.
  - apply IH. intros Hin. apply Hn. right. exact Hin.
Qed.

Lemma batchesAt_bound h refs bs l :
  Forall2 (fun r b => h !! r = Some (BatchObject b)) refs bs ->
  h !! l = None -> ~ In l refs.
Proof.
  intros Hat Hl Hin. induction Hat as [|r x refs bs Hr _ IH]; [contradiction|].
  destruct Hin as [->|Hin]; [congruence | auto].
Qed.

Lemma scratchAt_empty h0 h :
  h0 ⊆ h -> scratchAt h0 (<[fresh (dom h):=ArrayObject []]> h) (fresh (dom h)) [].
Proof.
  intros Hsub. pose proof (fresh_None h) as Hf. split.
  - apply insert_subseteq_r; [|exact Hsub].
    eapply lookup_weaken_None; eassumption.
  - eapply lookup_weaken_None; eassumption.
  - exists []. rewrite lookup_insert_eq.
    repeat split; try constructor. intros [].
Qed.

Lemma scratch_push h0 h batches bs b :
  scratchAt h0 h batches bs ->
  exists h',
    (l ← alloc (BatchObject b); arrayPush batches l) h = Some (tt, h')
    /\ scratchAt h0 h' batches (bs ++ [b]).
Proof.
  intros [Hsub Hnew (refs & Ha & Hnd & Hnin & Hfresh & Hat)].
  pose proof (fresh_None h) as Hf. set (l := fresh (dom h)) in *.
  assert (l <> batches) as Hlb by (intros Heq; rewrite Heq in Hf; congruence).
  pose proof (batchesAt_bound _ _ _ _ Hat Hf) as Hlr.
  assert (h0 !! l = None) as Hl0 by (eapply lookup_weaken_None; eassumption).
  rewrite bind_run. unfold alloc. fold l. cbn iota beta zeta.
  unfold arrayPush. rewrite bind_run.
  rewrite (readArray_run _ _ refs) by (rewrite lookup_insert_ne; auto).
  unfold store. eexists. split; [reflexivity|].
  split.
  - do 2 (apply insert_subseteq_r; [assumption|]). exact Hsub.
  - exact Hnew.
  - exists (refs ++ [l]). rewrite lookup_insert_eq.
    split; [reflexivity|]. split; [|split; [|split]].
    + apply NoDup_ListNoDup, NoDup_app. apply NoDup_ListNoDup in Hnd.
      split; [exact Hnd|]. split; [|apply NoDup_singleton].
      intros x Hx Hx'. apply list_elem_of_In in Hx. apply list_elem_of_In in Hx'.
      destruct Hx' as [<-|[]]. contradiction.
    + intros Hin. apply in_app_or in Hin as [Hin|[Heq|[]]]; [contradiction | congruence].
    + apply Forall_app. split; [exact Hfresh | constructor; [exact Hl0 | constructor]].
    + apply Forall2_app.
      * apply batchesAt_insert; [exact Hnin|].
        apply batchesAt_insert; [exact Hlr | exact Hat].
      * constructor; [|constructor].
        rewrite lookup_insert_ne by auto. apply lookup_insert_eq.
Qed.

Lemma saleLoop_done fuel batches r h refs :
  h !! batches = Some (ArrayObject refs) ->
  Num.gtb r (1 # 1000000) && negb (Nat.eqb (length refs) 0) = false ->
  saleLoop fuel batches r h = Some (tt, h).
Proof.
  intros Ha Hc. destruct fuel; simpl;
    rewrite bind_run, (readArray_run _ _ _ Ha), Hc; reflexivity.
Qed.

Lemma scratch_sale h0 batches bs : forall h fuel r,
  scratchAt h0 h batches bs ->
  (length bs < fuel)%nat ->
  exists h',
    saleLoop fuel batches r h = Some (tt, h')
    /\ scratchAt h0 h' batches (snd (consume r bs)).
Proof.
  induction bs as [|b rest IH]; intros h fuel r Hsc Hfuel.
  - destruct Hsc as [Hsub Hnew (refs & Ha & Hnd & Hnin & Hfresh & Hat)].
    inversion Hat; subst.
    exists h. split.
    + apply (saleLoop_done _ _ _ _ [] Ha). apply andb_false_r.
    + simpl. split; [assumption | assumption |].
      exists []. repeat split; assumption.
  - destruct fuel as [|fuel]; [simpl in Hfuel; lia|].
    pose proof Hsc as [Hsub Hnew (refs & Ha & Hnd & Hnin & Hfresh & Hat)].
    inversion Hat as [|x ? refs' ? Hx Hat']; subst.
    cbn [consume].
    destruct (Num.gtb r (1 # 1000000)) eqn:Hr.
    2:{ exists h. split; [|exact Hsc].
        apply (saleLoop_done _ _ _ _ _ Ha). rewrite Hr. reflexivity. }
    cbn [saleLoop].
    rewrite bind_run, (readArray_run _ _ _ Ha), Hr. cbn [length Nat.eqb negb andb].
    rewrite bind_run, (readBatch_run _ _ _ Hx).
    inversion Hnd as [|? ? Hxn Hnd']; subst.
    inversion Hfresh as [|? ? Hx0 Hfresh']; subst.
    assert (x <> batches) as Hxb by (intros ->; apply Hnin; left; reflexivity).
    destruct (Num.gtb (quantity b) r) eqn:Hq.
    + (* the first pair covers the sale: its object is updated *)
      rewrite bind_run. unfold store at 1. cbn iota beta.
      set (b' := {| quantity := quantity b - r; cost := cost b |}).
      set (h1 := <[x:=BatchObject b']> h).
      assert (h1 !! batches = Some (ArrayObject (x :: refs'))) as Ha1
        by (unfold h1; rewrite lookup_insert_ne; auto).
      exists h1. split.
      * apply (saleLoop_done _ _ _ _ _ Ha1). reflexivity.
      * cbn [snd]. split.
        -- apply insert_subseteq_r; assumption.
        -- exact Hnew.
        -- exists (x :: refs'). split; [exact Ha1|].
           split; [exact Hnd|]. split; [exact Hnin|]. split; [exact Hfresh|].
           constructor; [apply lookup_insert_eq|].
           apply batchesAt_insert; assumption.
    + (* the first pair is used up: the array loses its first item *)
      rewrite bind_run. unfold arrayShift at 1.
      rewrite bind_run, (readArray_run _ _ _ Ha). unfold store at 1. cbn iota beta.
      cbn [tail].
      apply IH; [|simpl in Hfuel; lia].
      split.
      * apply insert_subseteq_r; assumption.
      * exact Hnew.
      * exists refs'. rewrite lookup_insert_eq. split; [reflexivity|].
        split; [exact Hnd'|].
        split; [intros Hin; apply Hnin; right; exact Hin|].
        split; [exact Hfresh'|].
        apply batchesAt_insert; [|exact Hat'].
        intros Hin. apply Hnin. right. exact Hin.
Qed.

Lemma scratch_replayOne h0 h batches bs r inv :
  scratchAt h0 h batches bs ->
  h0 !! r = Some (InvoiceObject inv) ->
  exists h',
    replayOne batches r h = Some (tt, h')
    /\ scratchAt h0 h' batches (sellFrom bs inv).
Proof.
  intros Hsc Hr. unfold replayOne, sellFrom.
  assert (h !! r = Some (InvoiceObject inv)) as Hr'
    by (eapply lookup_weaken; [exact Hr | apply (sc_frame _ _ _ _ Hsc)]).
  rewrite bind_run, (readInvoice_run _ _ _ Hr').
  destruct (type inv).
  - apply scratch_push, Hsc.
  - destruct (sc_refs _ _ _ _ Hsc) as (refs & Ha & _ & _ & _ & Hat).
    rewrite bind_run, (readArray_run _ _ _ Ha).
    apply scratch_sale; [exact Hsc|].
    apply Forall2_length in Hat. rewrite Hat. lia.
Qed.

Lemma scratch_forEach h0 batches refs invs : forall h bs,
  scratchAt h0 h batches bs ->
  invoicesAt h0 refs invs ->
  exists h',
    forEach (replayOne batches) refs h = Some (tt, h')
    /\ scratchAt h0 h' batches (fold_left sellFrom invs bs).
Proof.
  intros h bs Hsc Hat. revert h bs Hsc.
  induction Hat as [|r inv refs invs Hr _ IH]; intros h bs Hsc; simpl.
  - exists h. split; [reflexivity | exact Hsc].
  - destruct (scratch_replayOne _ _ _ _ _ _ Hsc Hr) as (h1 & Hrun & Hsc1).
    rewrite bind_run, Hrun. apply IH, Hsc1.
Qed.

(** The sale on a copy *)







Section Replayer.
Variable getTime : string -> option Z.

Lemma replayer_on_store h a invs targetDate :
  holds h a invs ->
  exists h',
    Store.calculateInventoryValueOnDate getTime a targetDate h
    = Some (batchesValue
              (fold_left sellFrom (relevantInvoices getTime invs targetDate) []), h')
    /\ h ⊆ h'.
Proof.
  intros (refs & Ha & Hat).
  unfold Store.calculateInventoryValueOnDate.
  (* filter *)
  rewrite bind_run. unfold arrayFilter.
  rewrite bind_run, (readArray_run _ _ _ Ha), bind_run.
  destruct (filterRefs_run (fun inv => String.leb (date inv) targetDate) _ _ _ Hat)
    as (kept & -> & Hkept).
  unfold alloc at 1. cbn iota beta zeta.
  pose proof (fresh_None h) as Hf. set (filtered := fresh (dom h)) in *.
  set (h1 := <[filtered:=ArrayObject kept]> h).
  assert (h ⊆ h1) as Hsub1 by (apply insert_subseteq; exact Hf).
  (* sort *)
  rewrite bind_run.
  destruct (arraySort_run (byDate getTime) h1 filtered kept
              (List.filter (fun inv => String.leb (date inv) targetDate) invs))
    as (sorted & -> & Hsorted).
  { unfold h1. apply lookup_insert_eq. }
  { eapply invoicesAt_mono; eassumption. }
  fold (relevantInvoices getTime invs targetDate) in Hsorted.
  unfold h1 in *. rewrite insert_insert_eq in *.
  set (h2 := <[filtered:=ArrayObject sorted]> h) in *.
  assert (h ⊆ h2) as Hsub2 by (apply insert_subseteq; exact Hf).
  assert (invoicesAt h sorted (relevantInvoices getTime invs targetDate)) as Hsorted0.
  { clear -Hsorted Hf. unfold h2 in Hsorted.
    induction Hsorted as [|r inv rs rest Hr _ IH]; constructor; [|exact IH].
    rewrite lookup_insert_ne in Hr; [exact Hr|]. intros <-.
    rewrite lookup_insert_eq in Hr. discriminate. }
  (* the scratch array *)
  rewrite bind_run. unfold alloc at 1. cbn iota beta zeta.
  pose proof (scratchAt_empty h h2 Hsub2) as Hsc.
  set (batches := fresh (dom h2)) in *.
  assert (batches <> filtered) as Hbf.
  { intros Heq. pose proof (fresh_None h2) as Hb. fold batches in Hb.
    rewrite Heq in Hb. unfold h2 in Hb. rewrite lookup_insert_eq in Hb. discriminate. }
  rewrite bind_run.
  rewrite (readArray_run _ _ sorted)
    by (rewrite lookup_insert_ne by exact Hbf; apply lookup_insert_eq).
  (* the loop *)
  destruct (scratch_forEach h _ _ _ _ _ Hsc Hsorted0) as (h3 & Hloop & Hsc3).
  rewrite bind_run, Hloop.
  destruct (sc_refs _ _ _ _ Hsc3) as (brefs & Hb & _ & _ & _ & Hbat).
  rewrite bind_run, (readArray_run _ _ _ Hb), bind_run, (mapM_readBatch _ _ _ Hbat).
  exists h3. split; [reflexivity | exact (sc_frame _ _ _ _ Hsc3)].
Qed.

End Replayer.

End StoreFacts.

Section PureReplayer.
Variable getTime : string -> option Z.

(** C5.  On a heap that holds the invoice array, the replay returns the
    value the pure function gives for the invoices and the date, whatever
    else the heap holds; every object of the heap before the call, the
    invoice array and the invoices among them, is the same after it; and a
    call with any date in between does not change the result. *)
Theorem replayer_pure (h : gmap Store.loc Store.object) a invs targetDate :
  Store.holds h a invs ->
  exists v h',
    Store.calculateInventoryValueOnDate getTime a targetDate h = Some (v, h')
    /\ calculateInventoryValueOnDate getTime invs targetDate = Some v
    /\ h ⊆ h'
    /\ Store.holds h' a invs
    /\ (forall otherDate v2 h2,
          Store.calculateInventoryValueOnDate getTime a otherDate h = Some (v2, h2) ->
          exists h3,
            Store.calculateInventoryValueOnDate getTime a targetDate h2 = Some (v, h3)).
Proof.
  intros Hh.
  assert (forall g, h ⊆ g -> Store.holds g a invs) as Hmono.
  { intros g Hg. destruct Hh as (refs & Ha & Hat). exists refs. split.
    - eapply lookup_weaken; eassumption.
    - eapply StoreFacts.invoicesAt_mono; eassumption. }
  destruct (StoreFacts.replayer_on_store getTime h a invs targetDate Hh) as (h' & Hrun & Hsub).
  eexists. exists h'. split; [exact Hrun|].
  split; [apply replayer_total|]. split; [exact Hsub|]. split; [apply Hmono, Hsub|].
  intros otherDate v2 h2 Hother.
  destruct (StoreFacts.replayer_on_store getTime h a invs otherDate Hh) as (g & Hg & Hsubg).
  rewrite Hg in Hother. inversion Hother; subst.
  destruct (StoreFacts.replayer_on_store getTime h2 a invs targetDate (Hmono _ Hsubg))
    as (h3 & H3 & _).
  exists h3. exact H3.
Qed.

End PureReplayer.

(** ** Rejected sales *)

Section Rejection.
Variable getTime : string -> option Z.


End Rejection.

(** * The scenarios *)

(** Order facts between the numbers of a scenario. *)
Ltac by_computing :=
  first [ reflexivity
        | exact I
        | (vm_compute; reflexivity)
        | (vm_compute; discriminate)
        | (vm_compute; intros H; discriminate H) ].

(** C1.  After purchases of 50g at 6000 and 50g at 6200, a sale of 60g at
    6500 takes 50g of the first lot at a cost of 300000, which empties and
    closes it on the date of the sale, and 10g of the second at a cost of
    62000, which leaves 40g; the sale is recorded with a cost of 362000
    and a profit of 390000 - 362000 = 28000. *)
Theorem scenario_two_lots :
  let st := handleAddInvoice isoTime Scenario.twoLots Scenario.sale60 in
  map remainingQuantity (inventory Scenario.twoLots) = [50; 50]
  /\ map costPerGram (inventory Scenario.twoLots) = [6000; 6200]
  /\ (exists lot1 lot2 lot1' lot2',
        inventory Scenario.twoLots = [lot1; lot2]
        /\ drawFrom Scenario.sale60 lot1 60 = (lot1', 50)
        /\ 50 * costPerGram lot1 = 300000
        /\ remainingQuantity lot1' = 0
        /\ closedDate lot1' = Some (date Scenario.sale60)
        /\ drawFrom Scenario.sale60 lot2 (60 - 50) = (lot2', 10)
        /\ 10 * costPerGram lot2 = 62000
        /\ remainingQuantity lot2' = 40
        /\ closedDate lot2' = None
        /\ inventory st = [lot1'; lot2'])
  /\ map cogs (invoices st) = [Some 362000; None; None]
  /\ map profit (invoices st) = [Some 28000; None; None]
  /\ quantityGrams Scenario.sale60 * ratePerGram Scenario.sale60 = 390000
  /\ 390000 - 362000 = 28000.
Proof.
  cbv zeta. split; [by_computing|]. split; [by_computing|]. split.
  - do 4 eexists. repeat split; by_computing.
  - repeat split; by_computing.
Qed.


(** The replay and the ledger part also for a purchase entered after a
    sale and dated before it: the purchase is replayed first, and the
    replay values the stock at 540000 while the live lots are worth
    490000. *)
Lemma backdated_purchase_breaks_replay :
  Forall (fun o => String.leb (date o) (Scenario.day "09") = true) Scenario.backdated
  /\ calculateInventoryValueOnDate isoTime
       (invoices (Scenario.ledger Scenario.backdated)) (Scenario.day "09")
     = Some 540000
  /\ fifoValue (inventory (Scenario.ledger Scenario.backdated)) = 490000
  /\ ~ replayConsistent isoTime (Scenario.day "09") Scenario.backdated.
Proof.
  split; [repeat constructor|]. split; [by_computing|]. split; [by_computing|].
  intros (v & Hv & Habs).
  vm_compute in Hv. inversion Hv; subst. vm_compute in Habs. apply Habs. reflexivity.
Qed.

(** C3.  The replay does not give the value of the live lots.  A
    purchase of 100g at 6000 and a sale of 50g, both dated 2024-01-01 and
    entered in that order, are both recorded and leave one lot of 50g,
    worth 300000.  The invoices are kept newest first and the sort by date
    of the replay is stable, so the replay at a later day takes the sale
    before the purchase of the same day: the sale finds no stock, and the
    replay values the stock at 600000. *)
Theorem same_day_sale_replayed_first :
  Forall (fun o => String.leb (date o) (Scenario.day "09") = true) Scenario.sameDay
  /\ map toastType (toasts (Scenario.ledger Scenario.sameDay)) = [SUCCESS; SUCCESS]
  /\ map id (invoices (Scenario.ledger Scenario.sameDay)) = ["s1"; "p1"]%string
  /\ map id (relevantInvoices isoTime (invoices (Scenario.ledger Scenario.sameDay))
               (Scenario.day "09"))
     = ["s1"; "p1"]%string
  /\ map remainingQuantity (inventory (Scenario.ledger Scenario.sameDay)) = [50]
  /\ fifoValue (inventory (Scenario.ledger Scenario.sameDay)) = 300000
  /\ calculateInventoryValueOnDate isoTime
       (invoices (Scenario.ledger Scenario.sameDay)) (Scenario.day "09")
     = Some 600000
  /\ ~ replayConsistent isoTime (Scenario.day "09") Scenario.sameDay.
Proof.
  split; [repeat constructor|]. do 6 (split; [by_computing|]).
  intros (v & Hv & Habs).
  vm_compute in Hv. inversion Hv; subst. vm_compute in Habs. apply Habs. reflexivity.
Qed.

(** The replay and the ledger at the two purchases and the sale of the
    first scenario, entered in the order of their dates. *)
Lemma replay_matches_ledger_witness :
  chronological isoTime Scenario.inOrder
  /\ Forall gridEntry Scenario.inOrder
  /\ Forall (fun o => String.leb (date o) (Scenario.day "09") = true) Scenario.inOrder
  /\ exists v,
       calculateInventoryValueOnDate isoTime
         (invoices (runLedger isoTime initialState Scenario.inOrder)) (Scenario.day "09")
       = Some v
       /\ v == fifoValue (inventory (runLedger isoTime initialState Scenario.inOrder)).
Proof.
  assert (chronological isoTime Scenario.inOrder) as Hc
    by (repeat constructor; by_computing).
  assert (Forall gridEntry Scenario.inOrder) as Hg.
  { repeat constructor; try by_computing.
    - exists 50000%Z. by_computing.
    - exists 50000%Z. by_computing.
    - exists 60000%Z. by_computing. }
  assert (Forall (fun o => String.leb (date o) (Scenario.day "09") = true)
                 Scenario.inOrder) as Ht by (repeat constructor).
  split; [exact Hc|]. split; [exact Hg|]. split; [exact Ht|].
  exact (replay_matches_ledger isoTime (Scenario.day "09") Scenario.inOrder Hc Hg Ht).
Defined.

(** C4 fails as stated: two sales within the tolerance of an empty stock
    are both committed and leave 0.002g more sold than bought. *)
Lemma tolerance_adds_up :
  Forall (fun i => 0 < quantityGrams i) Scenario.oversold
  /\ map toastType (toasts (Scenario.ledger Scenario.oversold))
     = [SUCCESS; SUCCESS; SUCCESS]
  /\ drift (Scenario.ledger Scenario.oversold) == - (2 # 1000)
  /\ ~ conserved (Scenario.ledger Scenario.oversold).
Proof.
  split; [repeat constructor|]. split; [by_computing|]. split; [by_computing|].
  intros H. vm_compute in H. apply H. reflexivity.
Qed.

(** C4, as amended, at the same three invoices. *)
Lemma conservation_up_to_drift_witness :
  Forall (fun i => 0 <= quantityGrams i) Scenario.oversold
  /\ (let st := runLedger isoTime initialState Scenario.oversold in
      let rounding := slack * (1 + purchased st) * Qlength (invoices st) in
      Forall (fun b => 0 <= remainingQuantity b <= originalQuantity b) (inventory st)
      /\ - (1 # 1000) * Qlength (List.filter isSale (invoices st)) - rounding <= drift st
      /\ drift st <= (1 # 10000) * Qlength (inventory st) + rounding).
Proof.
  assert (Forall (fun i => 0 <= quantityGrams i) Scenario.oversold) as Hv
    by (repeat constructor; by_computing).
  split; [exact Hv|].
  exact (conservation_up_to_drift isoTime Scenario.oversold Hv).
Defined.

(** C5 at a heap with an array of three invoices. *)
Lemma replayer_pure_witness :
  Store.holds Scenario.heap 1%positive Scenario.heapInvoices
  /\ exists v h',
       Store.calculateInventoryValueOnDate isoTime 1%positive (Scenario.day "09")
         Scenario.heap = Some (v, h')
       /\ calculateInventoryValueOnDate isoTime Scenario.heapInvoices (Scenario.day "09")
          = Some v
       /\ Scenario.heap ⊆ h'
       /\ Store.holds h' 1%positive Scenario.heapInvoices
       /\ (forall otherDate v2 h2,
             Store.calculateInventoryValueOnDate isoTime 1%positive otherDate
               Scenario.heap = Some (v2, h2) ->
             exists h3,
               Store.calculateInventoryValueOnDate isoTime 1%positive (Scenario.day "09")
                 h2 = Some (v, h3)).
Proof.
  assert (Store.holds Scenario.heap 1%positive Scenario.heapInvoices) as Hh.
  { exists [2; 3; 4]%positive. split; [reflexivity|]. repeat constructor. }
  split; [exact Hh|].
  exact (replayer_pure isoTime Scenario.heap 1%positive Scenario.heapInvoices
           (Scenario.day "09") Hh).
Defined.

(** The store after a replay: the value, and the invoice array as it was. *)
Lemma replay_on_the_heap :
  exists h',
    Store.calculateInventoryValueOnDate isoTime 1%positive (Scenario.day "09")
      Scenario.heap = Some (248000, h')
    /\ h' !! 1%positive = Some (Store.ArrayObject [2; 3; 4]%positive)
    /\ h' !! 5%positive = Some (Store.ArrayObject [4; 3; 2]%positive).
Proof. eexists. split; [vm_compute; reflexivity|]. split; reflexivity. Qed.

(** C6 at the three invoices of the first scenario and January 2024. *)
Lemma turnover_stats_witness :
  Forall validInvoice Scenario.heapInvoices
  /\ isoTime (Scenario.day "01") = Some 1704067200000%Z
  /\ isoTime (Scenario.day "31") = Some 1706659200000%Z
  /\ exists startValue endValue stats,
       calculateInventoryValueOnDate isoTime Scenario.heapInvoices (Scenario.day "01")
       = Some startValue
       /\ calculateInventoryValueOnDate isoTime Scenario.heapInvoices (Scenario.day "31")
          = Some endValue
       /\ calculateTurnoverStats isoTime Scenario.heapInvoices
            (Scenario.day "01") (Scenario.day "31") = Some stats
       /\ totalCOGS stats
          == cogsInPeriod Scenario.heapInvoices (Scenario.day "01") (Scenario.day "31")
       /\ avgInventoryValue stats == (startValue + endValue) / 2
       /\ turnoverRatio stats
          == (if Qeq_bool (avgInventoryValue stats) 0 then 0
              else totalCOGS stats / avgInventoryValue stats)
       /\ avgDaysToSell stats
          == (if Qeq_bool (turnoverRatio stats) 0 then 0
              else daysInRange 1704067200000 1706659200000 / turnoverRatio stats)
       /\ (exists empty,
             calculateTurnoverStats isoTime [] (Scenario.day "01") (Scenario.day "31")
             = Some empty
             /\ turnoverRatio empty == 0 /\ avgDaysToSell empty == 0
             /\ avgInventoryValue empty == 0 /\ totalCOGS empty == 0).
Proof.
  assert (Forall validInvoice Scenario.heapInvoices) as Hv
    by (repeat constructor; by_computing).
  split; [exact Hv|]. split; [reflexivity|]. split; [reflexivity|].
  exact (turnover_stats isoTime Scenario.heapInvoices (Scenario.day "01")
           (Scenario.day "31") _ _ Hv eq_refl eq_refl).
Defined.

(** C7 fails as stated: a party with five purchases and one sale is tagged
    "Frequent", its count being 6, where the sales alone give "Regular". *)
Lemma purchases_count_as_transactions :
  exists row,
    customerData Scenario.trader = Some [row]
    /\ name row = "Kiran"%string
    /\ length (partySales "Kiran" Scenario.trader) = 1%nat
    /\ txCount row = 6
    /\ behaviorPattern row = Some "Frequent (High Margin)"%string
    /\ claimedPattern "Kiran" Scenario.trader = "Regular (High Margin)"%string
    /\ behaviorPattern row <> Some (claimedPattern "Kiran" Scenario.trader).
Proof.
  eexists. split; [vm_compute; reflexivity|].
  repeat split; try by_computing.
Qed.

(** A sale within the tolerance closes the lots that have stock: a lot
    closed by an earlier sale keeps the date of that sale. *)
Lemma closed_lot_keeps_its_date :
  stocked (inventory Scenario.oneClosed)
  /\ currentStock (inventory Scenario.oneClosed) < quantityGrams Scenario.lastSale
  /\ quantityGrams Scenario.lastSale
     <= currentStock (inventory Scenario.oneClosed) + (1 # 1000)
  /\ map closedDate (inventory (handleAddInvoice isoTime Scenario.oneClosed
                                  Scenario.lastSale))
     = [Some (Scenario.day "04"); Some (Scenario.day "05")]
  /\ ~ allClosedOn (date Scenario.lastSale)
         (inventory (handleAddInvoice isoTime Scenario.oneClosed Scenario.lastSale)).
Proof.
  split; [repeat constructor; by_computing|].
  split; [by_computing|]. split; [by_computing|]. split; [by_computing|].
  intros H. vm_compute in H. inversion H as [|? ? [_ Hd] _]. discriminate Hd.
Qed.

(** C8, as amended, at a ledger with a lot that an earlier sale has closed
    and a sale of half a milligram more than the stock. *)
Lemma oversell_within_tolerance_witness :
  type Scenario.lastSale = SALE
  /\ stocked (inventory Scenario.oneClosed)
  /\ currentStock (inventory Scenario.oneClosed) < quantityGrams Scenario.lastSale
  /\ quantityGrams Scenario.lastSale + slack * quantityGrams Scenario.lastSale
     <= currentStock (inventory Scenario.oneClosed) + (1 # 1000)
  /\ exists c,
       handleAddInvoice isoTime Scenario.oneClosed Scenario.lastSale
       = addToast SUCCESS "Sale recorded. FIFO Logic Applied."
           {| invoices :=
                withCogs Scenario.lastSale c
                  (quantityGrams Scenario.lastSale * ratePerGram Scenario.lastSale - c)
                :: invoices Scenario.oneClosed;
              inventory := map (drain Scenario.lastSale) (inventory Scenario.oneClosed);
              toasts := toasts Scenario.oneClosed |}
       /\ c == fifoValue (inventory Scenario.oneClosed)
       /\ Forall (fun b => remainingQuantity b == 0)
                 (map (drain Scenario.lastSale) (inventory Scenario.oneClosed))
       /\ (forall b, 0 < remainingQuantity b ->
             closedDate (drain Scenario.lastSale b) = Some (date Scenario.lastSale))
       /\ (forall b, remainingQuantity b <= 0 -> drain Scenario.lastSale b = b).
Proof.
  assert (stocked (inventory Scenario.oneClosed)) as Hs
    by (repeat constructor; by_computing).
  assert (currentStock (inventory Scenario.oneClosed)
          < quantityGrams Scenario.lastSale) as H1 by by_computing.
  assert (quantityGrams Scenario.lastSale + slack * quantityGrams Scenario.lastSale
          <= currentStock (inventory Scenario.oneClosed) + (1 # 1000)) as H2
    by by_computing.
  split; [reflexivity|]. split; [exact Hs|]. split; [exact H1|]. split; [exact H2|].
  exact (oversell_within_tolerance isoTime Scenario.oneClosed Scenario.lastSale
           eq_refl Hs H1 H2).
Defined.

(** C9 fails as stated: a sale below the margin of the loop, though more
    than the stock, leaves the scratch list as it is. *)
Lemma dust_sale_leaves_the_scratch :
  entryOK Scenario.dustPurchase /\ entryOK Scenario.dustSale
  /\ replay [Scenario.dustPurchase] []
     = Some [{| quantity := 1 # 10000000; cost := 6000 |}]
  /\ replay [Scenario.dustPurchase; Scenario.dustSale] []
     = Some [{| quantity := 1 # 10000000; cost := 6000 |}]
  /\ ~ emptiesOnExcess [{| quantity := 1 # 10000000; cost := 6000 |}] Scenario.dustSale.
Proof.
  split; [split; by_computing|]. split; [split; by_computing|].
  split; [by_computing|]. split; [by_computing|].
  intros H. assert (Qsum (map quantity [{| quantity := 1 # 10000000; cost := 6000 |}])
                    < quantityGrams Scenario.dustSale) as Hlt by by_computing.
  specialize (H Hlt). vm_compute in H. discriminate H.
Qed.

(** C9, as amended, at the three invoices of the first scenario. *)
Lemma replayer_safe_witness :
  Forall entryOK Scenario.heapInvoices
  /\ exists v,
       calculateInventoryValueOnDate isoTime Scenario.heapInvoices (Scenario.day "09")
       = Some v /\ 0 <= v.
Proof.
  assert (Forall entryOK Scenario.heapInvoices) as Hv
    by (repeat constructor; by_computing).
  split; [exact Hv|].
  exact (proj1 (replayer_safe isoTime Scenario.heapInvoices (Scenario.day "09") Hv)).
Defined.

(** C10, as amended, at the two purchases of the first scenario. *)
Lemma supplier_rates_bracket_average_witness :
  Forall (fun i => type i = PURCHASE -> 0 < quantityGrams i) Scenario.inOrder
  /\ is_Some (calculateSupplierStats Scenario.inOrder)
  /\ (forall rows,
        calculateSupplierStats Scenario.inOrder = Some rows ->
        Forall (fun s =>
                  minRate s - slack * (Qabs (minRate s) + Qabs (maxRate s)) <= avgRate s
                  /\ avgRate s <= maxRate s + slack * (Qabs (minRate s) + Qabs (maxRate s))
                  /\ minRate s <= maxRate s
                  /\ volatility s == maxRate s - minRate s
                  /\ 0 <= volatility s) rows).
Proof.
  assert (Forall (fun i => type i = PURCHASE -> 0 < quantityGrams i) Scenario.inOrder)
    as Hv by (repeat constructor).
  split; [exact Hv|].
  destruct (supplier_rates_bracket_average Scenario.inOrder Hv) as [H1 H2].
  split; [|exact H2]. eexists. vm_compute. reflexivity.
Defined.

(** ** The code on doubles at its thresholds

    What the margin of the theorems leaves out: inputs at a threshold of
    the code, where the rounding of the doubles decides. *)


(** C8 fails as stated: three lots hold 342.072g, the sale asks for
    342.073g, and the doubles of these numbers differ by less than the
    tolerance 1e-3, in exact arithmetic and in the arithmetic of the code.
    The loop is left with 0.0010000000000047748g, which is above the
    tolerance: the sale is rejected. *)
Lemma rounding_rejects_within_tolerance :
  stockOf Rounding.threeLots < Double.toQ Rounding.sale342
  /\ Double.toQ Rounding.sale342 <= stockOf Rounding.threeLots + (1 # 1000)
  /\ PrimFloat.leb Rounding.sale342
                   (Double.currentStock Rounding.threeLots + Rounding.tolerance) = true
  /\ (exists newInventory remainingToSell totalCOGS,
        Double.allocate Rounding.threeLots Rounding.sale342 0
        = (newInventory, remainingToSell, totalCOGS)
        /\ 1 # 1000 < Double.toQ remainingToSell)
  /\ Double.handleAddInvoice Rounding.threeLots Rounding.sale342 = None
  /\ ~ commitsWithinTolerance Rounding.threeLots Rounding.sale342.
Proof.
  assert (stockOf Rounding.threeLots < Double.toQ Rounding.sale342) as H1
    by by_computing.
  assert (Double.toQ Rounding.sale342 <= stockOf Rounding.threeLots + (1 # 1000)) as H2
    by by_computing.
  split; [exact H1|]. split; [exact H2|]. split; [by_computing|]. split.
  - eexists _, _, _. split; [vm_compute; reflexivity | by_computing].
  - split; [by_computing|].
    intros H. destruct (H H1 H2) as [x Hx]. vm_compute in Hx. discriminate Hx.
Qed.

(** C10 fails as stated: for a supplier with one purchase of 3g at 6000.1
    the average rate of the code, [3 * 6000.1 / 3], is
    6000.1000000000013, above the greatest rate; at 6000.01 it is
    6000.0099999999993, below the least. *)
Lemma rounding_moves_the_average :
  (exists minRate avgRate maxRate,
     Double.supplierRow Rounding.dearPurchase = (minRate, avgRate, maxRate)
     /\ Double.toQ maxRate < Double.toQ avgRate)
  /\ (exists minRate avgRate maxRate,
        Double.supplierRow Rounding.cheapPurchase = (minRate, avgRate, maxRate)
        /\ Double.toQ avgRate < Double.toQ minRate)
  /\ ~ bracketsAverage Rounding.dearPurchase
  /\ ~ bracketsAverage Rounding.cheapPurchase.
Proof.
  split; [eexists _, _, _; split; [vm_compute; reflexivity | by_computing]|].
  split; [eexists _, _, _; split; [vm_compute; reflexivity | by_computing]|].
  split; intros H; vm_compute in H; destruct H as [H1 H2];
    [apply H2 | apply H1]; reflexivity.
Qed.

(** The total field: the rate for a total of 250000 and 7g gives back a
    taxable amount above 250000. *)
Example rounding_of_the_total_field :
  Double.toQ Rounding.total
  < Double.toQ (Double.handleTotalChange Rounding.total Rounding.sevenGrams).
Proof. by_computing. Qed.

(** The average age of one lot that is 3 days old is above 3. *)
Example rounding_of_the_average_age :
  3 < Double.toQ (Double.weightedAvgDays Rounding.youngLot).
Proof. by_computing. Qed.

(** Two profits of less than 0.5% of the taxable amount, in the numbers
    the doubles stand for: one raises the alert, the other does not. *)
Example rounding_of_the_margin :
  Double.toQ Rounding.profit685 < (5 # 1000) * Double.toQ Rounding.taxable1370
  /\ Double.belowMargin Rounding.profit685 Rounding.taxable1370 = false
  /\ Double.toQ Rounding.profit1647 < (5 # 1000) * Double.toQ Rounding.taxable3294
  /\ Double.belowMargin Rounding.profit1647 Rounding.taxable3294 = true.
Proof. repeat split; by_computing. Qed.

(** The average cost of one lot is below its cost, and at that cost as
    the market rate the return is 0. *)
Example rounding_of_the_average_cost :
  Double.toQ (Double.avgCost Rounding.cheapLot) < Double.toQ Rounding.cheapRate
  /\ Double.toQ (Double.roiPercentage Rounding.cheapLot Rounding.cheapRate) == 0.
Proof. split; by_computing. Qed.

(** ** The other scenarios of the specification *)

(** A sale of 40g from a lot of 100g at 6000: cost 240000, profit 20000,
    60g left and the lot open. *)
Example scenario_one_lot :
  let st := handleAddInvoice isoTime Scenario.oneLot Scenario.sale40 in
  map cogs (invoices st) = [Some 240000; None]
  /\ map profit (invoices st) = [Some 20000; None]
  /\ map remainingQuantity (inventory st) = [60]
  /\ map closedDate (inventory st) = [None].
Proof. repeat split; by_computing. Qed.

(** A sale from an empty inventory is rejected: no lot, no invoice. *)
Example scenario_no_stock :
  let st := handleAddInvoice isoTime initialState Scenario.sale10 in
  invoices st = [] /\ inventory st = []
  /\ map toastType (toasts st) = [ERROR]
  /\ submitInvoice isoTime None initialState "s1"
       {| formDate := Scenario.day "02"; formType := SALE; formPartyName := "Asha";
          formQuantityGrams := Some 10; formRatePerGram := Some 6500;
          formGstRate := Some 3 |} = initialState.
Proof. repeat split; by_computing. Qed.

(** The value as of day 1 is 600000 before and after a sale on day 10. *)
Example scenario_replay_after_sale :
  calculateInventoryValueOnDate isoTime (invoices Scenario.oneLot) (Scenario.day "01")
  = Some 600000
  /\ calculateInventoryValueOnDate isoTime
       (invoices (handleAddInvoice isoTime Scenario.oneLot Scenario.sale30))
       (Scenario.day "01")
     = Some 600000
  /\ calculateInventoryValueOnDate isoTime
       (invoices (handleAddInvoice isoTime Scenario.oneLot Scenario.sale30))
       (Scenario.day "10")
     = Some 420000.
Proof. repeat split; by_computing. Qed.

(** * More of the code *)
(** ** The loop of a sale, lot by lot *)

Lemma allocate_keys i inv : forall rts c,
  map lotKey (fst (fst (allocate i inv rts c))) = map lotKey inv.
Proof.
  induction inv as [|b rest IH]; intros rts c; [reflexivity|].
  rewrite allocate_cons.
  destruct (Num.leb rts 0); [reflexivity|].
  destruct (Num.gtb (remainingQuantity b) 0).
  - specialize (IH (rts - Qmin (remainingQuantity b) rts)
                   (c + Qmin (remainingQuantity b) rts * costPerGram b)).
    destruct (allocate i rest _ _) as [[rest' r] c']. simpl in *.
    rewrite IH. reflexivity.
  - specialize (IH rts c).
    destruct (allocate i rest rts c) as [[rest' r] c']. simpl in *.
    rewrite IH. reflexivity.
Qed.

Lemma allocate_Forall i (P P' : InventoryBatch -> Prop) inv :
  (forall b, P b -> P' b) ->
  (forall b rts, P b -> 0 < remainingQuantity b -> 0 < rts ->
                 P' (fst (drawFrom i b rts))) ->
  Forall P inv -> forall rts c, Forall P' (fst (fst (allocate i inv rts c))).
Proof.
  intros Hkeep Hdraw. induction 1 as [|b rest Hb Hrest IH]; intros rts c;
    [constructor|].
  rewrite allocate_cons.
  num_case (Num.leb rts 0).
  { simpl. constructor; [apply Hkeep, Hb|].
    eapply List.Forall_impl; [|exact Hrest]. exact Hkeep. }
  num_case (Num.gtb (remainingQuantity b) 0).
  - specialize (IH (rts - Qmin (remainingQuantity b) rts)
                   (c + Qmin (remainingQuantity b) rts * costPerGram b)).
    destruct (allocate i rest _ _) as [[rest' r] c']. simpl in *.
    constructor; [apply Hdraw; assumption | exact IH].
  - specialize (IH rts c).
    destruct (allocate i rest rts c) as [[rest' r] c']. simpl in *.
    constructor; [apply Hkeep, Hb | exact IH].
Qed.

(** What is left to sell after the loop. *)
Lemma allocate_left i inv : stocked inv -> forall rts c, 0 <= rts ->
  let r := snd (fst (allocate i inv rts c)) in
  (rts <= Qsum (remainingOf inv) -> r == 0)
  /\ (Qsum (remainingOf inv) <= rts -> r == rts - Qsum (remainingOf inv)).
Proof.
  induction 1 as [|b rest Hb Hrest IH]; intros rts c Hrts.
  - simpl. split; intros; lra.
  - cbv zeta. rewrite allocate_cons.
    pose proof (stocked_sum _ Hrest) as Hsum.
    unfold remainingOf in *. cbn [map]. rewrite Qsum_cons.
    num_case (Num.leb rts 0).
    { simpl. split; intros; lra. }
    num_case (Num.gtb (remainingQuantity b) 0).
    + destruct (Qlt_le_dec rts (remainingQuantity b)) as [Hlt|Hle].
      * rewrite (Qmin_r_eq _ _ Hlt).
        assert (0 <= rts - rts) as H0 by lra.
        specialize (IH (rts - rts) (c + rts * costPerGram b) H0).
        destruct (allocate i rest _ _) as [[rest' r] c']. simpl in *.
        destruct IH as [IH1 IH2]. split; intros; [apply IH1; lra | lra].
      * rewrite (Qmin_l_eq _ _ Hle).
        assert (0 <= rts - remainingQuantity b) as H0 by lra.
        specialize (IH (rts - remainingQuantity b)
                       (c + remainingQuantity b * costPerGram b) H0).
        destruct (allocate i rest _ _) as [[rest' r] c']. simpl in *.
        destruct IH as [IH1 IH2]. split; intros.
        -- apply IH1. lra.
        -- rewrite IH2 by lra. lra.
    + specialize (IH rts c Hrts).
      destruct (allocate i rest rts c) as [[rest' r] c']. simpl in *.
      destruct IH as [IH1 IH2]. split; intros.
      * apply IH1. lra.
      * rewrite IH2 by lra. lra.
Qed.

Section LedgerFacts.
Variable getTime : string -> option Z.

Lemma allocate_prefix i inv : stocked inv -> forall rts c,
  exists k,
    Forall (fun b => remainingQuantity b == 0)
           (take k (fst (fst (allocate i inv rts c))))
    /\ drop (S k) (fst (fst (allocate i inv rts c))) = drop (S k) inv.
Proof.
  induction 1 as [|b rest Hb Hrest IH]; intros rts c.
  - exists O. split; [constructor | reflexivity].
  - rewrite allocate_cons.
    num_case (Num.leb rts 0).
    { exists O. split; [constructor | reflexivity]. }
    num_case (Num.gtb (remainingQuantity b) 0).
    + destruct (Qlt_le_dec rts (remainingQuantity b)) as [Hlt|Hle].
      * rewrite (Qmin_r_eq _ _ Hlt).
        rewrite (allocate_break i rest (rts - rts)) by lra.
        exists O. split; [constructor | reflexivity].
      * destruct (IH (rts - Qmin (remainingQuantity b) rts)
                     (c + Qmin (remainingQuantity b) rts * costPerGram b))
          as (k & Hk1 & Hk2).
        destruct (allocate i rest _ _) as [[rest' r] c']. simpl in *.
        exists (S k). split; [|exact Hk2].
        cbn [take]. constructor; [|exact Hk1].
        rewrite (Qmin_l_eq _ _ Hle).
        num_case (Num.ltb (remainingQuantity b - remainingQuantity b) (1 # 10000));
          [reflexivity | lra].
    + destruct (IH rts c) as (k & Hk1 & Hk2).
      destruct (allocate i rest rts c) as [[rest' r] c']. simpl in *.
      exists (S k). split; [|exact Hk2].
      cbn [take]. constructor; [lra | exact Hk1].
Qed.

(** X1.  A sale draws on the lots in the order of the inventory: the lots
    it has passed are empty, at most one lot is drawn in part, and the
    lots behind that one are as they were.  No lot gains stock or changes
    its identifier, date, original quantity or cost, whether the sale is
    committed or rejected. *)
Theorem sale_draws_in_order st invoice :
  type invoice = SALE ->
  stocked (inventory st) ->
  let inv' := inventory (handleAddInvoice getTime st invoice) in
  (exists k,
      Forall (fun b => remainingQuantity b == 0) (take k inv')
      /\ drop (S k) inv' = drop (S k) (inventory st))
  /\ Forall2 drawn (inventory st) inv'.
Proof.
  intros Ht Hs. cbv zeta. rewrite (handleAddInvoice_sale _ _ _ Ht).
  pose proof (allocate_prefix invoice _ Hs (quantityGrams invoice) 0) as Hk.
  destruct (allocate invoice (inventory st) (quantityGrams invoice) 0)
    as [[newInventory r] c] eqn:Hal.
  cbn [fst] in Hk.
  destruct (Num.gtb r (1 # 1000)); cbn [inventory addToast].
  - split; [exists O; split; [constructor | reflexivity] | apply stocked_drawn, Hs].
  - split; [exact Hk|].
    destruct (Qlt_le_dec (quantityGrams invoice) 0) as [Hneg|Hpos].
    + rewrite allocate_break in Hal by lra. inversion Hal; subst.
      apply stocked_drawn, Hs.
    + destruct (allocate_spec invoice _ Hs _ _ _ _ _ Hpos Hal) as (_ & HF & _).
      exact HF.
Qed.

End LedgerFacts.

(** ** Sorting a list whose elements have keys *)

Section SortOn.
Context {A : Type} (cmp : A -> A -> option Q) (key : A -> Q) (P : A -> Prop).
Hypothesis cmp_key : forall a b, P a -> P b ->
  exists v, cmp a b = Some v /\ v == key a - key b.

Lemma after_key_on a b : P a -> P b -> (after cmp a b = true <-> key b < key a).
Proof.
  intros Ha Hb. unfold after. destruct (cmp_key a b Ha Hb) as (v & -> & Hv).
  rewrite NumFacts.gtb_true, Hv. split; intros; lra.
Qed.

Lemma insertSorted_sorted_on x l :
  P x -> Forall P l ->
  StronglySorted (fun a b => key a <= key b) l ->
  StronglySorted (fun a b => key a <= key b) (insertSorted cmp x l).
Proof.
  intros Hx Hl Hs. induction Hs as [|y l Hs IH Hall]; simpl.
  - constructor; constructor.
  - inversion Hl as [|? ? Hy Hl']; subst.
    destruct (after cmp y x) eqn:Ha.
    + apply (after_key_on y x Hy Hx) in Ha.
      constructor; [constructor; assumption|].
      constructor; [lra|].
      eapply List.Forall_impl; [|exact Hall]. simpl. intros z Hz. lra.
    + assert (key y <= key x) as Hle.
      { destruct (Qlt_le_dec (key x) (key y)) as [Hlt|Hle]; [|exact Hle].
        apply (after_key_on y x Hy Hx) in Hlt. congruence. }
      constructor; [exact (IH Hl')|].
      rewrite insertSorted_perm. constructor; assumption.
Qed.

Lemma jsSort_sorted_on l :
  Forall P l -> StronglySorted (fun a b => key a <= key b) (jsSort cmp l).
Proof.
  unfold jsSort. intros Hl.
  assert (StronglySorted (fun a b => key a <= key b) [] /\ Forall P [])
    as Hacc by (split; constructor).
  revert Hacc. generalize (@nil A) as acc.
  induction Hl as [|x l Hx Hl IH]; intros acc [Hacc HP]; simpl; [exact Hacc|].
  apply IH. split.
  - apply insertSorted_sorted_on; assumption.
  - rewrite insertSorted_perm. constructor; assumption.
Qed.

End SortOn.

Lemma StronglySorted_on {A} (R R' : A -> A -> Prop) (P : A -> Prop) l :
  (forall a b, P a -> P b -> R a b -> R' a b) ->
  Forall P l -> StronglySorted R l -> StronglySorted R' l.
Proof.
  intros Himp Hl Hs. induction Hs as [|x l Hs IH Hall]; constructor.
  - inversion Hl; subst. apply IH. assumption.
  - inversion Hl as [|? ? Hx Hl']; subst.
    apply List.Forall_forall. intros y Hy.
    apply Himp; [exact Hx | | ].
    + exact (proj1 (List.Forall_forall _ _) Hl' y Hy).
    + exact (proj1 (List.Forall_forall _ _) Hall y Hy).
Qed.

Section LedgerOrder.
Variable getTime : string -> option Z.

Lemma dateDiff_key d1 d2 :
  is_Some (getTime d1) -> is_Some (getTime d2) ->
  exists v, dateDiff getTime d1 d2 = Some v /\ v == timeOf getTime d1 - timeOf getTime d2.
Proof.
  intros [t1 H1] [t2 H2]. unfold dateDiff, timeOf. rewrite H1, H2. simpl.
  eexists. split; [reflexivity|].
  unfold Zminus. rewrite inject_Z_plus, inject_Z_opp. lra.
Qed.

Lemma timeOf_notAfter d1 d2 :
  is_Some (getTime d1) -> is_Some (getTime d2) ->
  timeOf getTime d1 <= timeOf getTime d2 -> notAfter getTime d1 d2 = true.
Proof.
  intros [t1 H1] [t2 H2]. unfold timeOf, notAfter. rewrite H1, H2. simpl.
  rewrite <- Zle_Qle. apply Z.leb_le.
Qed.

(** Sorting valid dates puts them in order. *)
Lemma sort_by_date {A} (dateOf : A -> string) (l : list A) :
  Forall (fun a => is_Some (getTime (dateOf a))) l ->
  StronglySorted (fun a b => notAfter getTime (dateOf a) (dateOf b) = true)
    (jsSort (fun a b => dateDiff getTime (dateOf a) (dateOf b)) l).
Proof.
  intros Hl.
  apply (StronglySorted_on (fun a b => timeOf getTime (dateOf a) <= timeOf getTime (dateOf b)) _
           (fun a => is_Some (getTime (dateOf a)))).
  - intros a b Ha Hb. apply timeOf_notAfter; assumption.
  - rewrite jsSort_perm. exact Hl.
  - apply (jsSort_sorted_on _ (fun a => timeOf getTime (dateOf a))
             (fun a => is_Some (getTime (dateOf a)))); [|exact Hl].
    intros a b Ha Hb. apply dateDiff_key; assumption.
Qed.

Lemma handleAddInvoice_keys st invoice :
  Permutation (map lotKey (inventory (handleAddInvoice getTime st invoice)))
    (map lotKey (inventory st)
     ++ (if isPurchase invoice then [purchaseKey invoice] else [])).
Proof.
  unfold isPurchase, isSale. destruct (type invoice) eqn:Ht; cbn [isSaleType negb].
  - unfold handleAddInvoice. rewrite Ht. cbn [inventory addToast].
    rewrite jsSort_perm, map_app. reflexivity.
  - rewrite (handleAddInvoice_sale _ _ _ Ht).
    pose proof (allocate_keys invoice (inventory st) (quantityGrams invoice) 0) as Hk.
    destruct (allocate invoice (inventory st) (quantityGrams invoice) 0)
      as [[newInventory r] c].
    cbn [fst] in Hk. rewrite app_nil_r.
    destruct (Num.gtb r (1 # 1000)); cbn [inventory addToast]; [reflexivity|].
    rewrite Hk. reflexivity.
Qed.

Lemma runLedger_keys ops : forall st,
  Permutation (map lotKey (inventory (runLedger getTime st ops)))
    (map lotKey (inventory st) ++ map purchaseKey (List.filter isPurchase ops)).
Proof.
  induction ops as [|o ops IH]; intros st; simpl.
  - rewrite app_nil_r. reflexivity.
  - unfold runLedger in *. rewrite IH, handleAddInvoice_keys.
    destruct (isPurchase o); cbn [map]; rewrite <- app_assoc; reflexivity.
Qed.

(** X2.  The lots are the purchases: after any sequence of submitted
    invoices there is one lot for each purchase, with the identifier,
    date, quantity and rate of that purchase, and no other lot.  A sale
    never adds or removes a lot. *)
Theorem one_lot_per_purchase ops :
  Permutation
    (map lotKey (inventory (runLedger getTime initialState ops)))
    (map purchaseKey (List.filter isPurchase ops)).
Proof. rewrite runLedger_keys. reflexivity. Qed.

Lemma lotKey_dates inv inv' :
  map lotKey inv' = map lotKey inv -> map batchDate inv' = map batchDate inv.
Proof.
  intros H. apply (f_equal (map (fun k => snd (fst (fst k))))) in H.
  rewrite !map_map in H. exact H.
Qed.

Lemma handleAddInvoice_sorted st invoice :
  (isPurchase invoice = true -> is_Some (getTime (date invoice))) ->
  Forall (fun b => is_Some (getTime (batchDate b))) (inventory st) ->
  StronglySorted (fun a b => notAfter getTime (batchDate a) (batchDate b) = true)
    (inventory st) ->
  Forall (fun b => is_Some (getTime (batchDate b)))
         (inventory (handleAddInvoice getTime st invoice))
  /\ StronglySorted (fun a b => notAfter getTime (batchDate a) (batchDate b) = true)
       (inventory (handleAddInvoice getTime st invoice)).
Proof.
  intros Hd Hv Hs. destruct (type invoice) eqn:Ht.
  - unfold handleAddInvoice. rewrite Ht. cbn [inventory addToast].
    assert (Forall (fun b => is_Some (getTime (batchDate b)))
                   (inventory st ++ [newBatch invoice])) as Hall.
    { apply Forall_app. split; [exact Hv|].
      constructor; [|constructor]. apply Hd.
      unfold isPurchase, isSale. rewrite Ht. reflexivity. }
    split; [rewrite jsSort_perm; exact Hall|].
    apply (sort_by_date batchDate). exact Hall.
  - rewrite (handleAddInvoice_sale _ _ _ Ht).
    pose proof (allocate_keys invoice (inventory st) (quantityGrams invoice) 0) as Hk.
    destruct (allocate invoice (inventory st) (quantityGrams invoice) 0)
      as [[newInventory r] c].
    cbn [fst] in Hk. apply lotKey_dates in Hk.
    destruct (Num.gtb r (1 # 1000)); cbn [inventory addToast]; [split; assumption|].
    split.
    + apply (Forall_transfer batchDate (fun d => is_Some (getTime d)) _ _ Hk Hv).
    + apply (StronglySorted_transfer batchDate
               (fun d1 d2 => notAfter getTime d1 d2 = true) _ _ Hk Hs).
Qed.

(** X3.  The inventory is kept oldest first: when the dates of the
    purchases are valid, then after any sequence of submitted invoices,
    in whatever order they were entered, no lot stands before a lot of an
    earlier date. *)
Theorem lots_kept_oldest_first ops :
  Forall (fun i => isPurchase i = true -> is_Some (getTime (date i))) ops ->
  StronglySorted (fun a b => notAfter getTime (batchDate a) (batchDate b) = true)
    (inventory (runLedger getTime initialState ops)).
Proof.
  intros Hv.
  assert (Forall (fun b => is_Some (getTime (batchDate b))) (inventory initialState)
          /\ StronglySorted
               (fun a b => notAfter getTime (batchDate a) (batchDate b) = true)
               (inventory initialState)) as Hinit by (split; constructor).
  revert Hinit. generalize initialState as st.
  induction Hv as [|o ops Ho _ IH]; intros st [H1 H2]; simpl; [exact H2|].
  apply IH. apply handleAddInvoice_sorted; assumption.
Qed.

End LedgerOrder.

Section LedgerBooks.
Variable getTime : string -> option Z.

Lemma openOrClosed_more sales sales' b :
  (forall s, In s sales -> In s sales') ->
  openOrClosed sales b -> openOrClosed sales' b.
Proof.
  intros Hsub [H|(H0 & s & Hs & Hsale & Hd)]; [left; exact H|].
  right. split; [exact H0|]. exists s. repeat split; auto.
Qed.

Lemma drawFrom_openOrClosed sales i b rts :
  isSale i = true ->
  openOrClosed sales b -> 0 < remainingQuantity b -> 0 < rts ->
  openOrClosed (sales ++ [i]) (fst (drawFrom i b rts)).
Proof.
  intros Hi [[Hc _]|[H0 _]] Hb Hr; [|rewrite H0 in Hb; lra].
  unfold openOrClosed, drawFrom. cbn [fst closedDate remainingQuantity].
  num_case (Num.ltb (remainingQuantity b - Qmin (remainingQuantity b) rts) (1 # 10000)).
  - right. split; [reflexivity|]. exists i. repeat split; auto.
    apply in_or_app. right. left. reflexivity.
  - left. split; [exact Hc | lra].
Qed.

Lemma handleAddInvoice_openOrClosed ops st invoice :
  (isPurchase invoice = true -> 0 < quantityGrams invoice) ->
  Forall (openOrClosed ops) (inventory st) ->
  Forall (openOrClosed (ops ++ [invoice]))
         (inventory (handleAddInvoice getTime st invoice)).
Proof.
  intros Hq Hinv.
  assert (forall b, openOrClosed ops b -> openOrClosed (ops ++ [invoice]) b) as Hmore.
  { intros b. apply openOrClosed_more. intros s Hs. apply in_or_app. left. exact Hs. }
  destruct (type invoice) eqn:Ht.
  - unfold handleAddInvoice. rewrite Ht. cbn [inventory addToast].
    rewrite jsSort_perm. apply Forall_app. split.
    + eapply List.Forall_impl; [|exact Hinv]. exact Hmore.
    + constructor; [|constructor]. left. split; [reflexivity|].
      cbn [newBatch remainingQuantity]. apply Hq.
      unfold isPurchase, isSale. rewrite Ht. reflexivity.
  - rewrite (handleAddInvoice_sale _ _ _ Ht).
    pose proof (allocate_Forall invoice (openOrClosed ops)
                  (openOrClosed (ops ++ [invoice])) (inventory st) Hmore) as Hal.
    specialize (Hal (fun b rts Hb => drawFrom_openOrClosed ops invoice b rts
                       ltac:(unfold isSale; rewrite Ht; reflexivity) Hb)
                    Hinv (quantityGrams invoice) 0).
    destruct (allocate invoice (inventory st) (quantityGrams invoice) 0)
      as [[newInventory r] c].
    cbn [fst] in Hal.
    destruct (Num.gtb r (1 # 1000)); cbn [inventory addToast]; [|exact Hal].
    eapply List.Forall_impl; [|exact Hinv]. exact Hmore.
Qed.

Lemma runLedger_snoc st ops o :
  runLedger getTime st (ops ++ [o])
  = handleAddInvoice getTime (runLedger getTime st ops) o.
Proof. unfold runLedger. rewrite fold_left_app. reflexivity. Qed.

(** X4.  A lot is closed exactly when it is empty: when every purchase
    has a positive quantity, then after any sequence of submitted
    invoices each lot either has stock and no closing date, or has
    exactly no stock and the date of one of the submitted sales as its
    closing date. *)
Theorem closed_exactly_when_empty ops :
  Forall (fun i => isPurchase i = true -> 0 < quantityGrams i) ops ->
  Forall (openOrClosed ops) (inventory (runLedger getTime initialState ops)).
Proof.
  induction ops as [|o ops IH] using rev_ind; intros Hv; [constructor|].
  apply Forall_app in Hv as [Hv Ho]. inversion Ho as [|? ? Hq _]; subst.
  rewrite runLedger_snoc. apply handleAddInvoice_openOrClosed; [exact Hq|].
  apply IH, Hv.
Qed.

Lemma handleAddInvoice_costed st invoice :
  costed invoice \/ type invoice = SALE ->
  Forall costed (invoices st) ->
  Forall costed (invoices (handleAddInvoice getTime st invoice)).
Proof.
  intros Hi Hinv. destruct (type invoice) eqn:Ht.
  - unfold handleAddInvoice. rewrite Ht. cbn [invoices addToast].
    constructor; [|exact Hinv].
    destruct Hi as [Hi|Hi]; [exact Hi | discriminate].
  - rewrite (handleAddInvoice_sale _ _ _ Ht).
    destruct (allocate invoice (inventory st) (quantityGrams invoice) 0)
      as [[newInventory r] c].
    destruct (Num.gtb r (1 # 1000)); cbn [invoices addToast]; [exact Hinv|].
    constructor; [|exact Hinv].
    intros _. exists c. split; reflexivity.
Qed.

Lemma purchase_costed i : type i = PURCHASE -> costed i.
Proof. intros Ht Hs. unfold isSale in Hs. rewrite Ht in Hs. discriminate. Qed.

Lemma runLedger_costed ops : forall st,
  Forall costed (invoices st) ->
  Forall costed (invoices (runLedger getTime st ops)).
Proof.
  induction ops as [|o ops IH]; intros st Hst; simpl; [exact Hst|].
  apply IH, handleAddInvoice_costed; [|exact Hst].
  destruct (type o) eqn:Ht; [left; apply purchase_costed, Ht | right; reflexivity].
Qed.

Lemma totalRevenueExTax_sum l :
  totalRevenueExTax l
  == Qsum (map (fun i => quantityGrams i * ratePerGram i) (List.filter isSale l)).
Proof.
  unfold totalRevenueExTax.
  assert (forall a, fold_left (fun acc inv =>
              if isSale inv then acc + quantityGrams inv * ratePerGram inv else acc) l a
            == a + Qsum (map (fun i => quantityGrams i * ratePerGram i)
                             (List.filter isSale l))) as H.
  { induction l as [|i l IH]; intros a; simpl; [lra|].
    rewrite IH. destruct (isSale i); simpl; lra. }
  rewrite H. lra.
Qed.

Lemma totalProfit_sum l :
  totalProfit l
  == Qsum (map (fun i => Num.orZero (profit i)) (List.filter isSale l)).
Proof.
  unfold totalProfit.
  assert (forall a, fold_left (fun acc inv =>
              if isSale inv then acc + Num.orZero (profit inv) else acc) l a
            == a + Qsum (map (fun i => Num.orZero (profit i))
                             (List.filter isSale l))) as H.
  { induction l as [|i l IH]; intros a; simpl; [lra|].
    rewrite IH. destruct (isSale i); simpl; lra. }
  rewrite H. lra.
Qed.

Lemma costed_sums l :
  Forall costed l ->
  Qsum (map (fun i => Num.orZero (profit i)) (List.filter isSale l))
  == Qsum (map (fun i => quantityGrams i * ratePerGram i) (List.filter isSale l))
     - Qsum (map (fun i => Num.orZero (cogs i)) (List.filter isSale l)).
Proof.
  induction 1 as [|i l Hi _ IH]; simpl; [lra|].
  destruct (isSale i) eqn:Hs; [|exact IH].
  destruct (Hi Hs) as (c & Hc & Hp).
  cbn [map]. rewrite !Qsum_cons, IH, Hc, Hp. simpl. lra.
Qed.

(** X5.  The profit of the dashboard is the revenue less the cost of the
    goods sold: every sale the ledger has committed carries its cost and
    the profit [quantity * rate - cost], so for the invoices of any
    ledger, under any filter of the date range and the search, the total
    profit is the taxable revenue of the sales less their costs. *)
Theorem profit_is_revenue_less_cost ops (keep : Invoice -> bool) :
  let filteredInvoices :=
    List.filter keep (invoices (runLedger getTime initialState ops)) in
  Forall costed filteredInvoices
  /\ totalProfit filteredInvoices
     == totalRevenueExTax filteredInvoices
        - Qsum (map (fun s => Num.orZero (cogs s))
                    (List.filter isSale filteredInvoices)).
Proof.
  intros filteredInvoices.
  assert (Forall costed filteredInvoices) as Hc.
  { apply Forall_filter_keep, runLedger_costed. constructor. }
  split; [exact Hc|].
  rewrite totalProfit_sum, totalRevenueExTax_sum. apply costed_sums, Hc.
Qed.

End LedgerBooks.

(** ** The form and the ledger *)

(** X6.  What the form hands over: an accepted entry has a date after
    the lock, a party, a quantity and a rate, and the GST rate of the form,
    which is [NaN] when that field was left empty; its taxable amount is
    [quantity * rate], its tax is the GST rate of that amount, and nothing
    for an empty field, and its total is the two together; it carries no
    cost or profit; and an accepted sale does not exceed the stock the form
    was given. *)
Theorem accepted_invoice_amounts lockDate stock newId formData invoice :
  handleSubmit lockDate stock newId formData = inr invoice ->
  locked lockDate (date invoice) = false
  /\ partyName invoice <> ""%string
  /\ id invoice = newId
  /\ formQuantityGrams formData = Some (quantityGrams invoice)
  /\ formRatePerGram formData = Some (ratePerGram invoice)
  /\ gstRate invoice = formGstRate formData
  /\ taxableAmount invoice == quantityGrams invoice * ratePerGram invoice
  /\ (forall gst, gstRate invoice = Some gst ->
        gstAmount invoice == taxableAmount invoice * (gst / 100))
  /\ (gstRate invoice = None ->
        gstAmount invoice == 0 /\ totalAmount invoice == taxableAmount invoice)
  /\ totalAmount invoice == taxableAmount invoice + gstAmount invoice
  /\ cogs invoice = None /\ profit invoice = None
  /\ (type invoice = SALE -> quantityGrams invoice <= stock).
Proof.
  unfold handleSubmit, calculateTotals.
  destruct (locked lockDate (formDate formData)) eqn:Hl; [discriminate|].
  destruct (formQuantityGrams formData) as [qty|]; [|discriminate].
  destruct (formRatePerGram formData) as [rate|]; [|discriminate].
  destruct (String.eqb_spec (formPartyName formData) "") as [|Hp]; [discriminate|].
  destruct (isSaleType (formType formData) && Num.gtb qty stock) eqn:Hs;
    [discriminate|].
  intros H. inversion H; subst; clear H.
  cbn [date partyName id quantityGrams ratePerGram gstRate taxableAmount gstAmount
       totalAmount cogs profit type].
  change (Num.orZero (Some qty)) with qty. change (Num.orZero (Some rate)) with rate.
  split; [exact Hl|]. split; [exact Hp|]. do 4 (split; [reflexivity|]).
  split; [reflexivity|].
  split; [intros gst Hg; rewrite Hg; reflexivity|].
  split; [intros Hg; rewrite Hg; unfold Num.orZero; cbn [default]; split; field|].
  split; [reflexivity|]. split; [reflexivity|]. split; [reflexivity|].
  intros Ht. rewrite Ht in Hs. simpl in Hs. apply NumFacts.gtb_false, Hs.
Qed.


Section FormLedger.
Variable getTime : string -> option Z.


End FormLedger.

(** X8.  Typing a total into the form sets the rate that gives this
    total: with a positive quantity in the form, after
    [handleTotalChange] the rate is the total over the quantity, the
    quantity is as before, and the taxable amount the form computes is the
    amount that was typed within the margin [slack] of the rounding.  An
    empty total clears the rate, and a text that is not a number changes
    nothing. *)
Theorem total_field_sets_the_rate total formData qty :
  formQuantityGrams formData = Some qty -> 0 < qty ->
  let formData' := handleTotalChange (Amount total) formData in
  (exists rate, formRatePerGram formData' = Some rate /\ rate == total / qty)
  /\ Qabs (fst (fst (calculateTotals formData')) - total) <= slack * Qabs total
  /\ formQuantityGrams formData' = Some qty
  /\ formRatePerGram (handleTotalChange EmptyInput formData) = None
  /\ handleTotalChange NotANumber formData = formData.
Proof.
  intros Hq Hpos. cbv zeta. unfold handleTotalChange. rewrite Hq.
  num_case (Num.gtb qty 0); [|lra].
  unfold calculateTotals, withRate. cbn [formQuantityGrams formRatePerGram fst].
  rewrite Hq. change (Num.orZero (Some qty)) with qty.
  change (Num.orZero (Some (total / qty))) with (total / qty).
  split; [eexists; split; reflexivity|].
  split; [|repeat split; reflexivity].
  assert (qty * (total / qty) - total == 0) as -> by (field; lra).
  change (Qabs 0) with 0.
  apply Qmult_le_0_compat; [unfold slack; lra | apply Qabs_nonneg].
Qed.

(** ** The books of a sale *)

Lemma lotRevenue_cons b inv :
  lotRevenue (b :: inv) = Num.orZero (totalRevenue b) + lotRevenue inv.
Proof. reflexivity. Qed.

(** The revenue the loop credits and the cost it adds up, for any
    inventory. *)
Lemma allocate_books i inv : forall rts c inv' r c',
  allocate i inv rts c = (inv', r, c') ->
  lotRevenue inv' == lotRevenue inv + (rts - r) * ratePerGram i.
Proof.
  induction inv as [|b rest IH]; intros rts c inv' r c' Heq.
  - simpl in Heq. inversion Heq; subst. unfold lotRevenue. simpl. lra.
  - rewrite allocate_cons in Heq.
    destruct (Num.leb rts 0).
    { inversion Heq; subst. lra. }
    destruct (Num.gtb (remainingQuantity b) 0).
    + destruct (allocate i rest _ _) as [[rest' r0] c0] eqn:Hal.
      inversion Heq; subst. clear Heq.
      apply IH in Hal. rewrite !lotRevenue_cons, Hal.
      unfold drawFrom. cbn [fst totalRevenue].
      match goal with
      | |- context [Num.orZero (Some ?x)] => change (Num.orZero (Some x)) with x
      end.
      set (take := Qmin (remainingQuantity b) rts) in *. clearbody take.
      set (rev := Num.orZero (totalRevenue b)). clearbody rev. lra.
    + destruct (allocate i rest rts c) as [[rest' r0] c0] eqn:Hal.
      inversion Heq; subst. clear Heq.
      apply IH in Hal. rewrite !lotRevenue_cons, Hal. lra.
Qed.

Lemma fifoValue_cons b inv :
  fifoValue (b :: inv) == remainingQuantity b * costPerGram b + fifoValue inv.
Proof. rewrite !fifoValue_sum. simpl. lra. Qed.

Lemma closedCount_cons b inv :
  closedCount (b :: inv) = (if isClosed b then 1 else 0) + closedCount inv.
Proof. reflexivity. Qed.

(** The cost the loop adds up against the value that leaves the lots. *)
Lemma allocate_cost i lo hi inv :
  stocked inv ->
  Forall (fun b => 0 <= lo <= costPerGram b /\ costPerGram b <= hi) inv ->
  forall rts c inv' r c', 0 <= rts ->
  allocate i inv rts c = (inv', r, c') ->
  lo * (rts - r) <= c' - c <= hi * (rts - r)
  /\ c' - c <= fifoValue inv - fifoValue inv'
  /\ fifoValue inv - fifoValue inv'
     <= c' - c + (1 # 10000) * hi * (closedCount inv' - closedCount inv).
Proof.
  intros Hs Hc. revert Hs.
  induction Hc as [|b rest [[Hlo0 Hlo] Hhi] Hrest IH]; intros Hs rts c inv' r c' Hrts Heq.
  - simpl in Heq. inversion Heq; subst. rewrite !fifoValue_sum. simpl.
    unfold closedCount. simpl. repeat split; lra.
  - inversion Hs as [|? ? Hb Hs']; subst.
    assert (0 <= hi) as Hhi0 by lra.
    rewrite allocate_cons in Heq.
    num_case (Num.leb rts 0).
    { inversion Heq; subst. repeat split; try nra. }
    num_case (Num.gtb (remainingQuantity b) 0).
    + destruct (allocate i rest _ _) as [[rest' r0] c0] eqn:Hal.
      destruct (drawFrom_facts i b rts E0 E) as (Hd & Ht0 & Ht1 & Hl & Hu & Hcl).
      set (b' := fst (drawFrom i b rts)) in *.
      assert (costPerGram b' = costPerGram b) as Hcost by apply (drawn_cost _ _ Hd).
      clearbody b'.
      set (take := Qmin (remainingQuantity b) rts) in *. clearbody take.
      inversion Heq; subst. clear Heq.
      apply IH in Hal; [|assumption|lra].
      destruct Hal as ([H1 H2] & H3 & H4).
      rewrite !fifoValue_cons, !closedCount_cons, Hcost.
      set (q := remainingQuantity b) in *. set (q' := remainingQuantity b') in *.
      set (k := costPerGram b) in *.
      set (d' := if isClosed b' then 1 else 0) in *.
      set (d := if isClosed b then 1 else 0) in *.
      clearbody q q' k d d'.
      assert (lo * take <= take * k) by nra.
      assert (take * k <= hi * take) by nra.
      assert (take * k <= (q - q') * k) by nra.
      assert ((q - q') * k <= take * k + (1 # 10000) * (d' - d) * k) by nra.
      assert ((1 # 10000) * (d' - d) * k <= (1 # 10000) * (d' - d) * hi) by nra.
      repeat split; nra.
    + destruct (allocate i rest rts c) as [[rest' r0] c0] eqn:Hal.
      inversion Heq; subst. clear Heq.
      apply IH in Hal; [|assumption|lra].
      destruct Hal as ([H1 H2] & H3 & H4).
      rewrite !fifoValue_cons, !closedCount_cons.
      repeat split; lra.
Qed.

Section SaleBooks.
Variable getTime : string -> option Z.

(** X9.  The books of a committed sale.  A sale of no more than the
    stock and the tolerance 1e-3 less the margin [slack] of the rounding,
    from lots without a negative remainder and with costs between [lo] and
    [hi], is committed.  The quantity drawn is the quantity of the sale
    less a shortfall of at most the tolerance, which is the excess over
    the stock.  The revenue credited to the lots rises by the quantity
    drawn times the rate of the sale.  Within the margin of the rounding
    the cost of the goods sold lies between [lo] and [hi] times the
    quantity drawn, it does not exceed the value that leaves the
    inventory, and it falls short of that value by no more than
    [1e-4 * hi] for each lot the sale closes. *)
Theorem books_of_a_sale st invoice lo hi :
  type invoice = SALE ->
  stocked (inventory st) ->
  0 <= lo <= hi ->
  Forall (fun b => lo <= costPerGram b <= hi) (inventory st) ->
  0 <= quantityGrams invoice ->
  quantityGrams invoice + slack * quantityGrams invoice
  <= currentStock (inventory st) + (1 # 1000) ->
  let st' := handleAddInvoice getTime st invoice in
  let rounding := slack * (hi * quantityGrams invoice + fifoValue (inventory st)) in
  exists c shortfall,
    invoices st'
    = withCogs invoice c (quantityGrams invoice * ratePerGram invoice - c)
      :: invoices st
    /\ 0 <= shortfall <= 1 # 1000
    /\ Qabs (shortfall - Qmax 0 (quantityGrams invoice - currentStock (inventory st)))
       <= slack * quantityGrams invoice
    /\ let drawnQuantity := quantityGrams invoice - shortfall in
       lotRevenue (inventory st')
       == lotRevenue (inventory st) + drawnQuantity * ratePerGram invoice
       /\ lo * drawnQuantity - rounding <= c
       /\ c <= hi * drawnQuantity + rounding
       /\ c <= fifoValue (inventory st) - fifoValue (inventory st') + rounding
       /\ fifoValue (inventory st) - fifoValue (inventory st')
          <= c + (1 # 10000) * hi
                 * (closedCount (inventory st') - closedCount (inventory st))
               + rounding.
Proof.
  intros Ht Hs Hlh Hc0 Hq Hmax. cbv zeta. rewrite (handleAddInvoice_sale _ _ _ Ht).
  assert (Forall (fun b => 0 <= lo <= costPerGram b /\ costPerGram b <= hi)
                 (inventory st)) as Hc.
  { eapply List.Forall_impl; [|exact Hc0]. intros b [H1 H2]. repeat split; lra. }
  pose proof (currentStock_sum (inventory st)) as Hcs.
  pose proof (stocked_sum _ Hs) as Hsum.
  assert (0 <= fifoValue (inventory st)) as Hval.
  { rewrite fifoValue_sum. apply Qsum_nonneg. apply List.Forall_forall. intros x Hx.
    apply in_map_iff in Hx as (b & <- & Hin).
    pose proof (proj1 (List.Forall_forall _ _) Hs b Hin) as Hb.
    pose proof (proj1 (List.Forall_forall _ _) Hc0 b Hin) as [Hb1 Hb2].
    cbv beta in Hb, Hb1, Hb2. destruct Hlh as [Hlo0 Hlh].
    apply Qmult_le_0_compat; lra. }
  assert (0 <= slack * (hi * quantityGrams invoice + fifoValue (inventory st))) as Hr.
  { apply Qmult_le_0_compat; [unfold slack; lra|].
    assert (0 <= hi * quantityGrams invoice)
      by (apply Qmult_le_0_compat; [destruct Hlh|]; lra).
    lra. }
  set (rounding := slack * (hi * quantityGrams invoice + fifoValue (inventory st))) in *.
  clearbody rounding.
  assert (0 <= slack * quantityGrams invoice) as Hsq
    by (apply Qmult_le_0_compat; [unfold slack; lra | exact Hq]).
  set (sq := slack * quantityGrams invoice) in *. clearbody sq.
  pose proof (allocate_left invoice _ Hs (quantityGrams invoice) 0 Hq) as [Hl1 Hl2].
  destruct (allocate invoice (inventory st) (quantityGrams invoice) 0)
    as [[newInventory r] c] eqn:Hal.
  cbn [fst snd] in Hl1, Hl2.
  assert (0 <= r <= 1 # 1000
          /\ r == Qmax 0 (quantityGrams invoice - currentStock (inventory st)))
    as [[Hr0 Hr1] Hrm].
  { destruct (Qlt_le_dec (Qsum (remainingOf (inventory st))) (quantityGrams invoice))
      as [Hlt|Hle].
    - rewrite Hl2 by lra. rewrite Q.max_r by lra. split; lra.
    - rewrite Hl1 by lra. rewrite Q.max_l by lra. split; lra. }
  num_case (Num.gtb r (1 # 1000)); [lra|].
  cbn [invoices inventory addToast].
  pose proof (allocate_books _ _ _ _ _ _ _ Hal) as Hrev.
  destruct (allocate_cost invoice lo hi _ Hs Hc _ _ _ _ _ Hq Hal) as ([H1 H2] & H3 & H4).
  exists c, r. split; [reflexivity|].
  split; [split; assumption|].
  split.
  { assert (r - Qmax 0 (quantityGrams invoice - currentStock (inventory st)) == 0) as ->
      by lra.
    exact Hsq. }
  cbv zeta. repeat split; lra.
Qed.

End SaleBooks.

(** ** Stock aging *)

Lemma Qsum_pos l : Forall (fun x => 0 < x) l -> l <> [] -> 0 < Qsum l.
Proof.
  intros H Hne. destruct H as [|x l Hx Hl]; [contradiction|].
  rewrite Qsum_cons.
  assert (0 <= Qsum l).
  { apply Qsum_nonneg. eapply List.Forall_impl; [|exact Hl].
    intros y Hy. apply Qlt_le_weak, Hy. }
  lra.
Qed.

Lemma openLots_pos inv : Forall (fun b => 0 < remainingQuantity b) (openLots inv).
Proof.
  apply List.Forall_forall. intros b Hb. apply List.filter_In in Hb as [_ Hb].
  apply NumFacts.gtb_true, Hb.
Qed.

Lemma stockWhere_nonneg p inv : 0 <= stockWhere p inv.
Proof.
  unfold stockWhere, remainingOf. apply Qsum_nonneg.
  apply List.Forall_forall. intros x Hx. apply in_map_iff in Hx as (b & <- & Hb).
  apply List.filter_In in Hb as [Hb _].
  apply Qlt_le_weak. exact (proj1 (List.Forall_forall _ _) (openLots_pos inv) b Hb).
Qed.

Lemma stockWhere_pos p inv :
  0 < stockWhere p inv
  <-> exists b, In b inv /\ 0 < remainingQuantity b /\ p b = true.
Proof.
  unfold stockWhere, remainingOf. split.
  - intros H. destruct (List.filter p (openLots inv)) as [|b l] eqn:Hf.
    + simpl in H. lra.
    + assert (In b (List.filter p (openLots inv))) as Hin by (rewrite Hf; left; reflexivity).
      apply List.filter_In in Hin as [Hin Hp].
      apply List.filter_In in Hin as [Hin Hb].
      exists b. repeat split; auto. apply NumFacts.gtb_true, Hb.
  - intros (b & Hin & Hb & Hp). apply Qsum_pos.
    + apply List.Forall_forall. intros x Hx. apply in_map_iff in Hx as (b' & <- & Hb').
      apply List.filter_In in Hb' as [Hb' _].
      exact (proj1 (List.Forall_forall _ _) (openLots_pos inv) b' Hb').
    + assert (In b (List.filter p (openLots inv))) as Hin'.
      { apply List.filter_In. split; [|exact Hp].
        apply List.filter_In. split; [exact Hin|]. apply NumFacts.gtb_true, Hb. }
      intros Hnil. apply (f_equal (@length Q)) in Hnil. rewrite length_map in Hnil.
      destruct (List.filter p (openLots inv)); [contradiction | discriminate].
Qed.

Lemma stockWhere_cons p b inv :
  stockWhere p (b :: inv)
  == (if Num.gtb (remainingQuantity b) 0 && p b then remainingQuantity b else 0)
     + stockWhere p inv.
Proof.
  unfold stockWhere, openLots, remainingOf. cbn [List.filter].
  destruct (Num.gtb (remainingQuantity b) 0); cbn [List.filter andb]; [|lra].
  destruct (p b); cbn [map]; rewrite ?Qsum_cons; lra.
Qed.

Section AgingFacts.
Variable getTime : string -> option Z.
Variable now : Z.

Lemma within_mono d n m : n <= m -> within d n = true -> within d m = true.
Proof.
  destruct d as [d|]; simpl; [|discriminate].
  intros Hnm H. apply NumFacts.leb_true in H. apply NumFacts.leb_true. lra.
Qed.

(** The accumulator after the loop, from any accumulator. *)
Lemma aging_fold inv : forall acc,
  let acc' := fold_left (agingStep getTime now) inv acc in
  upTo7 (agingBuckets acc')
    == upTo7 (agingBuckets acc) + stockWhere (fun x => within (lotAge getTime now x) 7) inv
  /\ upTo15 (agingBuckets acc')
     == upTo15 (agingBuckets acc)
        + stockWhere (fun x => negb (within (lotAge getTime now x) 7)
                               && within (lotAge getTime now x) 15) inv
  /\ upTo30 (agingBuckets acc')
     == upTo30 (agingBuckets acc)
        + stockWhere (fun x => negb (within (lotAge getTime now x) 15)
                               && within (lotAge getTime now x) 30) inv
  /\ over30 (agingBuckets acc')
     == over30 (agingBuckets acc)
        + stockWhere (fun x => negb (within (lotAge getTime now x) 30)) inv
  /\ agedStock acc' == agedStock acc + Qsum (remainingOf (openLots inv)).
Proof.
  unfold lotAge. induction inv as [|b inv IH]; intros acc; cbv zeta.
  - unfold stockWhere. simpl. repeat split; lra.
  - cbn [fold_left]. destruct (IH (agingStep getTime now acc b)) as (H1 & H2 & H3 & H4 & H5).
    rewrite H1, H2, H3, H4, H5. rewrite !stockWhere_cons.
    unfold openLots, remainingOf. cbn [List.filter].
    unfold agingStep, Num.leb, Num.gtb.
    destruct (Qle_bool (remainingQuantity b) 0) eqn:Hb; cbn [negb andb map].
    { repeat split; lra. }
    rewrite Qsum_cons.
    cbn [agingBuckets agedStock]. unfold addToBucket.
    destruct (within (diffDays getTime now (batchDate b)) 7) eqn:H7.
    { rewrite (within_mono _ 7 15) by (lra || exact H7).
      rewrite (within_mono _ 7 30) by (lra || exact H7).
      cbn [upTo7 upTo15 upTo30 over30 negb andb]. repeat split; lra. }
    destruct (within (diffDays getTime now (batchDate b)) 15) eqn:H15.
    { rewrite (within_mono _ 15 30) by (lra || exact H15).
      cbn [upTo7 upTo15 upTo30 over30 negb andb]. repeat split; lra. }
    destruct (within (diffDays getTime now (batchDate b)) 30) eqn:H30;
      cbn [upTo7 upTo15 upTo30 over30 negb andb]; repeat split; lra.
Qed.

(** X10.  The aging buckets partition the stock.  Each bucket holds the
    remaining quantity of the lots with stock whose age in days falls in
    its range, a lot whose date is not valid falls in the last bucket, and
    the four buckets together hold the remaining quantity of all lots with
    stock: closed lots are not counted and no gram is counted twice. *)
Theorem aging_buckets_partition inv :
  let b := buckets (calculateStockAging getTime now inv) in
  upTo7 b == stockWhere (fun x => within (lotAge getTime now x) 7) inv
  /\ upTo15 b
     == stockWhere (fun x => negb (within (lotAge getTime now x) 7)
                             && within (lotAge getTime now x) 15) inv
  /\ upTo30 b
     == stockWhere (fun x => negb (within (lotAge getTime now x) 15)
                             && within (lotAge getTime now x) 30) inv
  /\ over30 b == stockWhere (fun x => negb (within (lotAge getTime now x) 30)) inv
  /\ upTo7 b + upTo15 b + upTo30 b + over30 b == Qsum (remainingOf (openLots inv)).
Proof.
  cbv zeta. unfold calculateStockAging. cbn [buckets].
  destruct (aging_fold inv (noStock)) as (H1 & H2 & H3 & H4 & H5).
  cbn [noStock agingBuckets agedStock upTo7 upTo15 upTo30 over30] in *.
  repeat split; try lra.
  rewrite H1, H2, H3, H4. clear. unfold lotAge.
  induction inv as [|b inv IH]; [unfold stockWhere; simpl; lra|].
  rewrite !stockWhere_cons. unfold openLots, remainingOf in *. cbn [List.filter].
  destruct (Num.gtb (remainingQuantity b) 0); cbn [andb map]; rewrite ?Qsum_cons; [|lra].
  destruct (within (diffDays getTime now (batchDate b)) 7) eqn:H7.
  { rewrite (within_mono _ 7 15) by (lra || exact H7).
    rewrite (within_mono _ 7 30) by (lra || exact H7). cbn [negb andb]. lra. }
  destruct (within (diffDays getTime now (batchDate b)) 15) eqn:H15.
  { rewrite (within_mono _ 15 30) by (lra || exact H15). cbn [negb andb]. lra. }
  destruct (within (diffDays getTime now (batchDate b)) 30); cbn [negb andb]; lra.
Qed.

End AgingFacts.

Section AgingAverage.
Variable getTime : string -> option Z.
Variable now : Z.

(** An age is a whole number of days, and not negative. *)
Lemma diffDays_nonneg d a : diffDays getTime now d = Some a -> 0 <= a.
Proof.
  unfold diffDays. destruct (getTime d) as [t|]; [|discriminate].
  cbn [mbind option_bind]. intros H. inversion H; subst; clear H.
  change 0 with (inject_Z 0). rewrite <- Zle_Qle.
  change 0%Z with (Qceiling 0). apply Qceiling_resp_le.
  apply Qle_shift_div_l; [reflexivity|].
  rewrite Qmult_0_l. exact (Qabs_nonneg (inject_Z (now - t))).
Qed.

Lemma aging_weighted lo hi inv :
  Forall (fun b => 0 < remainingQuantity b ->
                   exists a, lotAge getTime now b = Some a /\ lo <= a <= hi) inv ->
  forall acc w, totalDaysWeighted acc = Some w ->
  exists w',
    totalDaysWeighted (fold_left (agingStep getTime now) inv acc) = Some w'
    /\ w + lo * Qsum (remainingOf (openLots inv)) <= w'
    /\ w' <= w + hi * Qsum (remainingOf (openLots inv)).
Proof.
  induction 1 as [|b inv Hb _ IH]; intros acc w Hw.
  - exists w. simpl. split; [exact Hw|]. split; lra.
  - cbn [fold_left]. unfold openLots, remainingOf in *. cbn [List.filter].
    unfold agingStep at 2.
    change (Num.gtb (remainingQuantity b) 0)
      with (negb (Num.leb (remainingQuantity b) 0)).
    destruct (Num.leb (remainingQuantity b) 0) eqn:Hq; cbn [negb].
    { apply IH, Hw. }
    assert (0 < remainingQuantity b) as Hpos by (apply NumFacts.leb_false, Hq).
    destruct (Hb Hpos) as (a & Ha & Hlo & Hhi). unfold lotAge in Ha.
    destruct (IH {| agingBuckets :=
                      addToBucket (diffDays getTime now (batchDate b))
                                  (remainingQuantity b) (agingBuckets acc);
                    totalDaysWeighted :=
                      w0 ← totalDaysWeighted acc;
                      d ← diffDays getTime now (batchDate b);
                      Some (w0 + d * remainingQuantity b);
                    agedStock := agedStock acc + remainingQuantity b |}
                 (w + a * remainingQuantity b)) as (w' & Hw' & H1 & H2).
    { cbn [totalDaysWeighted]. rewrite Hw, Ha. reflexivity. }
    exists w'. split; [exact Hw'|]. cbn [map]. rewrite Qsum_cons.
    set (q := remainingQuantity b) in *. clearbody q.
    match type of H1 with
    | context [Qsum ?l] => set (s := Qsum l) in *; clearbody s
    end.
    assert (lo * q <= a * q) by nra.
    assert (a * q <= hi * q) by nra.
    split; lra.
Qed.

Lemma aging_nan inv : forall acc,
  totalDaysWeighted acc = None ->
  totalDaysWeighted (fold_left (agingStep getTime now) inv acc) = None.
Proof.
  induction inv as [|b inv IH]; intros acc Hacc; [exact Hacc|].
  cbn [fold_left]. apply IH. unfold agingStep.
  destruct (Num.leb (remainingQuantity b) 0); [exact Hacc|].
  cbn [totalDaysWeighted]. rewrite Hacc. reflexivity.
Qed.

Lemma aging_unreadable inv b : forall acc,
  In b inv -> 0 < remainingQuantity b -> getTime (batchDate b) = None ->
  totalDaysWeighted (fold_left (agingStep getTime now) inv acc) = None.
Proof.
  induction inv as [|x inv IH]; intros acc Hin Hq Hd; [contradiction|].
  cbn [fold_left]. destruct Hin as [->|Hin]; [|apply IH; assumption].
  apply aging_nan. unfold agingStep.
  num_case (Num.leb (remainingQuantity b) 0); [lra|].
  cbn [totalDaysWeighted]. unfold diffDays. rewrite Hd.
  destruct (totalDaysWeighted acc); reflexivity.
Qed.

(** The average age on the rationals. *)
Lemma average_age inv lo hi :
  Forall (fun b => 0 < remainingQuantity b ->
                   exists a, lotAge getTime now b = Some a /\ lo <= a <= hi) inv ->
  exists w,
    weightedAvgDays (calculateStockAging getTime now inv) = Some w
    /\ (openLots inv <> [] -> lo <= w <= hi)
    /\ (openLots inv = [] -> w == 0)
    /\ 0 <= w.
Proof.
  intros Hall. unfold calculateStockAging. cbn [weightedAvgDays].
  destruct (aging_fold getTime now inv noStock) as (_ & _ & _ & _ & Hs).
  destruct (aging_weighted lo hi inv Hall noStock 0 eq_refl) as (w & Hw & H1 & H2).
  cbn [noStock agedStock] in Hs. rewrite Hw. cbn [mbind option_bind].
  set (s := agedStock (fold_left (agingStep getTime now) inv noStock)) in *.
  clearbody s.
  destruct (openLots inv) as [|b l] eqn:Ho.
  - simpl in Hs, H1, H2.
    num_case (Num.gtb s 0); [lra|].
    exists 0. split; [reflexivity|]. split; [intros H; contradiction|].
    split; [reflexivity | lra].
  - assert (0 < Qsum (remainingOf (b :: l))) as Hpos.
    { rewrite <- Ho. unfold remainingOf. apply Qsum_pos.
      - apply List.Forall_forall. intros x Hx.
        apply in_map_iff in Hx as (y & <- & Hy).
        exact (proj1 (List.Forall_forall _ _) (openLots_pos inv) y Hy).
      - rewrite Ho. discriminate. }
    num_case (Num.gtb s 0); [|lra].
    rewrite NumFacts.div_Some by lra.
    exists (w / s). split; [reflexivity|].
    assert (lo <= w / s <= hi) as Hb.
    { split; [apply Qle_shift_div_l | apply Qle_shift_div_r]; try lra.
      - rewrite Hs. lra.
      - rewrite Hs. lra. }
    split; [intros _; exact Hb|]. split; [discriminate|].
    assert (0 <= lo \/ lo < 0) as [Hlo|Hlo] by (destruct (Qlt_le_dec lo 0); auto).
    + lra.
    + (* the ages themselves are not negative *)
      assert (In b inv /\ 0 < remainingQuantity b) as [Hin Hq].
      { assert (In b (openLots inv)) as Hb' by (rewrite Ho; left; reflexivity).
        apply List.filter_In in Hb' as [Hin Hq]. split; [exact Hin|].
        apply NumFacts.gtb_true, Hq. }
      assert (Forall (fun b => 0 < remainingQuantity b ->
                 exists a, lotAge getTime now b = Some a /\ 0 <= a <= hi) inv) as Hall0.
      { eapply List.Forall_impl; [|exact Hall]. intros x Hx Hxq.
        destruct (Hx Hxq) as (a & Ha & Ha1 & Ha2). exists a.
        split; [exact Ha|]. split; [|exact Ha2].
        apply (diffDays_nonneg _ _ Ha). }
      destruct (aging_weighted 0 hi inv Hall0 noStock 0 eq_refl) as (w0 & Hw0 & H3 & _).
      rewrite Hw in Hw0. inversion Hw0; subst w0.
      apply Qle_shift_div_l; [lra|]. rewrite Ho in H3. lra.
Qed.

(** X11.  The average age of the stock lies between the ages of the
    lots.  When every lot with stock has a valid date, and an age between
    [lo] and [hi] days, the weighted average age is a number; it lies
    between [lo] and [hi], within the margin [slack] of the rounding,
    when there is stock, and it is 0 when there is none.  Ages are not
    negative. *)
Theorem average_age_between inv lo hi :
  Forall (fun b => 0 < remainingQuantity b ->
                   exists a, lotAge getTime now b = Some a /\ lo <= a <= hi) inv ->
  exists w,
    weightedAvgDays (calculateStockAging getTime now inv) = Some w
    /\ (openLots inv <> [] ->
        lo - slack * (Qabs lo + Qabs hi) <= w <= hi + slack * (Qabs lo + Qabs hi))
    /\ (openLots inv = [] -> w == 0)
    /\ 0 <= w.
Proof.
  intros Hall. destruct (average_age inv lo hi Hall) as (w & Hw & H1 & H2 & H3).
  exists w. split; [exact Hw|]. split; [|split; assumption].
  intros Hne. destruct (H1 Hne) as [Hlo Hhi].
  pose proof (Qabs_nonneg lo). pose proof (Qabs_nonneg hi).
  unfold slack. split; lra.
Qed.

(** X12.  A date that cannot be read ages the stock.  A lot with stock
    whose date is not valid is counted in the bucket of the stock older
    than 30 days, and makes the average age [NaN]. *)
Theorem unreadable_date_ages_the_stock inv b :
  In b inv -> 0 < remainingQuantity b -> getTime (batchDate b) = None ->
  weightedAvgDays (calculateStockAging getTime now inv) = None
  /\ remainingQuantity b <= over30 (buckets (calculateStockAging getTime now inv)).
Proof.
  intros Hin Hq Hd. unfold calculateStockAging. cbn [weightedAvgDays buckets].
  destruct (aging_fold getTime now inv noStock) as (_ & _ & _ & H4 & Hs).
  cbn [noStock agingBuckets agedStock over30] in H4, Hs.
  rewrite (aging_unreadable inv b noStock Hin Hq Hd).
  assert (In b (List.filter (fun x => negb (within (lotAge getTime now x) 30))
                            (openLots inv))) as Hb.
  { apply List.filter_In. split.
    - apply List.filter_In. split; [exact Hin | apply NumFacts.gtb_true, Hq].
    - unfold lotAge, diffDays. rewrite Hd. reflexivity. }
  assert (forall l : list InventoryBatch,
            Forall (fun x => 0 < remainingQuantity x) l -> In b l ->
            remainingQuantity b <= Qsum (remainingOf l)) as Hle.
  { clear. intros l Hl Hin. induction Hl as [|x l Hx Hl IH]; [contradiction|].
    unfold remainingOf in *. cbn [map]. rewrite Qsum_cons.
    assert (0 <= Qsum (map remainingQuantity l)).
    { apply Qsum_nonneg. apply List.Forall_forall. intros y Hy.
      apply in_map_iff in Hy as (z & <- & Hz).
      apply Qlt_le_weak. exact (proj1 (List.Forall_forall _ _) Hl z Hz). }
    destruct Hin as [->|Hin]; [lra|]. specialize (IH Hin). lra. }
  split.
  - assert (0 < Qsum (remainingOf (openLots inv))) as Hpos.
    { apply Qlt_le_trans with (remainingQuantity b); [exact Hq|].
      apply Hle; [apply openLots_pos|].
      apply List.filter_In in Hb as [Hb _]. exact Hb. }
    num_case (Num.gtb (agedStock (fold_left (agingStep getTime now) inv noStock)) 0);
      [reflexivity | lra].
  - rewrite H4. unfold stockWhere. rewrite Qplus_0_l. apply Hle; [|exact Hb].
    apply Forall_filter_keep, openLots_pos.
Qed.

End AgingAverage.

(** ** The risk alerts *)

Section AlertFacts.
Variable getTime : string -> option Z.
Variable now : Z.
Variable formatGrams : Q -> string.

Lemma alerts_high agingStats invoices :
  (exists a, In a (alerts formatGrams agingStats invoices) /\ severity a = HIGH)
  <-> 0 < over30 (buckets agingStats).
Proof.
  unfold alerts.
  set (recent := recentSales invoices).
  set (p := fold_left (fun acc i => acc + Num.orZero (profit i)) recent 0).
  set (t := fold_left (fun acc i => acc + taxableAmount i) recent 0).
  assert (forall l : list RiskAlert,
            (exists a, In a (if (0 <? length recent)%nat
                             then if belowMargin p t then l ++ [lowMargin] else l
                             else l) /\ severity a = HIGH)
            <-> (exists a, In a l /\ severity a = HIGH)) as Hl.
  { intros l. destruct (0 <? length recent)%nat; [|reflexivity].
    destruct (belowMargin p t); [|reflexivity].
    split; intros (a & Hin & Ha); exists a; split; auto.
    - apply in_app_or in Hin as [Hin|[<-|[]]]; [exact Hin | discriminate].
    - apply in_or_app. left. exact Hin. }
  rewrite Hl. num_case (Num.gtb (over30 (buckets agingStats)) 0).
  - split; [intros _; exact E|]. intros _. eexists. split; [left; reflexivity|].
    reflexivity.
  - split; [intros (a & [] & _) | intros H; lra].
Qed.

(** X13.  The alert on old stock is raised exactly when some lot with
    stock is older than 30 days, or has a date that cannot be read. *)
Theorem old_stock_alert inv invoices :
  (exists a, In a (alerts formatGrams (calculateStockAging getTime now inv) invoices)
             /\ severity a = HIGH)
  <-> (exists b, In b inv /\ 0 < remainingQuantity b
                 /\ within (lotAge getTime now b) 30 = false).
Proof.
  rewrite alerts_high.
  unfold calculateStockAging. cbn [buckets].
  destruct (aging_fold getTime now inv noStock) as (_ & _ & _ & H4 & _).
  cbn [noStock agingBuckets over30] in H4.
  rewrite H4, Qplus_0_l, stockWhere_pos.
  split; intros (b & Hin & Hq & Hw); exists b; repeat split; auto.
  - apply negb_true_iff, Hw.
  - apply negb_true_iff, Hw.
Qed.

(** The alert on low margins on the rationals. *)
Lemma low_margin agingStats invoices :
  let recent := recentSales invoices in
  let p := Qsum (map (fun i => Num.orZero (profit i)) recent) in
  let t := Qsum (map taxableAmount recent) in
  0 <= t ->
  (exists a, In a (alerts formatGrams agingStats invoices) /\ severity a = MEDIUM)
  <-> recent <> [] /\ p < (5 # 1000) * t.
Proof.
  intros recent p t Ht. unfold alerts. fold recent.
  pose proof (fold_left_Qsum (fun i => Num.orZero (profit i)) recent 0) as Hp.
  pose proof (fold_left_Qsum taxableAmount recent 0) as Hq.
  fold p in Hp. fold t in Hq.
  set (p0 := fold_left (fun acc i => acc + Num.orZero (profit i)) recent 0) in *.
  set (t0 := fold_left (fun acc i => acc + taxableAmount i) recent 0) in *.
  clearbody p0 t0.
  set (l := if Num.gtb (over30 (buckets agingStats)) 0
            then [oldStock formatGrams (over30 (buckets agingStats))] else []).
  assert (forall a, In a l -> severity a <> MEDIUM) as Hl.
  { intros a. unfold l. destruct (Num.gtb _ 0); [|intros []].
    intros [<-|[]]. discriminate. }
  assert (belowMargin p0 t0 = true <-> p < (5 # 1000) * t) as Hb.
  { unfold belowMargin, Num.div.
    destruct (Qeq_bool t0 0) eqn:Hz.
    - apply Qeq_bool_iff in Hz. rewrite NumFacts.ltb_true. split; intros; lra.
    - apply Qeq_bool_neq in Hz. rewrite NumFacts.ltb_true.
      assert (0 < t0) as Hpos by lra.
      split; intros H.
      + apply (Qmult_lt_r _ _ _ Hpos) in H.
        assert (p0 / t0 * t0 == p0) as Hd by (field; lra).
        lra.
      + apply Qlt_shift_div_r; lra. }
  destruct recent as [|s recent'] eqn:Hr; cbn [length Nat.ltb Nat.leb].
  - split; [|intros [H _]; contradiction].
    intros (a & Hin & Ha). exfalso. exact (Hl a Hin Ha).
  - destruct (belowMargin p0 t0) eqn:Hbm.
    + split.
      * intros _. split; [discriminate | apply Hb; reflexivity].
      * intros _. exists lowMargin. split; [|reflexivity].
        apply in_or_app. right. left. reflexivity.
    + split.
      * intros (a & Hin & Ha). exfalso. exact (Hl a Hin Ha).
      * intros [_ H]. apply Hb in H. discriminate.
Qed.

(** X14.  The alert on low margins looks at the first five sales of the
    invoice list and at nothing else.  When their taxable amounts do not
    add up to a negative number, the alert is raised when there is a sale
    and their profits add up to less than 0.5% of their taxable amounts,
    and only then, within the margin [slack] of the rounding of the two
    sums; this holds also when the taxable amounts add up to 0, where the
    quotient of the code is not a number or is infinite.  Without a sale
    there is no alert. *)
Theorem low_margin_alert agingStats invoices :
  let recent := recentSales invoices in
  let p := Qsum (map (fun i => Num.orZero (profit i)) recent) in
  let t := Qsum (map taxableAmount recent) in
  let rounding :=
    slack * (t + Qsum (map (fun i => Qabs (Num.orZero (profit i))) recent)) in
  let raised :=
    exists a, In a (alerts formatGrams agingStats invoices) /\ severity a = MEDIUM in
  0 <= t ->
  (recent <> [] -> p < (5 # 1000) * t - rounding -> raised)
  /\ (raised -> recent <> [] /\ p < (5 # 1000) * t + rounding).
Proof.
  intros recent p t rounding raised Ht.
  pose proof (low_margin agingStats invoices Ht) as Hiff. fold recent p t raised in Hiff.
  assert (0 <= rounding) as Hr.
  { unfold rounding. apply Qmult_le_0_compat; [unfold slack; lra|].
    assert (0 <= Qsum (map (fun i => Qabs (Num.orZero (profit i))) recent)); [|lra].
    apply Qsum_nonneg. apply List.Forall_forall. intros x Hx.
    apply in_map_iff in Hx as (i & <- & _). apply Qabs_nonneg. }
  split.
  - intros Hne Hlt. apply Hiff. split; [exact Hne | lra].
  - intros H. apply Hiff in H as [Hne Hlt]. split; [exact Hne | lra].
Qed.

End AlertFacts.

(** ** The inventory table and the dashboard *)

Lemma filter_split {A} (p q : A -> bool) l :
  Forall (fun x => q x = negb (p x)) l ->
  Permutation (List.filter p l ++ List.filter q l) l.
Proof.
  induction 1 as [|x l Hx _ IH]; [constructor|].
  cbn [List.filter]. rewrite Hx. destruct (p x); cbn [negb app].
  - constructor. exact IH.
  - rewrite <- Permutation_middle. constructor. exact IH.
Qed.

Lemma stocked_open_sum inv :
  stocked inv -> Qsum (remainingOf (openLots inv)) == Qsum (remainingOf inv).
Proof.
  induction 1 as [|b inv Hb _ IH]; [reflexivity|].
  unfold openLots, remainingOf in *. cbn [List.filter map].
  num_case (Num.gtb (remainingQuantity b) 0); cbn [map]; rewrite ?Qsum_cons, IH; lra.
Qed.

Lemma stocked_open_value inv :
  stocked inv -> fifoValue (openLots inv) == fifoValue inv.
Proof.
  induction 1 as [|b inv Hb _ IH]; [reflexivity|].
  unfold openLots in *. cbn [List.filter].
  num_case (Num.gtb (remainingQuantity b) 0); rewrite ?fifoValue_cons, IH; [lra|].
  assert (remainingQuantity b == 0) as -> by lra. lra.
Qed.

(** A weighted average of the costs of lots with stock. *)
Lemma average_between lo hi inv :
  Forall (fun b => 0 < remainingQuantity b) inv ->
  Forall (fun b => lo <= costPerGram b <= hi) inv ->
  lo * Qsum (remainingOf inv) <= fifoValue inv <= hi * Qsum (remainingOf inv).
Proof.
  intros Hq Hc. rewrite fifoValue_sum. unfold remainingOf.
  induction Hq as [|b inv Hb _ IH]; [simpl; lra|].
  inversion Hc as [|? ? [H1 H2] Hc']; subst.
  cbn [map]. rewrite !Qsum_cons. specialize (IH Hc').
  assert (lo * remainingQuantity b <= remainingQuantity b * costPerGram b) by nra.
  assert (remainingQuantity b * costPerGram b <= hi * remainingQuantity b) by nra.
  lra.
Qed.

(** X15.  The inventory table and the dashboard agree.  For batches
    without a negative remainder every batch is on exactly one of the two
    lists of the table, the active one or the history; the total stock and
    the total value of the table are [currentStock] and [fifoValue] of the
    dashboard; the two average costs are the same number; and the profit
    the table estimates for a market rate is the unrealized profit of the
    analytics view. *)
Theorem table_agrees_with_dashboard batches rate :
  stocked batches ->
  Permutation (InventoryTable.activeBatches batches
               ++ InventoryTable.historyBatches batches) batches
  /\ InventoryTable.totalStock batches == currentStock batches
  /\ InventoryTable.totalValue batches == fifoValue batches
  /\ (exists a w, InventoryTable.avgCost batches = Some a
                  /\ weightedAvgCost batches = Some w /\ a == w)
  /\ InventoryTable.potentialProfit batches rate
     == AnalyticsView.unrealizedProfit rate (currentStock batches) (fifoValue batches).
Proof.
  intros Hs.
  assert (InventoryTable.totalStock batches == currentStock batches) as Hstock.
  { unfold InventoryTable.totalStock.
    change (fold_left (fun acc b => acc + remainingQuantity b)
                      (InventoryTable.activeBatches batches) 0)
      with (currentStock (openLots batches)).
    rewrite !currentStock_sum. apply stocked_open_sum, Hs. }
  assert (InventoryTable.totalValue batches == fifoValue batches) as Hvalue.
  { unfold InventoryTable.totalValue.
    change (fold_left (fun acc b => acc + remainingQuantity b * costPerGram b)
                      (InventoryTable.activeBatches batches) 0)
      with (fifoValue (openLots batches)).
    apply stocked_open_value, Hs. }
  split; [|split; [exact Hstock | split; [exact Hvalue | split]]].
  - apply filter_split. eapply List.Forall_impl; [|exact Hs].
    intros b Hb. cbv beta in *.
    num_case (Num.gtb (remainingQuantity b) 0); cbn [negb].
    + destruct (Qeq_bool (remainingQuantity b) 0) eqn:Hz; [|reflexivity].
      apply Qeq_bool_iff in Hz. lra.
    + apply Qeq_bool_iff. lra.
  - unfold InventoryTable.avgCost, weightedAvgCost.
    num_case (Num.gtb (InventoryTable.totalStock batches) 0);
      num_case (Num.gtb (currentStock batches) 0); try lra.
    + rewrite !NumFacts.div_Some by lra.
      eexists _, _. split; [reflexivity|]. split; [reflexivity|].
      rewrite Hstock, Hvalue. reflexivity.
    + eexists _, _. split; [reflexivity|]. split; reflexivity.
  - unfold InventoryTable.potentialProfit, InventoryTable.estimatedSalesValue,
      InventoryTable.hasRate, AnalyticsView.unrealizedProfit.
    destruct rate as [r|]; [|reflexivity].
    destruct (Num.gtb r 0); [|reflexivity].
    rewrite Hstock, Hvalue. reflexivity.
Qed.

(** The average cost on the rationals. *)
Lemma average_cost batches lo hi :
  Forall (fun b => 0 < remainingQuantity b -> lo <= costPerGram b <= hi) batches ->
  0 < InventoryTable.totalStock batches ->
  (exists a, InventoryTable.avgCost batches = Some a /\ lo <= a <= hi)
  /\ (stocked batches ->
      exists w, weightedAvgCost batches = Some w /\ lo <= w <= hi).
Proof.
  intros Hc Hpos.
  assert (InventoryTable.totalStock batches == Qsum (remainingOf (openLots batches)))
    as Hstock.
  { unfold InventoryTable.totalStock.
    change (fold_left (fun acc b => acc + remainingQuantity b)
                      (InventoryTable.activeBatches batches) 0)
      with (currentStock (openLots batches)).
    apply currentStock_sum. }
  assert (InventoryTable.totalValue batches = fifoValue (openLots batches))
    as Hvalue by reflexivity.
  assert (lo * Qsum (remainingOf (openLots batches)) <= fifoValue (openLots batches)
          <= hi * Qsum (remainingOf (openLots batches))) as [H1 H2].
  { apply average_between; [apply openLots_pos|].
    apply List.Forall_forall. intros b Hb. apply List.filter_In in Hb as [Hin Hq].
    apply (proj1 (List.Forall_forall _ _) Hc b Hin), NumFacts.gtb_true, Hq. }
  split.
  - unfold InventoryTable.avgCost.
    num_case (Num.gtb (InventoryTable.totalStock batches) 0); [|lra].
    rewrite NumFacts.div_Some by lra. eexists. split; [reflexivity|].
    rewrite Hvalue.
    split; [apply Qle_shift_div_l | apply Qle_shift_div_r]; try lra.
    + rewrite Hstock. exact H1.
    + rewrite Hstock. exact H2.
  - intros Hs. unfold weightedAvgCost.
    pose proof (stocked_open_sum _ Hs) as Ho.
    pose proof (stocked_open_value _ Hs) as Hv.
    pose proof (currentStock_sum batches) as Hcs.
    num_case (Num.gtb (currentStock batches) 0); [|lra].
    rewrite NumFacts.div_Some by lra. eexists. split; [reflexivity|].
    split; [apply Qle_shift_div_l | apply Qle_shift_div_r]; try lra.
    + rewrite Hcs, <- Ho, <- Hv. exact H1.
    + rewrite Hcs, <- Ho, <- Hv. exact H2.
Qed.

(** X16.  The average cost lies between the costs of the lots.  When
    there is stock, and every lot with stock has a cost between [lo] and
    [hi], then the average cost of the table is a number between [lo] and
    [hi], within the margin [slack] of the rounding; for batches without
    a negative remainder so is the weighted average cost of the
    dashboard. *)
Theorem average_cost_between batches lo hi :
  Forall (fun b => 0 < remainingQuantity b -> lo <= costPerGram b <= hi) batches ->
  0 < InventoryTable.totalStock batches ->
  let rounding := slack * (Qabs lo + Qabs hi) in
  (exists a, InventoryTable.avgCost batches = Some a
             /\ lo - rounding <= a <= hi + rounding)
  /\ (stocked batches ->
      exists w, weightedAvgCost batches = Some w
                /\ lo - rounding <= w <= hi + rounding).
Proof.
  intros Hc Hpos rounding.
  destruct (average_cost batches lo hi Hc Hpos) as [(a & Ha & Ha1 & Ha2) Hw].
  assert (0 <= rounding) as Hr.
  { unfold rounding. pose proof (Qabs_nonneg lo). pose proof (Qabs_nonneg hi).
    apply Qmult_le_0_compat; [unfold slack|]; lra. }
  split.
  - exists a. split; [exact Ha|]. split; lra.
  - intros Hs. destruct (Hw Hs) as (w & Hw' & Hw1 & Hw2).
    exists w. split; [exact Hw'|]. split; lra.
Qed.

(** The return on the rationals. *)
Lemma simulated_roi batches r :
  0 < r -> 0 < InventoryTable.totalValue batches ->
  exists a roi,
    InventoryTable.avgCost batches = Some a
    /\ InventoryTable.roiPercentage batches (Some r) = Some roi
    /\ roi == (InventoryTable.totalStock batches * r
               / InventoryTable.totalValue batches - 1) * 100
    /\ (0 < roi <-> a < r)
    /\ InventoryTable.roiPercentage batches None = Some 0
    /\ InventoryTable.potentialProfit batches None = 0
    /\ InventoryTable.estimatedSalesValue batches None = 0.
Proof.
  intros Hr Hv.
  unfold InventoryTable.roiPercentage, InventoryTable.avgCost,
    InventoryTable.potentialProfit, InventoryTable.estimatedSalesValue,
    InventoryTable.hasRate.
  set (s := InventoryTable.totalStock batches).
  set (v := InventoryTable.totalValue batches) in *.
  assert (0 < s) as Hs.
  { unfold s, InventoryTable.totalStock.
    change (fold_left (fun acc b => acc + remainingQuantity b)
                      (InventoryTable.activeBatches batches) 0)
      with (currentStock (openLots batches)).
    rewrite currentStock_sum. unfold remainingOf. apply Qsum_pos.
    - apply List.Forall_forall. intros x Hx.
      apply in_map_iff in Hx as (y & <- & Hy).
      exact (proj1 (List.Forall_forall _ _) (openLots_pos batches) y Hy).
    - intros Hnil. apply map_eq_nil in Hnil.
      unfold v, InventoryTable.totalValue, InventoryTable.activeBatches in Hv.
      unfold openLots in Hnil. rewrite Hnil in Hv. simpl in Hv. lra. }
  clearbody s v.
  num_case (Num.gtb r 0); [|lra]. num_case (Num.gtb v 0); [|lra].
  num_case (Num.gtb s 0); [|lra]. cbn [andb].
  rewrite !NumFacts.div_Some by lra. cbn [mbind option_bind].
  eexists _, _. split; [reflexivity|]. split; [reflexivity|].
  split; [field; lra|]. split; [|repeat split; reflexivity].
  assert ((s * r - v) / v * 100 == (s * r - v) * (100 / v)) as -> by (field; lra).
  assert (0 < 100 / v) as Hk by (apply Qlt_shift_div_l; lra).
  split; intros H.
  - apply Qlt_shift_div_r; [lra|].
    destruct (Qlt_le_dec v (r * s)) as [Hlt|Hle]; [exact Hlt|].
    assert ((s * r - v) * (100 / v) <= 0) by nra. lra.
  - assert (v < r * s).
    { apply (Qmult_lt_r _ _ _ Hs) in H.
      assert (v / s * s == v) as Hd by (field; lra). lra. }
    nra.
Qed.

(** X17.  The return the table simulates.  For a market rate that is a
    positive number and a stock of positive value, the return on
    investment is a number: the value of the stock at the market rate over
    its book value, less one, in percent.  It is positive exactly when the
    estimated sales value is above the book value; it is positive when the
    market rate is above the average cost, and only then, within the
    margin [slack] of the rounding.  Without a market rate, the estimated
    sales value, the potential profit and the return are 0. *)
Theorem simulated_return batches r :
  0 < r -> 0 < InventoryTable.totalValue batches ->
  exists a roi,
    InventoryTable.avgCost batches = Some a
    /\ InventoryTable.roiPercentage batches (Some r) = Some roi
    /\ roi == (InventoryTable.totalStock batches * r
               / InventoryTable.totalValue batches - 1) * 100
    /\ (0 < roi <-> InventoryTable.totalValue batches
                    < InventoryTable.estimatedSalesValue batches (Some r))
    /\ (a + slack * a < r -> 0 < roi)
    /\ (0 < roi -> a - slack * a < r)
    /\ InventoryTable.roiPercentage batches None = Some 0
    /\ InventoryTable.potentialProfit batches None = 0
    /\ InventoryTable.estimatedSalesValue batches None = 0.
Proof.
  intros Hr Hv.
  destruct (simulated_roi batches r Hr Hv) as (a & roi & Ha & Hroi & Heq & Hiff & Hrest).
  exists a, roi. split; [exact Ha|]. split; [exact Hroi|]. split; [exact Heq|].
  assert (0 <= a) as Ha0.
  { revert Ha. unfold InventoryTable.avgCost.
    num_case (Num.gtb (InventoryTable.totalStock batches) 0).
    - rewrite NumFacts.div_Some by lra. intros H. inversion H; subst.
      apply Qle_shift_div_l; lra.
    - intros H. inversion H; subst. lra. }
  assert (0 <= slack * a) as Hs by (apply Qmult_le_0_compat; [unfold slack; lra | exact Ha0]).
  split; [|split; [|split; [|exact Hrest]]].
  - unfold InventoryTable.estimatedSalesValue.
    num_case (Num.gtb r 0); [|lra].
    set (s := InventoryTable.totalStock batches) in *.
    set (v := InventoryTable.totalValue batches) in *. clearbody s v.
    rewrite Heq.
    assert ((s * r / v - 1) * 100 == (s * r - v) * (100 / v)) as -> by (field; lra).
    assert (0 < 100 / v) as Hk by (apply Qlt_shift_div_l; lra).
    split; intros H.
    + destruct (Qlt_le_dec v (s * r)) as [Hlt|Hle]; [exact Hlt|].
      assert ((s * r - v) * (100 / v) <= 0) by nra. lra.
    + nra.
  - intros H. apply Hiff. lra.
  - intros H. apply Hiff in H. lra.
Qed.

(** ** The pie of the analytics view *)

Lemma take_drop_sum {A} (f : A -> Q) n l :
  Qsum (map f (take n l)) + Qsum (map f (drop n l)) == Qsum (map f l).
Proof. rewrite <- Qsum_app, <- map_app, take_drop. reflexivity. Qed.

(** X18.  The pie of the analytics view shows all the gold sold.  For
    customers with non-negative quantities the values of the slices add
    up to the grams of all customers: the first five customers have a
    slice each and the others share one, which is left out when it would
    be empty.  There are never more than six slices. *)
Theorem pie_shows_all_grams customerData :
  Forall (fun c => 0 <= totalGrams c) customerData ->
  let pie := AnalyticsView.pieData customerData in
  Qsum (map AnalyticsView.sliceValue pie) == Qsum (map totalGrams customerData)
  /\ (length pie <= 6)%nat
  /\ map AnalyticsView.sliceName (take 5 pie) = map name (take 5 customerData).
Proof.
  intros Hg. cbv zeta. unfold AnalyticsView.pieData.
  pose proof (fold_left_Qsum totalGrams (drop 5 customerData) 0) as Hf.
  set (others := fold_left (fun acc c => acc + totalGrams c) (drop 5 customerData) 0) in *.
  pose proof (take_drop_sum totalGrams 5 customerData) as Hsum.
  assert (0 <= Qsum (map totalGrams (drop 5 customerData))) as Hothers.
  { apply Qsum_nonneg. apply List.Forall_forall. intros x Hx.
    apply in_map_iff in Hx as (c & <- & Hc).
    apply (proj1 (List.Forall_forall _ _) Hg c).
    rewrite <- (take_drop 5 customerData). apply in_or_app. right. exact Hc. }
  assert (length (take 5 customerData) <= 5)%nat as Hlen by (rewrite length_take; lia).
  set (top := map (fun c => {| AnalyticsView.sliceName := name c;
                               AnalyticsView.sliceValue := totalGrams c |})
                  (take 5 customerData)).
  assert (map AnalyticsView.sliceValue top = map totalGrams (take 5 customerData)) as Hv.
  { unfold top. rewrite map_map. reflexivity. }
  assert (map AnalyticsView.sliceName top = map name (take 5 customerData)) as Hn.
  { unfold top. rewrite map_map. reflexivity. }
  assert (length top = length (take 5 customerData)) as Hl.
  { unfold top. apply length_map. }
  num_case (Num.gtb others 0).
  - rewrite map_app, Qsum_app, Hv. cbn [map AnalyticsView.sliceValue].
    rewrite Qsum_cons. change (Qsum []) with 0.
    split; [lra|]. split.
    + rewrite length_app. simpl. lia.
    + destruct (decide (length top = 5%nat)) as [H5|H5].
      * rewrite take_app_length' by (symmetry; exact H5). exact Hn.
      * rewrite take_ge by (rewrite length_app; simpl; lia).
        exfalso.
        assert (length customerData < 5)%nat as Hshort.
        { rewrite Hl, length_take in H5. lia. }
        rewrite drop_ge in Hf by lia. simpl in Hf. lra.
  - rewrite Hv. split; [lra|]. split; [lia|].
    rewrite take_ge by lia. exact Hn.
Qed.

(** ** Sums over the entries of an object *)

Lemma Qsum_set {V} (f : V -> Q) k v (o : JsObject.t (V := V)) :
  Qsum (map (fun e => f (snd e)) (JsObject.set k v o))
  == Qsum (map (fun e => f (snd e)) o)
     - match JsObject.get k o with Some v0 => f v0 | None => 0 end
     + f v.
Proof.
  induction o as [|[k' v'] o IH]; simpl; [lra|].
  destruct (String.eqb k k'); cbn [map snd]; rewrite ?Qsum_cons; [lra|].
  rewrite IH. cbn [snd]. lra.
Qed.

(** Grouping by a key loses nothing: when each element adds [g] to the
    entry of its key, the entries add up to what the elements add. *)
Lemma group_sum {V X} (step : JsObject.t (V := V) -> X -> JsObject.t (V := V))
    (f : V -> Q) (g : X -> Q) :
  (forall o x, Qsum (map (fun e => f (snd e)) (step o x))
               == Qsum (map (fun e => f (snd e)) o) + g x) ->
  forall xs o,
    Qsum (map (fun e => f (snd e)) (fold_left step xs o))
    == Qsum (map (fun e => f (snd e)) o) + Qsum (map g xs).
Proof.
  intros Hstep. induction xs as [|x xs IH]; intros o; simpl; [lra|].
  rewrite IH, Hstep. lra.
Qed.

Lemma Qsum_entries {V} (f : V -> Q) (o : JsObject.t (V := V)) :
  Qsum (map (fun e => f (snd e)) (JsObject.entries o))
  == Qsum (map (fun e => f (snd e)) o).
Proof. apply Qsum_perm, Permutation_map, JsObjectFacts.entries_perm. Qed.

(** ** The monthly ledger *)

Section MonthFacts.
Import BusinessLedgerView.
Variable monthKey : string -> string.
Variable keyTime : string -> option Z.

Lemma monthStep_sum (f : MonthStat -> Q) (g : Invoice -> Q) :
  f noSales == 0 ->
  (forall s inv, f (addSale s inv) == f s + g inv) ->
  forall stats inv,
    Qsum (map (fun e => f (snd e)) (monthStep monthKey stats inv))
    == Qsum (map (fun e => f (snd e)) stats) + g inv.
Proof.
  intros H0 Hadd stats inv. unfold monthStep. rewrite Qsum_set.
  destruct (JsObject.get (monthKey (date inv)) stats) as [s|]; rewrite Hadd; lra.
Qed.

Lemma monthlyData_sum (f : MonthStat -> Q) (g : Invoice -> Q) invoices :
  f noSales == 0 ->
  (forall s inv, f (addSale s inv) == f s + g inv) ->
  Qsum (map (fun row => f (monthStat row)) (monthlyData monthKey keyTime invoices))
  == Qsum (map g (List.filter isSale invoices)).
Proof.
  intros H0 Hadd. unfold monthlyData.
  rewrite (Qsum_perm _ _ (Permutation_map _ (jsSort_perm _ _))).
  rewrite map_map. cbn [monthRow monthStat].
  rewrite (Qsum_entries f).
  rewrite (group_sum (monthStep monthKey) f g (monthStep_sum f g H0 Hadd)).
  simpl. lra.
Qed.

(** X19.  The months of the business ledger add up to its totals.  The
    totals are computed without a fault, and the turnover, the profit and
    the quantity of the monthly rows add up to the lifetime totals, and
    the tax of the rows to the GST of all sales: every sale is counted in
    exactly one month, whatever the keys of the months are.  The margin is
    the profit over the turnover in percent, and 0 without turnover. *)
Theorem months_add_up invoices :
  let rows := monthlyData monthKey keyTime invoices in
  exists t,
    totals invoices = Some t
    /\ Qsum (map (fun row => turnover (monthStat row)) rows) == totalTurnover t
    /\ Qsum (map (fun row => monthProfit (monthStat row)) rows) == totalsProfit t
    /\ Qsum (map (fun row => qty (monthStat row)) rows) == totalQty t
    /\ Qsum (map (fun row => tax (monthStat row)) rows)
       == Qsum (map gstAmount (List.filter isSale invoices))
    /\ (0 < totalTurnover t -> totalsMargin t == totalsProfit t / totalTurnover t * 100)
    /\ (totalTurnover t <= 0 -> totalsMargin t == 0).
Proof.
  cbv zeta. unfold totals.
  set (sales := List.filter isSale invoices).
  pose proof (fold_left_Qsum totalAmount sales 0) as Ht.
  pose proof (fold_left_Qsum (fun inv => Num.orZero (profit inv)) sales 0) as Hp.
  pose proof (fold_left_Qsum quantityGrams sales 0) as Hq.
  set (t := fold_left (fun acc inv => acc + totalAmount inv) sales 0) in *.
  set (p := fold_left (fun acc inv => acc + Num.orZero (profit inv)) sales 0) in *.
  set (q := fold_left (fun acc inv => acc + quantityGrams inv) sales 0) in *.
  clearbody t p q.
  assert (exists m, (if Num.gtb t 0 then r ← Num.div p t; Some (r * 100) else Some 0)
                    = Some m
                    /\ (0 < t -> m == p / t * 100) /\ (t <= 0 -> m == 0))
    as (m & -> & Hm1 & Hm2).
  { num_case (Num.gtb t 0).
    - rewrite NumFacts.div_Some by lra. eexists. split; [reflexivity|].
      split; intros; [reflexivity | lra].
    - eexists. split; [reflexivity|]. split; intros; [lra | reflexivity]. }
  cbn [mbind option_bind]. eexists. split; [reflexivity|].
  cbn [totalTurnover totalsProfit totalQty totalsMargin].
  rewrite (monthlyData_sum turnover totalAmount) by (intros; simpl; lra).
  rewrite (monthlyData_sum monthProfit (fun inv => Num.orZero (profit inv)))
    by (intros; simpl; lra).
  rewrite (monthlyData_sum qty quantityGrams) by (intros; simpl; lra).
  rewrite (monthlyData_sum tax gstAmount) by (intros; simpl; lra).
  fold sales. repeat split; try lra; assumption.
Qed.

End MonthFacts.

(** ** The supplier table *)

Lemma supplierStep_sum (f : SupplierAcc -> Q) (g : Invoice -> Q) :
  f noPurchase == 0 ->
  (forall d inv, f (addPurchase d inv) == f d + g inv) ->
  forall stats inv,
    Qsum (map (fun e => f (snd e)) (supplierEntry stats inv))
    == Qsum (map (fun e => f (snd e)) stats) + g inv.
Proof.
  intros H0 Hadd stats inv. unfold supplierEntry. rewrite Qsum_set.
  destruct (JsObject.get (partyName inv) stats) as [s|]; rewrite Hadd; lra.
Qed.

Lemma supplierStep_rated stats inv :
  Forall (fun e => rates (snd e) <> []) stats ->
  Forall (fun e => rates (snd e) <> []) (supplierEntry stats inv).
Proof.
  intros Hs. unfold supplierEntry. apply JsObjectFacts.Forall_set; [exact Hs|].
  simpl. destruct (rates _); discriminate.
Qed.

Lemma supplier_fold invs : forall stats,
  Forall (fun e => rates (snd e) <> []) stats ->
  List.NoDup (map fst stats) ->
  Forall (fun e => rates (snd e) <> []) (fold_left supplierEntry invs stats)
  /\ List.NoDup (map fst (fold_left supplierEntry invs stats)).
Proof.
  induction invs as [|inv invs IH]; intros stats Hr Hn; simpl; [split; assumption|].
  apply IH; [apply supplierStep_rated, Hr|].
  unfold supplierEntry. apply JsObjectFacts.set_NoDup, Hn.
Qed.

Lemma supplierRow_Some e :
  rates (snd e) <> [] ->
  exists s, supplierRow e = Some s
    /\ supplierName s = fst e
    /\ totalGramsPurchased s = accGrams (snd e)
    /\ supplierTxCount s = count (snd e).
Proof.
  destruct e as [n data]. simpl. intros Hr. unfold supplierRow.
  destruct (rates data) as [|x l] eqn:Hx; [contradiction|].
  cbn [mathMin mathMax mbind option_bind].
  assert (exists avg, (if Num.gtb (accGrams data) 0
                       then Num.div (accCost data) (accGrams data) else Some 0)
                      = Some avg) as (avg & ->).
  { num_case (Num.gtb (accGrams data) 0);
      [rewrite NumFacts.div_Some by lra|]; eauto. }
  cbn [mbind option_bind]. eexists. split; [reflexivity|]. auto.
Qed.

(** X20.  The supplier table.  When no purchase names a party that is
    an inherited property of the object of the entries, the supplier
    statistics are computed without a fault.  There is one row for each
    supplier name; the rows are sorted by the quantity purchased, greatest
    first; and the quantities of the rows add up to the quantity of all
    purchases, and their transaction counts to the number of purchases: no
    purchase is lost or counted twice, and no sale is counted.  A purchase
    from a party with such a name makes the call throw. *)
Theorem supplier_table invoices :
  Forall (fun i => type i = PURCHASE -> JsObject.inherited (partyName i) = false)
         invoices ->
  (forall i, type i = PURCHASE -> JsObject.inherited (partyName i) = true ->
               calculateSupplierStats (i :: invoices) = None
               /\ calculateSupplierStats (invoices ++ [i]) = None)
  /\ exists rows,
    calculateSupplierStats invoices = Some rows
    /\ List.NoDup (map supplierName rows)
    /\ StronglySorted (fun a b => totalGramsPurchased b <= totalGramsPurchased a) rows
    /\ Qsum (map totalGramsPurchased rows)
       == Qsum (map quantityGrams (List.filter isPurchase invoices))
    /\ Qsum (map supplierTxCount rows) == Qlength (List.filter isPurchase invoices)
    /\ (forall n, In n (map supplierName rows)
                  <-> In n (map partyName (List.filter isPurchase invoices))).
Proof.
  intros Hown. split.
  { intros i Ht Hn. split; apply calculateSupplierStats_inherited.
    - left. split; assumption.
    - apply List.Exists_exists. exists i. split; [|split; assumption].
      apply in_or_app. right. left. reflexivity. }
  rewrite (calculateSupplierStats_own _ Hown).
  set (purchases := List.filter isPurchase invoices).
  set (stats := fold_left supplierEntry purchases []).
  destruct (supplier_fold purchases []) as [Hr Hn]; [constructor | constructor |].
  fold stats in Hr, Hn.
  destruct (mapM_rows supplierRow
              (fun e s => supplierName s = fst e
                          /\ totalGramsPurchased s = accGrams (snd e)
                          /\ supplierTxCount s = count (snd e))
              (JsObject.entries stats)) as (rows & Hrows & HF).
  { rewrite JsObjectFacts.entries_perm.
    eapply List.Forall_impl; [|exact Hr]. intros e He. apply supplierRow_Some, He. }
  rewrite Hrows. cbn [mbind option_bind]. eexists. split; [reflexivity|].
  assert (map supplierName rows = map fst (JsObject.entries stats)) as Hnames.
  { apply Forall2_map_eq. eapply Forall2_weaken; [|exact HF]. intros e s (H & _). exact H. }
  pose proof (jsSort_perm byVolume rows) as Hperm.
  split; [|split; [|split; [|split]]].
  - apply NoDup_ListNoDup. rewrite Hperm, Hnames, JsObjectFacts.entries_perm.
    apply NoDup_ListNoDup, Hn.
  - apply (StronglySorted_weaken
             (fun a b => - totalGramsPurchased a <= - totalGramsPurchased b)).
    + intros a b H. lra.
    + apply (jsSort_sorted byVolume (fun a => - totalGramsPurchased a)).
      intros a b. eexists. split; [reflexivity|]. lra.
  - rewrite (Qsum_perm _ _ (Permutation_map _ Hperm)).
    rewrite (Forall2_Qsum (fun e => accGrams (snd e)) totalGramsPurchased
               (JsObject.entries stats) rows).
    2:{ eapply Forall2_weaken; [|exact HF]. intros e s (_ & H & _). rewrite H. reflexivity. }
    rewrite (Qsum_entries accGrams). unfold stats.
    rewrite (group_sum supplierEntry accGrams quantityGrams).
    + simpl. lra.
    + apply supplierStep_sum; intros; simpl; lra.
  - rewrite (Qsum_perm _ _ (Permutation_map _ Hperm)).
    rewrite (Forall2_Qsum (fun e => count (snd e)) supplierTxCount
               (JsObject.entries stats) rows).
    2:{ eapply Forall2_weaken; [|exact HF]. intros e s (_ & _ & H). rewrite H. reflexivity. }
    rewrite (Qsum_entries count). unfold stats.
    rewrite (group_sum supplierEntry count (fun _ => 1)).
    + simpl. clear. induction purchases as [|i l IH].
      * vm_compute. reflexivity.
      * cbn [map]. rewrite Qsum_cons, Qlength_cons. lra.
    + apply supplierStep_sum; intros; simpl; lra.
  - intros n. rewrite Hperm, Hnames, JsObjectFacts.entries_perm. unfold stats.
    clear. 
    assert (forall o, In n (map fst (fold_left supplierEntry purchases o))
                      <-> In n (map fst o) \/ In n (map partyName purchases)) as H.
    { induction purchases as [|i l IH]; intros o; simpl; [tauto|].
      rewrite IH. unfold supplierEntry.
      set (v := addPurchase _ i). clearbody v.
      assert (In n (map fst (JsObject.set (partyName i) v o))
              <-> In n (map fst o) \/ partyName i = n) as ->; [|tauto].
      clear. induction o as [|[k' v'] o IH]; simpl; [tauto|].
      destruct (String.eqb_spec (partyName i) k') as [->|Hne]; simpl; [tauto|].
      rewrite IH. tauto. }
    rewrite H. simpl. tauto.
Qed.

(** ** The customer table *)

Lemma customerStep_sum (f : CustomerStat -> Q) (g : Invoice -> Q) :
  (forall n, f (emptyCustomer n) == 0) ->
  (forall s inv, f (tally s inv) == f s + g inv) ->
  forall stats inv,
    Qsum (map (fun e => f (snd e)) (customerEntry stats inv))
    == Qsum (map (fun e => f (snd e)) stats) + g inv.
Proof.
  intros H0 Hadd stats inv. unfold customerEntry. rewrite Qsum_set.
  destruct (JsObject.get (partyName inv) stats) as [s|]; rewrite Hadd;
    [lra | rewrite H0; lra].
Qed.

Lemma customerRow_fields stat row :
  customerRow stat = Some row ->
  name row = name stat /\ totalGrams row = totalGrams stat
  /\ totalSpend row = totalSpend stat
  /\ profitContribution row = profitContribution stat.
Proof.
  unfold customerRow. intros H.
  repeat match type of H with
         | context [mbind _ ?x] =>
             destruct x; cbn [mbind option_bind] in H; try discriminate
         end.
  inversion H; subst; clear H. auto.
Qed.

Lemma Qsum_filter_zero {A} (f : A -> Q) (p : A -> bool) l :
  Forall (fun x => p x = false -> f x == 0) l ->
  Qsum (map f (List.filter p l)) == Qsum (map f l).
Proof.
  induction 1 as [|x l Hx _ IH]; [reflexivity|].
  cbn [List.filter map]. destruct (p x); cbn [map]; rewrite ?Qsum_cons, IH; [lra|].
  rewrite Hx by reflexivity. lra.
Qed.

(** The sales of a party with a positive amount each. *)
Lemma partySpend_zero n invs :
  Forall (fun i => isSale i = true -> 0 < totalAmount i) invs ->
  partySpend n invs <= 0 -> partySales n invs = [].
Proof.
  intros Hv Hle. unfold partySpend in Hle.
  destruct (partySales n invs) as [|s l] eqn:Hs; [reflexivity|].
  exfalso.
  assert (0 < Qsum (map totalAmount (s :: l))); [|lra].
  apply Qsum_pos; [|discriminate].
  apply List.Forall_forall. intros x Hx. apply in_map_iff in Hx as (i & <- & Hi).
  rewrite <- Hs in Hi. unfold partySales, ofParty in Hi.
  apply List.filter_In in Hi as [Hi Hsale].
  apply List.filter_In in Hi as [Hi _].
  exact (proj1 (List.Forall_forall _ _) Hv i Hi Hsale).
Qed.

(** X21.  The customer table accounts for the sales.  When every sale
    has a positive total amount, the customer statistics are computed
    without a fault, there is one row for each customer name, and the
    profit contributions of the rows add up to the total profit of the
    sales of the parties whose names are not inherited properties of the
    object of the entries, their grams to the grams of these sales and
    their spend to the total amounts of these sales: leaving out the
    parties without a sale loses nothing.  The sales of a party with an
    inherited name are in no row; without such a party the sums are those
    of all sales. *)
Theorem customers_add_up filteredInvoices :
  Forall (fun i => isSale i = true -> 0 < totalAmount i) filteredInvoices ->
  exists rows,
    customerData filteredInvoices = Some rows
    /\ List.NoDup (map name rows)
    /\ Qsum (map profitContribution rows)
       == totalProfit (List.filter ownName filteredInvoices)
    /\ Qsum (map totalGrams rows)
       == Qsum (map quantityGrams
                    (List.filter isSale (List.filter ownName filteredInvoices)))
    /\ Qsum (map totalSpend rows)
       == Qsum (map totalAmount
                    (List.filter isSale (List.filter ownName filteredInvoices)))
    /\ (Forall (fun i => JsObject.inherited (partyName i) = false) filteredInvoices ->
        List.filter ownName filteredInvoices = filteredInvoices).
Proof.
  intros Hv. unfold customerData.
  destruct (fold_customerStep filteredInvoices []) as [Hfold _]; [constructor|].
  rewrite Hfold. clear Hfold.
  assert (Forall (fun i => JsObject.inherited (partyName i) = false) filteredInvoices ->
          List.filter ownName filteredInvoices = filteredInvoices) as Hsame.
  { intros Hall. apply filter_all. eapply List.Forall_impl; [|exact Hall].
    intros i Hi. unfold ownName. rewrite Hi. reflexivity. }
  revert Hsame. apply (Forall_filter_keep _ ownName) in Hv. revert Hv.
  generalize (List.filter ownName filteredInvoices) as own. intros own Hv Hsame.
  set (stats := fold_left customerEntry own []).
  assert (List.NoDup (map fst stats)) as Hnd by (apply fold_customer_NoDup; constructor).
  assert (Forall (fun e => gathers (fst e) (emptyCustomer (fst e)) own (snd e)
                           /\ 1 <= partyCount (fst e) own
                           /\ name (snd e) = fst e) stats) as Hg.
  { apply List.Forall_forall. intros [k stat] Hin.
    apply JsObjectFacts.In_get in Hin; [|exact Hnd].
    unfold stats in Hin. rewrite get_fold_customer in Hin. simpl in Hin.
    apply entryStep_None in Hin as [Hg Hc]. cbn [fst snd].
    split; [exact Hg|]. split; [exact Hc|]. exact (g_name _ _ _ _ Hg). }
  assert (Forall (fun e => gathers (fst e) (emptyCustomer (fst e)) own (snd e)
                           /\ 1 <= partyCount (fst e) own
                           /\ name (snd e) = fst e) (JsObject.entries stats)) as Hge.
  { rewrite JsObjectFacts.entries_perm. exact Hg. }
  set (keep := fun stat : CustomerStat => Num.gtb (totalSpend stat) 0).
  destruct (mapM_rows customerRow
              (fun stat row => name row = name stat /\ totalGrams row = totalGrams stat
                               /\ totalSpend row = totalSpend stat
                               /\ profitContribution row = profitContribution stat)
              (List.filter keep (JsObject.values stats))) as (rows & Hrows & HF).
  { apply List.Forall_forall. intros stat Hin.
    apply List.filter_In in Hin as [Hin Hpos].
    unfold JsObject.values in Hin. apply in_map_iff in Hin as (e & <- & He).
    destruct (proj1 (List.Forall_forall _ _) Hge e He) as (Hgath & Hc & Hname).
    rewrite <- Hname in Hgath, Hc.
    destruct (customerRow_pattern own (snd e) Hgath Hc Hpos)
      as (row & Hrow & _).
    exists row. split; [exact Hrow|]. apply customerRow_fields, Hrow. }
  rewrite Hrows. cbn [mbind option_bind]. eexists. split; [reflexivity|].
  pose proof (jsSort_perm byProfit rows) as Hperm.
  (* what the rows add up to *)
  assert (forall (f : CustomerStat -> Q) (g : Invoice -> Q),
            (forall stat row, name row = name stat /\ totalGrams row = totalGrams stat
                              /\ totalSpend row = totalSpend stat
                              /\ profitContribution row = profitContribution stat ->
                              f row == f stat) ->
            (forall n, f (emptyCustomer n) == 0) ->
            (forall s inv, f (tally s inv) == f s + g inv) ->
            (forall e, In e (JsObject.entries stats) -> keep (snd e) = false ->
                       f (snd e) == 0) ->
            Qsum (map f (jsSort byProfit rows)) == Qsum (map g own)) as Hsum.
  { intros f g Hrow H0 Hadd Hdrop.
    rewrite (Qsum_perm _ _ (Permutation_map _ Hperm)).
    rewrite (Forall2_Qsum f f (List.filter keep (JsObject.values stats)) rows).
    2:{ eapply Forall2_weaken; [|exact HF]. intros x y H. apply Hrow, H. }
    rewrite Qsum_filter_zero.
    - unfold JsObject.values. rewrite map_map, (Qsum_entries f). unfold stats.
      rewrite (group_sum customerEntry f g (customerStep_sum f g H0 Hadd)).
      simpl. lra.
    - apply List.Forall_forall. intros stat Hin.
      unfold JsObject.values in Hin. apply in_map_iff in Hin as (e & <- & He).
      apply Hdrop, He. }
  (* a party that is left out has no sale *)
  assert (forall e, In e (JsObject.entries stats) -> keep (snd e) = false ->
            partySales (fst e) own = []
            /\ gathers (fst e) (emptyCustomer (fst e)) own (snd e)) as Hout.
  { intros e He Hk.
    destruct (proj1 (List.Forall_forall _ _) Hge e He) as (Hgath & _ & _).
    split; [|exact Hgath]. apply partySpend_zero; [exact Hv|].
    unfold keep in Hk. apply NumFacts.gtb_false in Hk.
    pose proof (g_spend _ _ _ _ Hgath) as Hs. cbn [emptyCustomer totalSpend] in Hs.
    lra. }
  split; [|split; [|split; [|split; [|exact Hsame]]]].
  - apply NoDup_ListNoDup. rewrite Hperm. apply NoDup_ListNoDup.
    rewrite (Forall2_map_eq name name (List.filter keep (JsObject.values stats)) rows).
    2:{ eapply Forall2_weaken; [|exact HF]. intros x y (H & _). exact H. }
    apply NoDup_map_filter. unfold JsObject.values. rewrite map_map.
    assert (map (fun e => name (snd e)) (JsObject.entries stats)
            = map fst (JsObject.entries stats)) as ->.
    { apply map_ext_in. intros e He.
      exact (proj2 (proj2 (proj1 (List.Forall_forall _ _) Hge e He))). }
    apply NoDup_ListNoDup. rewrite JsObjectFacts.entries_perm.
    apply NoDup_ListNoDup, Hnd.
  - rewrite totalProfit_sum.
    rewrite (Hsum profitContribution
               (fun i => if isSale i then Num.orZero (profit i) else 0)).
    + clear. induction own as [|i l IH]; [reflexivity|].
      cbn [map List.filter]. destruct (isSale i); cbn [map]; rewrite ?Qsum_cons, IH; lra.
    + intros stat row (_ & _ & _ & H). rewrite H. reflexivity.
    + intros n. reflexivity.
    + intros s inv. unfold tally. cbn [profitContribution].
      destruct (isSale inv); lra.
    + intros e He Hk. destruct (Hout e He Hk) as [Hnil Hgath].
      pose proof (g_profit _ _ _ _ Hgath) as Hp.
      unfold partyProfit in Hp. rewrite Hnil in Hp. simpl in Hp. lra.
  - rewrite (Hsum totalGrams (fun i => if isSale i then quantityGrams i else 0)).
    + clear. induction own as [|i l IH]; [reflexivity|].
      cbn [map List.filter]. destruct (isSale i); cbn [map]; rewrite ?Qsum_cons, IH; lra.
    + intros stat row (_ & H & _). rewrite H. reflexivity.
    + intros n. reflexivity.
    + intros s inv. unfold tally. cbn [totalGrams]. destruct (isSale inv); lra.
    + intros e He Hk. destruct (Hout e He Hk) as [Hnil Hgath].
      pose proof (g_grams _ _ _ _ Hgath) as Hp.
      unfold partyGrams in Hp. rewrite Hnil in Hp. simpl in Hp. lra.
  - rewrite (Hsum totalSpend (fun i => if isSale i then totalAmount i else 0)).
    + clear. induction own as [|i l IH]; [reflexivity|].
      cbn [map List.filter]. destruct (isSale i); cbn [map]; rewrite ?Qsum_cons, IH; lra.
    + intros stat row (_ & _ & H & _). rewrite H. reflexivity.
    + intros n. reflexivity.
    + intros s inv. unfold tally. cbn [totalSpend]. destruct (isSale inv); lra.
    + intros e He Hk. destruct (Hout e He Hk) as [Hnil Hgath].
      pose proof (g_spend _ _ _ _ Hgath) as Hp.
      unfold partySpend in Hp. rewrite Hnil in Hp. simpl in Hp. lra.
Qed.

(** ** Newest first *)

Section NewestFirst.
Variable getTime : string -> option Z.

Lemma sort_by_date_desc {A} (dateOf : A -> string) (l : list A) :
  Forall (fun a => is_Some (getTime (dateOf a))) l ->
  StronglySorted (fun a b => notAfter getTime (dateOf b) (dateOf a) = true)
    (jsSort (fun a b => dateDiff getTime (dateOf b) (dateOf a)) l).
Proof.
  intros Hl.
  apply (StronglySorted_on
           (fun a b => - timeOf getTime (dateOf a) <= - timeOf getTime (dateOf b)) _
           (fun a => is_Some (getTime (dateOf a)))).
  - intros a b Ha Hb H. apply timeOf_notAfter; [assumption | assumption | lra].
  - rewrite jsSort_perm. exact Hl.
  - apply (jsSort_sorted_on _ (fun a => - timeOf getTime (dateOf a))
             (fun a => is_Some (getTime (dateOf a)))); [|exact Hl].
    intros a b Ha Hb.
    destruct (dateDiff_key getTime _ _ Hb Ha) as (v & Hv & Hk).
    exists v. split; [exact Hv | lra].
Qed.

(** X22.  Newest first.  The transactions export and the transactions
    table show the filtered invoices, all of them and no other, sorted by
    date with the newest first when the dates are valid; the history of
    the inventory table shows the empty batches in the same way. *)
Theorem shown_newest_first filteredInvoices batches :
  Forall (fun i => is_Some (getTime (date i))) filteredInvoices ->
  Forall (fun b => is_Some (getTime (batchDate b))) batches ->
  Permutation (invoicesExportData getTime filteredInvoices) filteredInvoices
  /\ StronglySorted (fun a b => notAfter getTime (date b) (date a) = true)
       (invoicesExportData getTime filteredInvoices)
  /\ Permutation (InventoryTable.displayedHistoryBatches getTime batches)
       (InventoryTable.historyBatches batches)
  /\ StronglySorted (fun a b => notAfter getTime (batchDate b) (batchDate a) = true)
       (InventoryTable.displayedHistoryBatches getTime batches).
Proof.
  intros Hi Hb. unfold invoicesExportData, InventoryTable.displayedHistoryBatches.
  split; [apply jsSort_perm|]. split; [apply (sort_by_date_desc date), Hi|].
  split; [apply jsSort_perm|].
  apply (sort_by_date_desc batchDate), Forall_filter_keep, Hb.
Qed.

End NewestFirst.

(** ** The replay and the purchases *)






Section ReplayBound.
Variable getTime : string -> option Z.


End ReplayBound.

(** ** The date range picker *)

Lemma ltb_false_leb a b : String.ltb a b = false -> String.leb b a = true.
Proof.
  unfold String.ltb, String.leb. rewrite (String.compare_antisym a b).
  destruct (String.compare b a); simpl; congruence.
Qed.

Lemma leb_refl a : String.leb a a = true.
Proof.
  destruct (String.leb_total a a); assumption.
Qed.

Lemma truthy_false s : DateRangePicker.truthy s = false -> s = ""%string.
Proof.
  unfold DateRangePicker.truthy. intros H. apply negb_false_iff in H.
  apply String.eqb_eq, H.
Qed.

Lemma ordered_same v j :
  orderedRange {| DateRangePicker.tempStart := v; DateRangePicker.tempEnd := v;
                  DateRangePicker.activeInput := j |}.
Proof. right. right. apply leb_refl. Qed.

Lemma ordered_start u v j :
  DateRangePicker.truthy u && String.ltb u v = false ->
  orderedRange {| DateRangePicker.tempStart := v; DateRangePicker.tempEnd := u;
                  DateRangePicker.activeInput := j |}.
Proof.
  intros H. unfold orderedRange. cbn [DateRangePicker.tempStart DateRangePicker.tempEnd].
  apply andb_false_iff in H as [H|H].
  - right. left. apply truthy_false, H.
  - right. right. apply ltb_false_leb, H.
Qed.

Lemma ordered_end u v j :
  DateRangePicker.truthy u && String.ltb v u = false ->
  orderedRange {| DateRangePicker.tempStart := u; DateRangePicker.tempEnd := v;
                  DateRangePicker.activeInput := j |}.
Proof.
  intros H. unfold orderedRange. cbn [DateRangePicker.tempStart DateRangePicker.tempEnd].
  apply andb_false_iff in H as [H|H].
  - left. apply truthy_false, H.
  - right. right. apply ltb_false_leb, H.
Qed.

(** X24.  The date range picker never holds an inverted range.  After a
    click on a day, and after a date typed into the start or the end
    field, the selection has an end missing or its start is not after its
    end, whatever the selection was before; the date that was clicked or
    typed is one of the two ends; and [handleDone] hands over exactly the
    selection. *)
Theorem range_never_inverted x s :
  let clicked := DateRangePicker.handleDayClick x s in
  let typedStart := DateRangePicker.handleManualStartChange x s in
  let typedEnd := DateRangePicker.handleManualEndChange x s in
  orderedRange clicked /\ orderedRange typedStart /\ orderedRange typedEnd
  /\ (DateRangePicker.tempStart clicked = x \/ DateRangePicker.tempEnd clicked = x)
  /\ DateRangePicker.tempStart typedStart = x
  /\ DateRangePicker.tempEnd typedEnd = x
  /\ DateRangePicker.handleDone clicked
     = (DateRangePicker.tempStart clicked, DateRangePicker.tempEnd clicked).
Proof.
  cbv zeta.
  unfold DateRangePicker.handleDayClick, DateRangePicker.handleManualStartChange,
    DateRangePicker.handleManualEndChange, DateRangePicker.handleDone.
  destruct s as [a b i]. cbn [DateRangePicker.tempStart DateRangePicker.tempEnd
    DateRangePicker.activeInput].
  destruct (DateRangePicker.truthy b && String.ltb b x) eqn:Hb;
    destruct (DateRangePicker.truthy a && String.ltb x a) eqn:Ha;
    destruct i;
    cbn [DateRangePicker.tempStart DateRangePicker.tempEnd];
    repeat split;
    auto using ordered_same, ordered_start, ordered_end.
Qed.

(** ** The ledger only grows *)

Section AppendOnly.
Variable getTime : string -> option Z.

Lemma handleAddInvoice_grows st o :
  let st' := handleAddInvoice getTime st o in
  (invoices st' = invoices st
   \/ exists o', invoices st' = o' :: invoices st
                 /\ id o' = id o /\ date o' = date o /\ type o' = type o
                 /\ partyName o' = partyName o
                 /\ quantityGrams o' = quantityGrams o
                 /\ ratePerGram o' = ratePerGram o
                 /\ totalAmount o' = totalAmount o)
  /\ exists t, toasts st' = toasts st ++ [t].
Proof.
  cbv zeta. destruct (type o) eqn:Ht.
  - unfold handleAddInvoice. rewrite Ht. cbn [invoices toasts addToast]. split.
    + right. exists o. repeat split; auto.
    + eexists. reflexivity.
  - rewrite (handleAddInvoice_sale _ _ _ Ht).
    destruct (allocate o (inventory st) (quantityGrams o) 0) as [[newInventory r] c].
    destruct (Num.gtb r (1 # 1000)); cbn [invoices toasts addToast].
    + split; [left; reflexivity | eexists; reflexivity].
    + split; [|eexists; reflexivity].
      right. eexists. split; [reflexivity|]. repeat split; auto.
Qed.

(** X25.  The ledger only grows.  Whatever is submitted, the invoices
    there were stay as they were, at the end of the list: no invoice is
    dropped, changed or reordered.  What is put in front are submitted
    invoices, at most one for each, the newest first; and every submitted
    invoice adds exactly one toast. *)
Theorem ledger_only_grows st ops :
  let st' := runLedger getTime st ops in
  exists new shown,
    invoices st' = new ++ invoices st
    /\ sublist (map id new) (map id (rev ops))
    /\ toasts st' = toasts st ++ shown
    /\ length shown = length ops.
Proof.
  cbv zeta. revert st. induction ops as [|o ops IH]; intros st.
  - exists [], []. simpl. rewrite app_nil_r. repeat split. constructor.
  - cbn [runLedger fold_left].
    destruct (IH (handleAddInvoice getTime st o)) as (new & shown & Hi & Hs & Ht & Hl).
    unfold runLedger in *.
    destruct (handleAddInvoice_grows st o) as [Hgrow [t Htoast]].
    cbn [rev]. rewrite map_app. cbn [map].
    destruct Hgrow as [Hsame|(o' & Ho' & Hid & _)].
    + exists new, (t :: shown).
      rewrite Hi, Hsame, Ht, Htoast, <- app_assoc. repeat split.
      * apply sublist_inserts_r, Hs.
      * simpl. rewrite Hl. reflexivity.
    + exists (new ++ [o']), (t :: shown).
      rewrite Hi, Ho', Ht, Htoast, <- !app_assoc. repeat split.
      * rewrite map_app. cbn [map]. rewrite Hid.
        apply sublist_app; [exact Hs | reflexivity].
      * simpl. rewrite Hl. reflexivity.
Qed.

End AppendOnly.

(** * More scenarios *)

(** X1 at the sale of 60g against the two lots. *)
Lemma sale_draws_in_order_witness :
  type Scenario.sale60 = SALE
  /\ stocked (inventory Scenario.twoLots)
  /\ let inv' := inventory (handleAddInvoice isoTime Scenario.twoLots Scenario.sale60) in
     (exists k,
         Forall (fun b => remainingQuantity b == 0) (take k inv')
         /\ drop (S k) inv' = drop (S k) (inventory Scenario.twoLots))
     /\ Forall2 drawn (inventory Scenario.twoLots) inv'.
Proof.
  assert (stocked (inventory Scenario.twoLots)) as Hs
    by (repeat constructor; by_computing).
  split; [reflexivity|]. split; [exact Hs|].
  exact (sale_draws_in_order isoTime Scenario.twoLots Scenario.sale60 eq_refl Hs).
Defined.

(** X3 at a purchase entered last and dated first. *)
Lemma lots_kept_oldest_first_witness :
  Forall (fun i => isPurchase i = true -> is_Some (isoTime (date i))) Scenario.backdated
  /\ StronglySorted
       (fun a b => notAfter isoTime (batchDate a) (batchDate b) = true)
       (inventory (runLedger isoTime initialState Scenario.backdated)).
Proof.
  assert (Forall (fun i => isPurchase i = true -> is_Some (isoTime (date i)))
                 Scenario.backdated) as Hv.
  { repeat constructor; intros _; eexists; vm_compute; reflexivity. }
  split; [exact Hv|].
  exact (lots_kept_oldest_first isoTime Scenario.backdated Hv).
Defined.

(** X4 at the three invoices of the first scenario. *)
Lemma closed_exactly_when_empty_witness :
  Forall (fun i => isPurchase i = true -> 0 < quantityGrams i) Scenario.inOrder
  /\ Forall (openOrClosed Scenario.inOrder)
            (inventory (runLedger isoTime initialState Scenario.inOrder)).
Proof.
  assert (Forall (fun i => isPurchase i = true -> 0 < quantityGrams i) Scenario.inOrder)
    as Hv by (repeat constructor; intros _; by_computing).
  split; [exact Hv|].
  exact (closed_exactly_when_empty isoTime Scenario.inOrder Hv).
Defined.

(** X6 at the form of a purchase whose GST field was left empty. *)
Lemma accepted_invoice_amounts_witness :
  handleSubmit None 100 "p3" Sample.untaxedForm = inr Sample.untaxed
  /\ gstRate Sample.untaxed = None
  /\ gstAmount Sample.untaxed == 0
  /\ totalAmount Sample.untaxed == taxableAmount Sample.untaxed.
Proof.
  assert (handleSubmit None 100 "p3" Sample.untaxedForm = inr Sample.untaxed) as Hsub
    by reflexivity.
  split; [exact Hsub|]. split; [reflexivity|].
  pose proof (accepted_invoice_amounts None 100 "p3" Sample.untaxedForm Sample.untaxed Hsub)
    as (_ & _ & _ & _ & _ & _ & _ & _ & H1 & _).
  exact (H1 eq_refl).
Defined.


(** X8 at a total of 390000 for 60g. *)
Lemma total_field_sets_the_rate_witness :
  formQuantityGrams Sample.saleForm = Some 60
  /\ 0 < 60
  /\ exists rate,
       formRatePerGram (handleTotalChange (Amount 390000) Sample.saleForm) = Some rate
       /\ rate == 390000 / 60.
Proof.
  assert (0 < 60) as Hq by by_computing.
  split; [reflexivity|]. split; [exact Hq|].
  exact (proj1 (total_field_sets_the_rate 390000 Sample.saleForm 60 eq_refl Hq)).
Defined.

(** X9 at the sale of 60g against the two lots, which cost 6000 and
    6200: the sale is committed at a cost of 362000. *)
Lemma books_of_a_sale_witness :
  stocked (inventory Scenario.twoLots)
  /\ 0 <= 6000 <= 6200
  /\ Forall (fun b => 6000 <= costPerGram b <= 6200) (inventory Scenario.twoLots)
  /\ quantityGrams Scenario.sale60 + slack * quantityGrams Scenario.sale60
     <= currentStock (inventory Scenario.twoLots) + (1 # 1000)
  /\ exists c shortfall,
       invoices (handleAddInvoice isoTime Scenario.twoLots Scenario.sale60)
       = withCogs Scenario.sale60 c
           (quantityGrams Scenario.sale60 * ratePerGram Scenario.sale60 - c)
         :: invoices Scenario.twoLots
       /\ c = 362000
       /\ 0 <= shortfall <= 1 # 1000.
Proof.
  assert (stocked (inventory Scenario.twoLots)) as Hs
    by (repeat constructor; by_computing).
  assert (0 <= 6000 <= 6200) as Hlh by (split; by_computing).
  assert (Forall (fun b => 6000 <= costPerGram b <= 6200) (inventory Scenario.twoLots))
    as Hc by (repeat constructor; by_computing).
  assert (0 <= quantityGrams Scenario.sale60) as Hq by by_computing.
  assert (quantityGrams Scenario.sale60 + slack * quantityGrams Scenario.sale60
          <= currentStock (inventory Scenario.twoLots) + (1 # 1000)) as Hmax
    by by_computing.
  split; [exact Hs|]. split; [exact Hlh|]. split; [exact Hc|]. split; [exact Hmax|].
  destruct (books_of_a_sale isoTime Scenario.twoLots Scenario.sale60 6000 6200
              eq_refl Hs Hlh Hc Hq Hmax) as (c & shortfall & Hinv & Hshort & _).
  exists c, shortfall. split; [exact Hinv|]. split; [|exact Hshort].
  vm_compute in Hinv. inversion Hinv. reflexivity.
Defined.

(** X11 at the two lots on 2024-01-10, nine and seven days old. *)
Lemma average_age_between_witness :
  Forall (fun b => 0 < remainingQuantity b ->
                   exists a, lotAge isoTime Sample.today b = Some a /\ 7 <= a <= 9)
         (inventory Scenario.twoLots)
  /\ exists w,
       weightedAvgDays (calculateStockAging isoTime Sample.today
                          (inventory Scenario.twoLots)) = Some w
       /\ (openLots (inventory Scenario.twoLots) <> [] ->
           7 - slack * (Qabs 7 + Qabs 9) <= w <= 9 + slack * (Qabs 7 + Qabs 9))
       /\ (openLots (inventory Scenario.twoLots) = [] -> w == 0)
       /\ 0 <= w.
Proof.
  assert (Forall (fun b => 0 < remainingQuantity b ->
                   exists a, lotAge isoTime Sample.today b = Some a /\ 7 <= a <= 9)
                 (inventory Scenario.twoLots)) as Hv.
  { repeat constructor; intros _; eexists;
      (split; [vm_compute; reflexivity | split; by_computing]). }
  split; [exact Hv|].
  exact (average_age_between isoTime Sample.today (inventory Scenario.twoLots) 7 9 Hv).
Defined.

(** X12 at a lot dated "soon". *)
Lemma unreadable_date_ages_the_stock_witness :
  In Sample.undated [Sample.undated]
  /\ 0 < remainingQuantity Sample.undated
  /\ isoTime (batchDate Sample.undated) = None
  /\ weightedAvgDays (calculateStockAging isoTime Sample.today [Sample.undated]) = None
  /\ remainingQuantity Sample.undated
     <= over30 (buckets (calculateStockAging isoTime Sample.today [Sample.undated])).
Proof.
  assert (In Sample.undated [Sample.undated]) as Hin by (left; reflexivity).
  assert (0 < remainingQuantity Sample.undated) as Hq by by_computing.
  split; [exact Hin|]. split; [exact Hq|]. split; [reflexivity|].
  exact (unreadable_date_ages_the_stock isoTime Sample.today [Sample.undated]
           Sample.undated Hin Hq eq_refl).
Defined.

(** X14 at the ledger of the first scenario: a profit of 28000 on a
    taxable amount of 390000 raises no alert. *)
Lemma low_margin_alert_witness :
  0 <= Qsum (map taxableAmount (recentSales (invoices Sample.afterSale)))
  /\ Qsum (map (fun i => Num.orZero (profit i)) (recentSales (invoices Sample.afterSale)))
     == 28000
  /\ Qsum (map taxableAmount (recentSales (invoices Sample.afterSale))) == 390000
  /\ ~ exists a,
         In a (alerts Sample.grams
                 (calculateStockAging isoTime Sample.today (inventory Sample.afterSale))
                 (invoices Sample.afterSale))
         /\ severity a = MEDIUM.
Proof.
  assert (0 <= Qsum (map taxableAmount (recentSales (invoices Sample.afterSale))))
    as Ht by by_computing.
  split; [exact Ht|]. split; [by_computing|]. split; [by_computing|].
  intros Hraised.
  destruct (low_margin_alert Sample.grams
              (calculateStockAging isoTime Sample.today (inventory Sample.afterSale))
              (invoices Sample.afterSale) Ht) as [_ Honly].
  destruct (Honly Hraised) as [_ Hlt]. vm_compute in Hlt. discriminate Hlt.
Defined.

(** X15 at the lots after the sale of the first scenario, one closed and
    one with stock. *)
Lemma table_agrees_with_dashboard_witness :
  stocked (inventory Sample.afterSale)
  /\ InventoryTable.totalStock (inventory Sample.afterSale)
     == currentStock (inventory Sample.afterSale)
  /\ InventoryTable.totalValue (inventory Sample.afterSale)
     == fifoValue (inventory Sample.afterSale).
Proof.
  assert (stocked (inventory Sample.afterSale)) as Hs
    by (repeat constructor; by_computing).
  split; [exact Hs|].
  pose proof (table_agrees_with_dashboard (inventory Sample.afterSale) (Some 6500) Hs)
    as (_ & H1 & H2 & _).
  split; [exact H1 | exact H2].
Defined.

(** X16 at the two lots, which cost 6000 and 6200. *)
Lemma average_cost_between_witness :
  Forall (fun b => 0 < remainingQuantity b -> 6000 <= costPerGram b <= 6200)
         (inventory Scenario.twoLots)
  /\ 0 < InventoryTable.totalStock (inventory Scenario.twoLots)
  /\ exists a, InventoryTable.avgCost (inventory Scenario.twoLots) = Some a
               /\ 6000 - slack * (Qabs 6000 + Qabs 6200) <= a
                  <= 6200 + slack * (Qabs 6000 + Qabs 6200).
Proof.
  assert (Forall (fun b => 0 < remainingQuantity b -> 6000 <= costPerGram b <= 6200)
                 (inventory Scenario.twoLots)) as Hc
    by (repeat constructor; by_computing).
  assert (0 < InventoryTable.totalStock (inventory Scenario.twoLots)) as Hpos
    by by_computing.
  split; [exact Hc|]. split; [exact Hpos|].
  exact (proj1 (average_cost_between (inventory Scenario.twoLots) 6000 6200 Hc Hpos)).
Defined.

(** X17 at the two lots and a market rate of 6500. *)
Lemma simulated_return_witness :
  0 < 6500
  /\ 0 < InventoryTable.totalValue (inventory Scenario.twoLots)
  /\ exists a roi,
       InventoryTable.avgCost (inventory Scenario.twoLots) = Some a
       /\ InventoryTable.roiPercentage (inventory Scenario.twoLots) (Some 6500) = Some roi
       /\ roi == (InventoryTable.totalStock (inventory Scenario.twoLots) * 6500
                  / InventoryTable.totalValue (inventory Scenario.twoLots) - 1) * 100
       /\ (0 < roi <-> InventoryTable.totalValue (inventory Scenario.twoLots)
                       < InventoryTable.estimatedSalesValue (inventory Scenario.twoLots)
                           (Some 6500))
       /\ (a + slack * a < 6500 -> 0 < roi)
       /\ (0 < roi -> a - slack * a < 6500)
       /\ InventoryTable.roiPercentage (inventory Scenario.twoLots) None = Some 0
       /\ InventoryTable.potentialProfit (inventory Scenario.twoLots) None = 0
       /\ InventoryTable.estimatedSalesValue (inventory Scenario.twoLots) None = 0.
Proof.
  assert (0 < 6500) as Hr by by_computing.
  assert (0 < InventoryTable.totalValue (inventory Scenario.twoLots)) as Hv
    by by_computing.
  split; [exact Hr|]. split; [exact Hv|].
  exact (simulated_return (inventory Scenario.twoLots) 6500 Hr Hv).
Defined.

(** X18 at the customer table of the first scenario. *)
Lemma pie_shows_all_grams_witness :
  Forall (fun c => 0 <= totalGrams c) Sample.customers
  /\ Qsum (map AnalyticsView.sliceValue (AnalyticsView.pieData Sample.customers))
     == Qsum (map totalGrams Sample.customers).
Proof.
  assert (Forall (fun c => 0 <= totalGrams c) Sample.customers) as Hg.
  { apply List.Forall_forall. intros c Hc. vm_compute in Hc.
    destruct Hc as [<-|[]]. by_computing. }
  split; [exact Hg|].
  exact (proj1 (pie_shows_all_grams Sample.customers Hg)).
Defined.

(** X20 at the invoices of the first scenario, and a purchase from a
    party named as a property every object inherits. *)
Lemma supplier_table_witness :
  Forall (fun i => type i = PURCHASE -> JsObject.inherited (partyName i) = false)
         (invoices Sample.afterSale)
  /\ calculateSupplierStats (Sample.inheritedPurchase :: invoices Sample.afterSale) = None
  /\ exists rows,
       calculateSupplierStats (invoices Sample.afterSale) = Some rows
       /\ map supplierName rows = ["Mint"%string]
       /\ Qsum (map totalGramsPurchased rows)
          == Qsum (map quantityGrams (List.filter isPurchase (invoices Sample.afterSale))).
Proof.
  assert (Forall (fun i => type i = PURCHASE -> JsObject.inherited (partyName i) = false)
                 (invoices Sample.afterSale)) as Hown
    by (repeat constructor).
  split; [exact Hown|].
  destruct (supplier_table (invoices Sample.afterSale) Hown)
    as (Hnone & rows & Hrows & _ & _ & Hsum & _).
  split; [exact (proj1 (Hnone Sample.inheritedPurchase eq_refl eq_refl))|].
  exists rows. split; [exact Hrows|]. split; [|exact Hsum].
  vm_compute in Hrows. inversion Hrows. reflexivity.
Defined.

(** X21 at a ledger with a sale to a party named as a property every
    object inherits: the row of the other customer is the only one. *)
Lemma customers_add_up_witness :
  Forall (fun i => isSale i = true -> 0 < totalAmount i) Sample.inheritedSale
  /\ exists rows,
       customerData Sample.inheritedSale = Some rows
       /\ map name rows = ["Asha"%string]
       /\ Qsum (map profitContribution rows)
          == totalProfit (List.filter ownName Sample.inheritedSale)
       /\ totalProfit (List.filter ownName Sample.inheritedSale) == 10000
       /\ totalProfit Sample.inheritedSale == 15000.
Proof.
  assert (Forall (fun i => isSale i = true -> 0 < totalAmount i) Sample.inheritedSale)
    as Hv by (repeat constructor; intros _; by_computing).
  split; [exact Hv|].
  destruct (customers_add_up Sample.inheritedSale Hv) as (rows & Hrows & _ & Hsum & _).
  exists rows. split; [exact Hrows|].
  split; [vm_compute in Hrows; inversion Hrows; reflexivity|].
  split; [exact Hsum|]. split; by_computing.
Defined.

(** X22 at the invoices and the lots of the first scenario. *)
Lemma shown_newest_first_witness :
  Forall (fun i => is_Some (isoTime (date i))) (invoices Sample.afterSale)
  /\ Forall (fun b => is_Some (isoTime (batchDate b))) (inventory Sample.afterSale)
  /\ StronglySorted (fun a b => notAfter isoTime (date b) (date a) = true)
       (invoicesExportData isoTime (invoices Sample.afterSale)).
Proof.
  assert (Forall (fun i => is_Some (isoTime (date i))) (invoices Sample.afterSale)) as Hi.
  { repeat constructor; eexists; vm_compute; reflexivity. }
  assert (Forall (fun b => is_Some (isoTime (batchDate b))) (inventory Sample.afterSale))
    as Hb.
  { repeat constructor; eexists; vm_compute; reflexivity. }
  split; [exact Hi|]. split; [exact Hb|].
  exact (proj1 (proj2 (shown_newest_first isoTime (invoices Sample.afterSale)
                         (inventory Sample.afterSale) Hi Hb))).
Defined.

